(** * javiangens backend: query builders, middleware chain and resource handlers

    A shallow embedding of the Express/MySQL backend: the JavaScript string
    and number primitives the code relies on, the in-memory image of the
    relational tables and of the upload directory, the middleware chain with
    its error handler, and the route handlers.  Theorems follow the
    definitions. *)

From Stdlib Require Import String Ascii ZArith List Lia Bool DecimalString DecimalPos.
From stdpp Require Import base gmap strings list sorting.
Import ListNotations.
Local Open Scope string_scope.
Local Open Scope list_scope.
Local Open Scope Z_scope.

(* ===================================================================== *)
(** ** JavaScript primitives *)
(* ===================================================================== *)

Module Js.

(** [String.prototype.startsWith] *)
Definition startsWith (s p : string) : bool := String.prefix p s.

(** [String.prototype.substring(n)] with a single argument *)
Fixpoint substring_from (n : nat) (s : string) : string :=
  match n, s with
  | O, _ => s
  | S n', String _ s' => substring_from n' s'
  | S _, EmptyString => EmptyString
  end.

(** [String.prototype.includes] *)
Fixpoint includes (s m : string) : bool :=
  String.prefix m s ||
  match s with
  | EmptyString => false
  | String _ s' => includes s' m
  end.

(** [String.prototype.replace] with a string pattern: only the first
    occurrence is replaced. *)
Fixpoint replace (s m r : string) : string :=
  if String.prefix m s then r +:+ substring_from (String.length m) s
  else match s with
       | EmptyString => EmptyString
       | String c s' => String c (replace s' m r)
       end.

(** [String.prototype.split] with a one-character separator; the result is
    never empty. *)
Fixpoint split (sep : ascii) (s : string) : list string :=
  match s with
  | EmptyString => [EmptyString]
  | String c s' =>
      if Ascii.eqb c sep then EmptyString :: split sep s'
      else match split sep s' with
           | [] => [String c EmptyString]
           | h :: t => String c h :: t
           end
  end.

(** [Array.prototype.join] *)
Fixpoint join (sep : string) (l : list string) : string :=
  match l with
  | [] => EmptyString
  | [x] => x
  | x :: rest => x +:+ sep +:+ join sep rest
  end.

(** [Array.prototype.pop] on the result of a [split] (never empty). *)
Definition pop (l : list string) : string := List.last l EmptyString.

Fixpoint repeat_char (c : ascii) (n : nat) : string :=
  match n with
  | O => EmptyString
  | S n' => String c (repeat_char c n')
  end.

(** [String.prototype.padStart(n, c)] with a one-character filler *)
Definition padStart (n : nat) (c : ascii) (s : string) : string :=
  repeat_char c (n - String.length s) +:+ s.

(** JavaScript numbers that hold integers; [None] stands for [NaN].  The
    arithmetic below is exact, as the double arithmetic of the code is on
    integers below 2^53. *)
Abbreviation number := (option Z).

Definition MAX_SAFE_INTEGER : Z := 2 ^ 53 - 1.

Definition is_digit (c : ascii) : bool :=
  let n := nat_of_ascii c in (48 <=? n)%nat && (n <=? 57)%nat.

Definition digit_value (c : ascii) : Z := Z.of_nat (nat_of_ascii c) - 48.

Definition hex_value (c : ascii) : option Z :=
  let n := nat_of_ascii c in
  if (48 <=? n)%nat && (n <=? 57)%nat then Some (Z.of_nat n - 48)
  else if (65 <=? n)%nat && (n <=? 70)%nat then Some (Z.of_nat n - 55)
  else if (97 <=? n)%nat && (n <=? 102)%nat then Some (Z.of_nat n - 87)
  else None.

Definition is_space (c : ascii) : bool :=
  let n := nat_of_ascii c in
  (n =? 32)%nat || ((9 <=? n)%nat && (n <=? 13)%nat).

Fixpoint skip_spaces (s : string) : string :=
  match s with
  | String c s' => if is_space c then skip_spaces s' else s
  | EmptyString => s
  end.

(** The longest prefix of decimal digits, read with accumulator [acc];
    [seen] tells whether a digit has been read. *)
Fixpoint read_decimal (s : string) (acc : Z) (seen : bool) : number :=
  match s with
  | String c s' =>
      if is_digit c then read_decimal s' (10 * acc + digit_value c) true
      else if seen then Some acc else None
  | EmptyString => if seen then Some acc else None
  end.

Fixpoint read_hex (s : string) (acc : Z) (seen : bool) : number :=
  match s with
  | String c s' =>
      match hex_value c with
      | Some d => read_hex s' (16 * acc + d) true
      | None => if seen then Some acc else None
      end
  | EmptyString => if seen then Some acc else None
  end.

Definition read_unsigned (s : string) : number :=
  match s with
  | String "0" (String "x" s') => read_hex s' 0 false
  | String "0" (String "X" s') => read_hex s' 0 false
  | _ => read_decimal s 0 false
  end.

(** [parseInt(s)] without a radix: leading white space, an optional sign,
    an optional [0x] prefix, then the longest prefix of digits. *)
Definition parseInt (s : string) : number :=
  match skip_spaces s with
  | String "-" s' => option_map Z.opp (read_unsigned s')
  | String "+" s' => read_unsigned s'
  | s' => read_unsigned s'
  end.

(** [Number.prototype.toString] on an integer *)
Definition toString (n : number) : string :=
  match n with
  | None => "NaN"
  | Some z => NilZero.string_of_int (Z.to_int z)
  end.

(** [n + 1]; [NaN + 1] is [NaN]. *)
Definition succ (n : number) : number := option_map Z.succ n.


(** [Math.ceil(a / b)] for integers [a] and [b > 0]. *)
Definition ceil_div (a b : Z) : Z := - ((- a) / b).

(** The values that cross the JSON and SQL boundaries. *)
Inductive value : Type :=
| Undefined
| Null
| Bool (b : bool)
| Num (z : Z)
| Str (s : string).

(** Template-literal conversion [`${v}`] *)
Definition to_template (v : value) : string :=
  match v with
  | Undefined => "undefined"
  | Null => "null"
  | Bool true => "true"
  | Bool false => "false"
  | Num z => toString (Some z)
  | Str s => s
  end.

(** Truthiness of a value *)
Definition truthy (v : value) : bool :=
  match v with
  | Undefined | Null => false
  | Bool b => b
  | Num z => negb (z =? 0)
  | Str s => negb (String.eqb s EmptyString)
  end.

Definition value_eqb (a b : value) : bool :=
  match a, b with
  | Undefined, Undefined => true
  | Null, Null => true
  | Bool x, Bool y => Bool.eqb x y
  | Num x, Num y => x =? y
  | Str x, Str y => String.eqb x y
  | _, _ => false
  end.

End Js.


(* ===================================================================== *)
(** ** Errors, the world and the handler monad *)
(* ===================================================================== *)

(** A thrown JavaScript error: [name] is ["Error"] for [AppError] and for
    file-system errors, and the class name for the errors of jsonwebtoken. *)
Record Exn : Type := mkExn {
  exn_name : string;
  exn_message : string;
  exn_statusCode : option Z;
  exn_code : option string;
  exn_details : list (string * string)
}.

(** [new AppError(message, statusCode, code)] of errorMiddleware *)
Definition AppError (message : string) (statusCode : Z) (code : string) : Exn :=
  mkExn "Error" message (Some statusCode) (Some code) [].

Definition AppErrorWithDetails (message : string) (statusCode : Z) (code : string)
    (details : list (string * string)) : Exn :=
  mkExn "Error" message (Some statusCode) (Some code) details.

(** *** Tables *)

Record UserRow : Type := mkUser {
  u_id : string; u_email : string; u_password_hash : string
}.

Record ProfileRow : Type := mkProfile {
  p_id : string; p_name : string; p_email : string; p_phone : option string;
  p_role : string; p_status : bool; p_last_login : option Z; p_created_at : Z
}.

Record CategoryRow : Type := mkCategory {
  c_id : string; c_name : string; c_created_by : string
}.

Record SubcategoryRow : Type := mkSubcategory {
  s_id : string; s_name : string; s_category_id : string; s_created_by : string
}.

Record TransactionRow : Type := mkTransaction {
  t_id : string; t_amount : Js.value; t_type : Js.value; t_description : Js.value;
  t_date : Js.value; t_category_id : Js.value; t_subcategory_id : Js.value;
  t_receipt_url : option string; t_created_by : string; t_updated_at : Z
}.

Record Database : Type := mkDb {
  users : list UserRow;
  profiles : list ProfileRow;
  categories : list CategoryRow;
  subcategories : list SubcategoryRow;
  transactions : list TransactionRow
}.

(** *** Upload directory *)

(** A directory entry; [f_removable = false] stands for an entry on which
    [unlink] fails (a directory, a read-only mount, a permission). *)
Record FileEntry : Type := mkFile { f_size : Z; f_removable : bool }.

Inductive FsCall : Type :=
| FsAccess (path : string)
| FsStat (path : string)
| FsUnlink (path : string)
| FsExists (path : string)
| FsRead (path : string).

Definition fs_call_path (c : FsCall) : string :=
  match c with
  | FsAccess p | FsStat p | FsUnlink p | FsExists p | FsRead p => p
  end.

(** The state a request runs against: the tables, the files by path, what
    was written to the console, the file-system calls made so far, and the
    clock read by [NOW()]. *)
Record World : Type := mkWorld {
  w_db : Database;
  w_fs : gmap string FileEntry;
  w_console : list string;
  w_fs_calls : list FsCall;
  w_now : Z
}.

Definition set_db (d : Database) (w : World) : World :=
  mkWorld d (w_fs w) (w_console w) (w_fs_calls w) (w_now w).
Definition set_fs (f : gmap string FileEntry) (w : World) : World :=
  mkWorld (w_db w) f (w_console w) (w_fs_calls w) (w_now w).
Definition add_console (line : string) (w : World) : World :=
  mkWorld (w_db w) (w_fs w) (w_console w ++ [line]) (w_fs_calls w) (w_now w).
Definition add_fs_call (c : FsCall) (w : World) : World :=
  mkWorld (w_db w) (w_fs w) (w_console w) (w_fs_calls w ++ [c]) (w_now w).

(** *** The monad: state that survives a throw *)

Definition M (A : Type) : Type := World -> (Exn + A) * World.

Definition ret {A} (a : A) : M A := fun w => (inr a, w).

Definition bind {A B} (m : M A) (k : A -> M B) : M B :=
  fun w => match m w with
           | (inl e, w') => (inl e, w')
           | (inr a, w') => k a w'
           end.

Definition throw {A} (e : Exn) : M A := fun w => (inl e, w).

(** [try { m } catch (error) { h(error) }] *)
Definition try_catch {A} (m : M A) (h : Exn -> M A) : M A :=
  fun w => match m w with
           | (inl e, w') => h e w'
           | (inr a, w') => (inr a, w')
           end.

Definition get_db : M Database := fun w => (inr (w_db w), w).
Definition put_db (d : Database) : M unit := fun w => (inr tt, set_db d w).
Definition get_now : M Z := fun w => (inr (w_now w), w).
Definition console_log (line : string) : M unit := fun w => (inr tt, add_console line w).

(** [if (c) throw e] *)
Definition throw_if (c : bool) (e : Exn) : M unit :=
  if c then throw e else ret tt.

#[global] Instance M_ret : MRet M := @ret.
#[global] Instance M_bind : MBind M := fun A B k m => bind m k.

(** [executeQuery] with a SELECT: the rows the statement returns. *)
Definition select {A} (q : Database -> A) : M A :=
  d ← get_db; mret (q d).

(** [executeQuery] with an INSERT, UPDATE or DELETE. *)
Definition execute (u : Z -> Database -> Database) : M unit :=
  d ← get_db; t ← get_now; put_db (u t d).

(** *** File system and paths *)

Definition ENOENT : Exn := mkExn "Error" "ENOENT: no such file or directory" None (Some "ENOENT") [].
Definition EPERM : Exn := mkExn "Error" "EPERM: operation not permitted" None (Some "EPERM") [].

Definition fs_access (path : string) : M unit :=
  fun w => let w' := add_fs_call (FsAccess path) w in
           match w_fs w !! path with
           | Some _ => (inr tt, w')
           | None => (inl ENOENT, w')
           end.

Definition fs_stat (path : string) : M FileEntry :=
  fun w => let w' := add_fs_call (FsStat path) w in
           match w_fs w !! path with
           | Some f => (inr f, w')
           | None => (inl ENOENT, w')
           end.

Definition fs_unlink (path : string) : M unit :=
  fun w => let w' := add_fs_call (FsUnlink path) w in
           match w_fs w !! path with
           | Some f => if f_removable f then (inr tt, set_fs (delete path (w_fs w)) w')
                       else (inl EPERM, w')
           | None => (inl ENOENT, w')
           end.

Definition fs_existsSync (path : string) : M bool :=
  fun w => let w' := add_fs_call (FsExists path) w in
           (inr (bool_decide (is_Some (w_fs w !! path))), w').

Module Path.

(** [normalizeString] of Node's posix path module, on the list of segments:
    [.] and empty segments vanish, [..] removes the segment before it unless
    there is none or it is itself [..]; above the root it is kept for a
    relative path and dropped for an absolute one.  [acc] is the result so
    far, last segment first. *)
Fixpoint normalize_segments (allowAboveRoot : bool) (segs : list string)
    (acc : list string) : list string :=
  match segs with
  | [] => rev acc
  | seg :: rest =>
      if String.eqb seg "" || String.eqb seg "." then
        normalize_segments allowAboveRoot rest acc
      else if String.eqb seg ".." then
        match acc with
        | top :: acc' =>
            if String.eqb top ".." then normalize_segments allowAboveRoot rest (seg :: acc)
            else normalize_segments allowAboveRoot rest acc'
        | [] =>
            if allowAboveRoot then normalize_segments allowAboveRoot rest [seg]
            else normalize_segments allowAboveRoot rest []
        end
      else normalize_segments allowAboveRoot rest (seg :: acc)
  end.

Definition ends_with_slash (p : string) : bool :=
  match rev (list_ascii_of_string p) with
  | c :: _ => Ascii.eqb c "/"
  | [] => false
  end.

(** [path.posix.normalize] *)
Definition normalize (p : string) : string :=
  if String.eqb p "" then "."
  else
    let isAbsolute := Js.startsWith p "/" in
    let trailing := ends_with_slash p in
    let body := Js.join "/" (normalize_segments (negb isAbsolute) (Js.split "/" p) []) in
    if String.eqb body "" then
      if isAbsolute then "/" else if trailing then "./" else "."
    else
      let body' := if trailing then body +:+ "/" else body in
      if isAbsolute then "/" +:+ body' else body'.

(** [path.posix.join]: the non-empty arguments joined with [/], normalized. *)
Definition join (args : list string) : string :=
  match filter (fun a => negb (String.eqb a "")) args with
  | [] => "."
  | parts => normalize (Js.join "/" parts)
  end.

End Path.



(* ===================================================================== *)
(** ** Express: requests, responses, the chain and the error handler *)
(* ===================================================================== *)

(** [req.user] as the authentication middleware attaches it *)
Record Identity : Type := mkIdentity {
  id_id : string; id_email : string; id_name : string; id_role : string
}.

Record Request : Type := mkReq {
  req_authorization : option string;      (* req.headers.authorization *)
  req_param : string;                     (* req.params.id / req.params.filename *)
  req_query : gmap string string;         (* req.query *)
  req_body : gmap string Js.value;        (* req.body *)
  req_user : option Identity              (* req.user *)
}.

Definition set_user (u : Identity) (r : Request) : Request :=
  mkReq (req_authorization r) (req_param r) (req_query r) (req_body r) (Some u).

(** A property of [req.body]; an absent property reads [undefined]. *)
Definition body_get (r : Request) (k : string) : Js.value :=
  default Js.Undefined (req_body r !! k).

Record Pagination : Type := mkPagination {
  pg_page : Z; pg_limit : Z; pg_total : Z; pg_totalPages : Z
}.

(** A row of the user listing: the selected columns of the join. *)
Record UserListItem : Type := mkUserListItem {
  ul_id : string; ul_email : string; ul_name : string; ul_phone : option string;
  ul_role : string; ul_status : bool; ul_last_login : option Z; ul_created_at : Z
}.

Record FileInfo : Type := mkFileInfo {
  fi_filename : string; fi_size : Z; fi_url : string
}.

Inductive Payload : Type :=
| NoData
| LoginData (user : gmap string Js.value) (token refreshToken : string)
| UserList (rows : list UserListItem) (pagination : Pagination)
| TransactionData (row : option TransactionRow)
| FileInfoData (info : FileInfo)
| FileStream (path : string) (contentType : string) (contentLength : Z).

Record Response : Type := mkRes {
  res_status : Z;
  res_success : bool;
  res_message : string;         (* [message] on success, [error] on failure *)
  res_code : option string;
  res_data : Payload
}.

(** [res.json({ success: true, message, data })] *)
Definition ok_json (message : string) (data : Payload) : Response :=
  mkRes 200 true message None data.

Inductive Step : Type :=
| Next (req : Request)       (* next() *)
| Send (res : Response).     (* res.json(...) *)

Definition Middleware : Type := Request -> M Step.

(** The middlewares of a route run in order; a thrown error, like
    [next(error)], leaves the chain. *)
Fixpoint run_chain (mws : list Middleware) (req : Request) : M Response :=
  match mws with
  | [] => throw (mkExn "Error" "Not found" (Some 404) None [])
  | mw :: rest =>
      step ← mw req;
      match step with
      | Next req' => run_chain rest req'
      | Send res => mret res
      end
  end.

Definition code_is (e : Exn) (c : string) : bool :=
  match exn_code e with
  | Some c' => String.eqb c' c
  | None => false
  end.

(** [errorHandler] of errorMiddleware: the tests are on the error as thrown
    and are not exclusive, so a later match replaces an earlier one. *)
Definition translate_error (err : Exn) : Exn :=
  let error := err in
  let error := if code_is err "ER_DUP_ENTRY"
               then AppError "Duplicate entry. Resource already exists." 409 "DUPLICATE_ENTRY"
               else error in
  let error := if code_is err "ER_NO_REFERENCED_ROW_2"
               then AppError "Referenced resource does not exist." 400 "FOREIGN_KEY_CONSTRAINT"
               else error in
  let error := if code_is err "ER_PARSE_ERROR"
               then AppError "Database query error." 500 "DATABASE_ERROR"
               else error in
  let error := if String.eqb (exn_name err) "JsonWebTokenError"
               then AppError "Invalid token." 401 "INVALID_TOKEN"
               else error in
  let error := if String.eqb (exn_name err) "TokenExpiredError"
               then AppError "Token expired." 401 "TOKEN_EXPIRED"
               else error in
  let error := if String.eqb (exn_name err) "ValidationError"
               then AppError (Js.join ", " (map snd (exn_details err))) 400 "VALIDATION_ERROR"
               else error in
  let error := if code_is err "LIMIT_FILE_SIZE"
               then AppError "File too large." 400 "FILE_TOO_LARGE"
               else error in
  let error := if code_is err "LIMIT_UNEXPECTED_FILE"
               then AppError "Unexpected file field." 400 "UNEXPECTED_FILE"
               else error in
  error.

Definition errorHandler (err : Exn) : World -> Response * World :=
  fun w =>
    let error := translate_error err in
    let statusCode := match exn_statusCode error with
                      | Some 0 | None => 500
                      | Some s => s
                      end in
    let message := if String.eqb (exn_message error) "" then "Internal Server Error"
                   else exn_message error in
    let code := match exn_code error with
                | Some c => if String.eqb c "" then "INTERNAL_ERROR" else c
                | None => "INTERNAL_ERROR"
                end in
    (mkRes statusCode false message (Some code) NoData, add_console "Error:" w).

(** A request served by a route: the chain, then the error handler if the
    chain threw. *)
Definition serve (mws : list Middleware) (req : Request) : World -> Response * World :=
  fun w => match run_chain mws req w with
           | (inl e, w') => errorHandler e w'
           | (inr res, w') => (res, w')
           end.

(** *** What the code takes from its libraries and its environment *)

Record JwtPayload : Type := mkJwt { jwt_userId : string; jwt_type : string }.

Record Env : Type := mkEnv {
  (* jsonwebtoken: [jwt.verify(token, JWT_SECRET)] returns the payload or
     throws JsonWebTokenError, TokenExpiredError or NotBeforeError *)
  jwt_verify : string -> Exn + JwtPayload;
  (* [jwt.sign({userId, type}, JWT_SECRET, {expiresIn})] *)
  jwt_sign : string -> string -> string;
  (* bcrypt *)
  bcrypt_compare : string -> string -> bool;
  bcrypt_hash : string -> string;
  (* express-validator *)
  isUUID : string -> bool;
  isEmail : string -> bool;
  normalizeEmail : string -> string;
  isFloat_min_001 : string -> bool;
  isISO8601 : string -> bool;
  (* MySQL: [text LIKE pattern] *)
  sql_like : string -> string -> bool;
  (* [__dirname] of the routes directory and [process.env.UPLOAD_DIR] *)
  dirname : string;
  UPLOAD_DIR : option string
}.

(* ===================================================================== *)
(** ** utils/queryUtils *)
(* ===================================================================== *)

Record Query : Type := mkQuery { query : string; params : list Js.value }.

(** [Object.entries(o)] is taken as the representation of the object [o]:
    the properties in their enumeration order. *)
Abbreviation entries := (list (string * Js.value)).

Definition is_undefined (v : Js.value) : bool :=
  match v with Js.Undefined => true | _ => false end.
Definition is_null (v : Js.value) : bool :=
  match v with Js.Null => true | _ => false end.
Definition is_empty_string (v : Js.value) : bool :=
  match v with Js.Str s => String.eqb s "" | _ => false end.

(** One turn of the [forEach] of [buildUpdateQuery] on the two arrays. *)
Definition update_step (acc : list string * list Js.value) (e : string * Js.value)
    : list string * list Js.value :=
  let '(updateFields, updateValues) := acc in
  let '(key, value) := e in
  if negb (is_undefined value)
  then ((updateFields ++ [key +:+ " = ?"]), (updateValues ++ [value]))
  else (updateFields, updateValues).

Definition buildUpdateQuery (table : string) (updates : entries)
    (whereClause : string) (whereParams : list Js.value) : Exn + Query :=
  let '(updateFields, updateValues) := fold_left update_step updates ([], []) in
  if (length updateFields =? 0)%nat then
    inl (AppError "No fields to update" 400 "NO_UPDATE_FIELDS")
  else
    inr (mkQuery
           ("UPDATE " +:+ table +:+ " SET " +:+ Js.join ", " updateFields
              +:+ ", updated_at = NOW() WHERE " +:+ whereClause)
           (updateValues ++ whereParams)).

(** One turn of the [forEach] of [buildSearchQuery]. *)
Definition search_step (acc : list string * list Js.value) (e : string * Js.value)
    : list string * list Js.value :=
  let '(whereClauses, queryParams) := acc in
  let '(key, value) := e in
  if negb (is_undefined value) && negb (is_null value) && negb (is_empty_string value) then
    if Js.includes key "_like" then
      let column := Js.replace key "_like" "" in
      ((whereClauses ++ [column +:+ " LIKE ?"]),
       (queryParams ++ [Js.Str ("%" +:+ Js.to_template value +:+ "%")]))
    else if Js.includes key "_date_from" then
      let column := Js.replace key "_date_from" "" in
      ((whereClauses ++ [column +:+ " >= ?"]), (queryParams ++ [value]))
    else if Js.includes key "_date_to" then
      let column := Js.replace key "_date_to" "" in
      ((whereClauses ++ [column +:+ " <= ?"]), (queryParams ++ [value]))
    else
      ((whereClauses ++ [key +:+ " = ?"]), (queryParams ++ [value]))
  else (whereClauses, queryParams).

Definition buildSearchQuery (baseQuery : string) (filters : entries)
    (baseParams : list Js.value) : Query :=
  let '(whereClauses, queryParams) := fold_left search_step filters ([], baseParams) in
  let query :=
    if (0 <? length whereClauses)%nat then
      let whereClause := Js.join " AND " whereClauses in
      baseQuery +:+ (if Js.includes baseQuery "WHERE" then " AND " +:+ whereClause
                    else " WHERE " +:+ whereClause)
    else baseQuery in
  mkQuery query queryParams.

(** MySQL's [CAST(s AS UNSIGNED)] of a string: leading white space, then
    the longest prefix of digits (0 when there is none), capped at 2^64-1;
    a negative number wraps around. *)
Definition sql_cast_unsigned (s : string) : Z :=
  let cap z := Z.min z (2 ^ 64 - 1) in
  match Js.skip_spaces s with
  | String "-" s' =>
      match Js.read_decimal s' 0 false with
      | Some 0 | None => 0
      | Some z => 2 ^ 64 - cap z
      end
  | s' =>
      match Js.read_decimal s' 0 false with
      | Some z => cap z
      | None => 0
      end
  end.

(** [CAST(SUBSTRING(id, 5) AS UNSIGNED)] *)
Definition txn_suffix_number (id : string) : Z :=
  sql_cast_unsigned (Js.substring_from 4 id).

(** [ORDER BY key DESC LIMIT 1]: a row of greatest key, the first one in
    table order among equals. *)
Fixpoint top_by (key : string -> Z) (rows : list string) : option string :=
  match rows with
  | [] => None
  | x :: rest =>
      match top_by key rest with
      | None => Some x
      | Some y => if key y <=? key x then Some x else Some y
      end
  end.

(** [SELECT id FROM transactions WHERE id LIKE 'txn-%'
     ORDER BY CAST(SUBSTRING(id, 5) AS UNSIGNED) DESC LIMIT 1] *)
Definition select_last_transaction_id (d : Database) : list string :=
  match top_by txn_suffix_number
          (filter (fun id => Js.startsWith id "txn-") (map t_id (transactions d))) with
  | Some id => [id]
  | None => []
  end.

(** [a[i]] converted to a string, as [parseInt] does with its argument *)
Definition index_as_string (l : list string) (i : nat) : string :=
  match nth_error l i with
  | Some s => s
  | None => "undefined"
  end.

Definition generateNextTransactionId : M string :=
  result ← select select_last_transaction_id;
  match result with
  | [] => mret "txn-001"
  | lastId :: _ =>
      let lastNumber := Js.parseInt (index_as_string (Js.split "-" lastId) 1) in
      let nextNumber := Js.succ lastNumber in
      mret ("txn-" +:+ Js.padStart 3 "0" (Js.toString nextNumber))
  end.

(** [SELECT col FROM table WHERE col = ? LIMIT 1] and [result.length > 0] *)
Definition resourceExists {R} (table : Database -> list R) (idColumn : R -> string)
    (id : string) : M bool :=
  result ← select (fun d => filter (fun r => String.eqb (idColumn r) id) (table d));
  mret (0 <? length result)%nat.

Definition findResourceOrFail {R} (table : Database -> list R) (idColumn : R -> string)
    (id : string) (errorMessage errorCode : string) : M R :=
  result ← select (fun d => filter (fun r => String.eqb (idColumn r) id) (table d));
  match result with
  | [] => throw (AppError errorMessage 404 errorCode)
  | r :: _ => mret r
  end.


(* ===================================================================== *)
(** ** middleware/authMiddleware *)
(* ===================================================================== *)

(** [users u JOIN profiles p ON u.id = p.id] *)
Definition users_join_profiles (d : Database) : list (UserRow * ProfileRow) :=
  flat_map (fun u => map (fun p => (u, p))
                       (filter (fun p => String.eqb (u_id u) (p_id p)) (profiles d)))
           (users d).

(** [... WHERE u.id = ? AND p.status = 1] *)
Definition select_active_user (userId : string) (d : Database) : list (UserRow * ProfileRow) :=
  filter (fun up => String.eqb (u_id (fst up)) userId && p_status (snd up))
         (users_join_profiles d).

Definition identity_of (up : UserRow * ProfileRow) : Identity :=
  mkIdentity (u_id (fst up)) (u_email (fst up)) (p_name (snd up)) (p_role (snd up)).

(** [!authHeader]: the header is absent or empty. *)
Definition header_missing (h : option string) : bool :=
  match h with
  | None => true
  | Some s => String.eqb s ""
  end.

Definition NO_TOKEN : Exn := AppError "Access denied. No token provided." 401 "NO_TOKEN".

Definition verifyToken (env : Env) : Middleware := fun req =>
  try_catch
    (let authHeader := req_authorization req in
     throw_if (header_missing authHeader
               || negb (Js.startsWith (default "" authHeader) "Bearer ")) NO_TOKEN;;
     let token := Js.substring_from 7 (default "" authHeader) in
     throw_if (String.eqb token "") NO_TOKEN;;
     decoded ← (match jwt_verify env token with
                | inl e => throw e
                | inr payload => mret payload
                end);
     users ← select (select_active_user (jwt_userId decoded));
     match users with
     | [] => throw (AppError "User not found or inactive." 401 "USER_NOT_FOUND")
     | row :: _ => mret (Next (set_user (identity_of row) req))
     end)
    (fun error =>
       if String.eqb (exn_name error) "JsonWebTokenError" then
         throw (AppError "Invalid token." 401 "INVALID_TOKEN")
       else if String.eqb (exn_name error) "TokenExpiredError" then
         throw (AppError "Token expired." 401 "TOKEN_EXPIRED")
       else throw error).

Definition AUTH_REQUIRED : Exn := AppError "Authentication required." 401 "AUTH_REQUIRED".

Definition requireAdmin : Middleware := fun req =>
  match req_user req with
  | None => throw AUTH_REQUIRED
  | Some u =>
      if negb (String.eqb (id_role u) "administrador") then
        throw (AppError "Admin access required." 403 "ADMIN_REQUIRED")
      else mret (Next req)
  end.

Definition requireAdminOrManager : Middleware := fun req =>
  match req_user req with
  | None => throw AUTH_REQUIRED
  | Some u =>
      if negb (existsb (String.eqb (id_role u)) ["administrador"; "gerente"]) then
        throw (AppError "Admin or manager access required." 403 "INSUFFICIENT_PERMISSIONS")
      else mret (Next req)
  end.

(** [optionalAuth]: the same resolution, every failure swallowed. *)
Definition optionalAuth (env : Env) : Middleware := fun req =>
  try_catch
    (let authHeader := req_authorization req in
     if negb (header_missing authHeader) && Js.startsWith (default "" authHeader) "Bearer " then
       let token := Js.substring_from 7 (default "" authHeader) in
       if negb (String.eqb token "") then
         decoded ← (match jwt_verify env token with
                    | inl e => throw e
                    | inr payload => mret payload
                    end);
         users ← select (select_active_user (jwt_userId decoded));
         match users with
         | row :: _ => mret (Next (set_user (identity_of row) req))
         | [] => mret (Next req)
         end
       else mret (Next req)
     else mret (Next req))
    (fun _ => mret (Next req)).

(* ===================================================================== *)
(** ** middleware/validationMiddleware *)
(* ===================================================================== *)

(** The errors express-validator collected: field and message. *)
Abbreviation ValidationErrors := (list (string * string)).

Definition handleValidationErrors (errors : ValidationErrors) (req : Request) : M Step :=
  if (0 <? length errors)%nat then
    throw (AppErrorWithDetails "Validation failed" 400 "VALIDATION_ERROR" errors)
  else mret (Next req).

(** One rule of a chain: the message is recorded when the test fails. *)
Definition check (ok : bool) (field message : string) : ValidationErrors :=
  if ok then [] else [(field, message)].

(** A rule under [.optional()]: skipped when the field is [undefined]. *)
Definition check_optional {A} (v : option A) (ok : A -> bool) (field message : string)
    : ValidationErrors :=
  match v with
  | None => []
  | Some a => check (ok a) field message
  end.

(** A body field as [.optional()] sees it: absent when [undefined]. *)
Definition body_defined (r : Request) (k : string) : option Js.value :=
  match body_get r k with
  | Js.Undefined => None
  | v => Some v
  end.

(** The string express-validator hands to validator.js. *)
Definition validator_string (v : Js.value) : string :=
  match v with
  | Js.Undefined | Js.Null => ""
  | _ => Js.to_template v
  end.

Definition all_digits (s : string) : bool :=
  forallb Js.is_digit (list_ascii_of_string s).

Definition is_lower (c : ascii) : bool :=
  let n := nat_of_ascii c in (97 <=? n)%nat && (n <=? 122)%nat.

(** [/^txn-\d+$/] *)
Definition matches_txn_id (s : string) : bool :=
  Js.startsWith s "txn-"
  && negb (String.eqb (Js.substring_from 4 s) "")
  && all_digits (Js.substring_from 4 s).

(** [/^<tag>-[a-z]+-\d+$/] for the tags [cat] and [sub]: after the tag and
    its dash, a non-empty run of lower-case letters, a dash and a non-empty
    run of digits. *)
Fixpoint word_dash_digits (s : string) (seen : bool) : bool :=
  match s with
  | String c s' =>
      if is_lower c then word_dash_digits s' true
      else Ascii.eqb c "-" && seen && negb (String.eqb s' "") && all_digits s'
  | EmptyString => false
  end.

Definition matches_tagged_id (tag s : string) : bool :=
  Js.startsWith s (tag +:+ "-")
  && word_dash_digits (Js.substring_from (String.length tag + 1) s) false.



(** validator.js [trim]: white space removed at both ends. *)
Fixpoint trim_end (s : string) : string :=
  match s with
  | EmptyString => EmptyString
  | String c s' =>
      match trim_end s' with
      | EmptyString => if Js.is_space c then EmptyString else String c EmptyString
      | t => String c t
      end
  end.

Definition trim (s : string) : string := trim_end (Js.skip_spaces s).

Definition validateUUID (env : Env) : Middleware := fun req =>
  handleValidationErrors
    (check (isUUID env (req_param req)) "id" "Invalid id format") req.

Definition validateTransactionId : Middleware := fun req =>
  handleValidationErrors
    (check (matches_txn_id (req_param req)) "id" "Invalid transaction id format") req.


Definition length_between (s : string) (lo hi : nat) : bool :=
  (lo <=? String.length s)%nat && (String.length s <=? hi)%nat.

(** [validateTransaction]; the [trim()] of the description is a sanitizer
    and rewrites [req.body.description]. *)
Definition validateTransaction (env : Env) : Middleware := fun req =>
  let description := trim (validator_string (body_get req "description")) in
  let req' := mkReq (req_authorization req) (req_param req) (req_query req)
                (<["description" := Js.Str description]> (req_body req)) (req_user req) in
  handleValidationErrors
    (check (isFloat_min_001 env (validator_string (body_get req "amount")))
       "amount" "Amount must be a positive number"
     ++ check (existsb (String.eqb (validator_string (body_get req "type"))) ["entrada"; "saida"])
       "type" "Type must be either entrada or saida"
     ++ check (length_between description 2 500)
       "description" "Description must be between 2 and 500 characters"
     ++ check (isISO8601 env (validator_string (body_get req "date")))
       "date" "Please provide a valid date"
     ++ check_optional (body_defined req "category_id")
       (fun v => matches_tagged_id "cat" (validator_string v))
       "category_id" "Invalid category ID format"
     ++ check_optional (body_defined req "subcategory_id")
       (fun v => matches_tagged_id "sub" (validator_string v))
       "subcategory_id" "Invalid subcategory ID format") req'.

(** [validateLogin]; [normalizeEmail()] rewrites [req.body.email]. *)
Definition validateLogin (env : Env) : Middleware := fun req =>
  let email := validator_string (body_get req "email") in
  let req' := mkReq (req_authorization req) (req_param req) (req_query req)
                (<["email" := Js.Str (normalizeEmail env email)]> (req_body req))
                (req_user req) in
  handleValidationErrors
    (check (isEmail env email) "email" "Please provide a valid email address"
     ++ check (6 <=? String.length (validator_string (body_get req "password")))%nat
       "password" "Password must be at least 6 characters long") req'.


(* ===================================================================== *)
(** ** utils/authUtils *)
(* ===================================================================== *)

Definition generateToken (env : Env) (userId type : string) : string :=
  jwt_sign env userId type.
Definition generateAccessToken (env : Env) (userId : string) : string :=
  generateToken env userId "access".
Definition generateRefreshToken (env : Env) (userId : string) : string :=
  generateToken env userId "refresh".

Definition hasPermission (user : option Identity) (allowedRoles : list string) : bool :=
  match user with
  | None => false
  | Some u =>
      if String.eqb (id_role u) "" then false
      else existsb (String.eqb (id_role u)) allowedRoles
  end.

Definition isAdmin (user : option Identity) : bool := hasPermission user ["administrador"].
Definition isAdminOrManager (user : option Identity) : bool :=
  hasPermission user ["administrador"; "gerente"].

(** [const { password_hash, ...userWithoutPassword } = user] *)
Definition formatUserResponse (user : gmap string Js.value) : gmap string Js.value :=
  delete "password_hash" user.

(* ===================================================================== *)
(** ** utils/responseUtils *)
(* ===================================================================== *)

Record PaginationInfo : Type := mkPaginationInfo {
  currentPage : Z; totalPages : Z; totalItems : Z; itemsPerPage : Z;
  hasNextPage : bool; hasPrevPage : bool
}.

Definition calculatePagination (page limit total : Z) : PaginationInfo :=
  let totalPages := Js.ceil_div total limit in
  let hasNextPage := page <? totalPages in
  let hasPrevPage := 1 <? page in
  mkPaginationInfo page totalPages total limit hasNextPage hasPrevPage.

(* ===================================================================== *)
(** ** routes/authRoutes: POST /api/auth/login *)
(* ===================================================================== *)

(** [... FROM users u JOIN profiles p ON u.id = p.id WHERE u.email = ?] *)
Definition select_user_by_email (email : Js.value) (d : Database) : list (UserRow * ProfileRow) :=
  filter (fun up => Js.value_eqb (Js.Str (u_email (fst up))) email) (users_join_profiles d).

(** [UPDATE profiles SET last_login = NOW() WHERE id = ?] *)
Definition touch_last_login (id : string) (now : Z) (d : Database) : Database :=
  mkDb (users d)
       (map (fun p => if String.eqb (p_id p) id
                      then mkProfile (p_id p) (p_name p) (p_email p) (p_phone p) (p_role p)
                             (p_status p) (Some now) (p_created_at p)
                      else p) (profiles d))
       (categories d) (subcategories d) (transactions d).

(** bcrypt refuses a password that is not a string. *)
Definition verifyPassword (env : Env) (password : Js.value) (hash : string) : M bool :=
  match password with
  | Js.Str s => mret (bcrypt_compare env s hash)
  | _ => throw (mkExn "Error" "data and hash arguments required" None None [])
  end.

Definition INVALID_CREDENTIALS : Exn := AppError "Invalid email or password" 401 "INVALID_CREDENTIALS".

Definition login_handler (env : Env) : Middleware := fun req =>
  let email := body_get req "email" in
  let password := body_get req "password" in
  users ← select (select_user_by_email email);
  match users with
  | [] => throw INVALID_CREDENTIALS
  | user :: _ =>
      throw_if (negb (p_status (snd user)))
        (AppError "Account is deactivated" 401 "ACCOUNT_DEACTIVATED");;
      isPasswordValid ← verifyPassword env password (u_password_hash (fst user));
      throw_if (negb isPasswordValid) INVALID_CREDENTIALS;;
      execute (touch_last_login (u_id (fst user)));;
      let token := generateAccessToken env (u_id (fst user)) in
      let refreshToken := generateRefreshToken env (u_id (fst user)) in
      mret (Send (ok_json "Login successful"
                    (LoginData
                       (formatUserResponse
                          (<["id" := Js.Str (u_id (fst user))]>
                             (<["email" := Js.Str (u_email (fst user))]>
                                (<["name" := Js.Str (p_name (snd user))]>
                                   (<["role" := Js.Str (p_role (snd user))]> ∅)))))
                       token refreshToken)))
  end.

Definition login_route (env : Env) : list Middleware :=
  [validateLogin env; login_handler env].

(* ===================================================================== *)
(** ** routes/userRoutes *)
(* ===================================================================== *)



Definition newer_first (a b : UserRow * ProfileRow) : Prop :=
  p_created_at (snd b) <= p_created_at (snd a).

#[global] Instance newer_first_dec a b : Decision (newer_first a b).
Proof. unfold newer_first. apply _. Defined.





Definition USER_NOT_FOUND_404 : Exn := AppError "User not found" 404 "USER_NOT_FOUND".

(** [UPDATE profiles SET status = 0 WHERE id = ?] *)
Definition deactivate_profile (id : string) (d : Database) : Database :=
  mkDb (users d)
       (map (fun p => if String.eqb (p_id p) id
                      then mkProfile (p_id p) (p_name p) (p_email p) (p_phone p) (p_role p)
                             false (p_last_login p) (p_created_at p)
                      else p) (profiles d))
       (categories d) (subcategories d) (transactions d).

(** [req.user.id]; reading it without [req.user] is a TypeError. *)
Definition req_user_id (req : Request) : M string :=
  match req_user req with
  | Some u => mret (id_id u)
  | None => throw (mkExn "TypeError" "Cannot read properties of undefined" None None [])
  end.

Definition deactivate_user_handler : Middleware := fun req =>
  let id := req_param req in
  existingUsers ← select (fun d => filter (fun p => String.eqb (p_id p) id) (profiles d));
  throw_if (length existingUsers =? 0)%nat USER_NOT_FOUND_404;;
  me ← req_user_id req;
  throw_if (String.eqb id me)
    (AppError "Cannot deactivate your own account" 400 "CANNOT_DEACTIVATE_SELF");;
  execute (fun _ => deactivate_profile id);;
  mret (Send (ok_json "User deactivated successfully" NoData)).

(** [DELETE FROM profiles WHERE id = ?] *)
Definition delete_profile (id : string) (d : Database) : Database :=
  mkDb (users d) (filter (fun p => negb (String.eqb (p_id p) id)) (profiles d))
       (categories d) (subcategories d) (transactions d).

(** [DELETE FROM users WHERE email = ?] *)
Definition delete_user_by_email (email : string) (d : Database) : Database :=
  mkDb (filter (fun u => negb (String.eqb (u_email u) email)) (users d)) (profiles d)
       (categories d) (subcategories d) (transactions d).

(** The statements [START TRANSACTION], [COMMIT] and [ROLLBACK] leave the
    in-memory tables as they are. *)
Definition transaction_control : M unit := execute (fun _ d => d).

Definition delete_user_handler : Middleware := fun req =>
  let id := req_param req in
  existingUsers ← select (fun d => filter (fun p => String.eqb (p_id p) id) (profiles d));
  match existingUsers with
  | [] => throw USER_NOT_FOUND_404
  | existing :: _ =>
      me ← req_user_id req;
      throw_if (String.eqb id me)
        (AppError "Cannot delete your own account" 400 "CANNOT_DELETE_SELF");;
      let userEmail := p_email existing in
      transaction_control;;
      try_catch
        (execute (fun _ => delete_profile id);;
         execute (fun _ => delete_user_by_email userEmail);;
         transaction_control;;
         mret (Send (ok_json "User permanently deleted successfully" NoData)))
        (fun error => transaction_control;; throw error)
  end.




Definition deactivate_user_route (env : Env) : list Middleware :=
  [verifyToken env; requireAdmin; validateUUID env; deactivate_user_handler].
Definition delete_user_route (env : Env) : list Middleware :=
  [verifyToken env; requireAdmin; validateUUID env; delete_user_handler].


(* ===================================================================== *)
(** ** routes/categoryRoutes and routes/subcategoryRoutes: deletion *)
(* ===================================================================== *)

(** [DELETE FROM categories WHERE id = ?] *)
Definition delete_category_row (id : string) (d : Database) : Database :=
  mkDb (users d) (profiles d)
       (filter (fun c => negb (String.eqb (c_id c) id)) (categories d))
       (subcategories d) (transactions d).

(** [DELETE FROM subcategories WHERE id = ?] *)
Definition delete_subcategory_row (id : string) (d : Database) : Database :=
  mkDb (users d) (profiles d) (categories d)
       (filter (fun s => negb (String.eqb (s_id s) id)) (subcategories d))
       (transactions d).

(** [SELECT COUNT( * ) FROM subcategories WHERE category_id = ?] *)
Definition count_subcategories_of (id : string) (d : Database) : nat :=
  length (filter (fun s => String.eqb (s_category_id s) id) (subcategories d)).

(** [SELECT COUNT( * ) FROM transactions WHERE category_id = ?] *)
Definition count_transactions_of_category (id : string) (d : Database) : nat :=
  length (filter (fun t => Js.value_eqb (t_category_id t) (Js.Str id)) (transactions d)).

(** [SELECT COUNT( * ) FROM transactions WHERE subcategory_id = ?] *)
Definition count_transactions_of_subcategory (id : string) (d : Database) : nat :=
  length (filter (fun t => Js.value_eqb (t_subcategory_id t) (Js.Str id)) (transactions d)).

Definition delete_category_handler : Middleware := fun req =>
  let id := req_param req in
  existingCategories ← select (fun d => filter (fun c => String.eqb (c_id c) id) (categories d));
  throw_if (length existingCategories =? 0)%nat
    (AppError "Category not found" 404 "CATEGORY_NOT_FOUND");;
  subcategories ← select (count_subcategories_of id);
  throw_if (0 <? subcategories)%nat
    (AppError "Cannot delete category with subcategories" 400 "CATEGORY_HAS_SUBCATEGORIES");;
  transactions ← select (count_transactions_of_category id);
  throw_if (0 <? transactions)%nat
    (AppError "Cannot delete category used in transactions" 400 "CATEGORY_IN_USE");;
  execute (fun _ => delete_category_row id);;
  mret (Send (ok_json "Category deleted successfully" NoData)).

Definition delete_subcategory_handler : Middleware := fun req =>
  let id := req_param req in
  existingSubcategories ← select (fun d => filter (fun s => String.eqb (s_id s) id)
                                             (subcategories d));
  throw_if (length existingSubcategories =? 0)%nat
    (AppError "Subcategory not found" 404 "SUBCATEGORY_NOT_FOUND");;
  transactions ← select (count_transactions_of_subcategory id);
  throw_if (0 <? transactions)%nat
    (AppError "Cannot delete subcategory used in transactions" 400 "SUBCATEGORY_IN_USE");;
  execute (fun _ => delete_subcategory_row id);;
  mret (Send (ok_json "Subcategory deleted successfully" NoData)).

Definition delete_category_route (env : Env) : list Middleware :=
  [verifyToken env; requireAdminOrManager; validateUUID env; delete_category_handler].
Definition delete_subcategory_route (env : Env) : list Middleware :=
  [verifyToken env; requireAdminOrManager; validateUUID env; delete_subcategory_handler].

(* ===================================================================== *)
(** ** routes/transactionRoutes: update, file removal, deletion *)
(* ===================================================================== *)

(** [v || null] *)
Definition or_null (v : Js.value) : Js.value := if Js.truthy v then v else Js.Null.

(** A value as a VARCHAR column keeps it. *)
Definition sql_varchar (v : Js.value) : option string :=
  match v with
  | Js.Undefined | Js.Null => None
  | Js.Bool b => Some (if b then "1" else "0")
  | Js.Num z => Some (Js.toString (Some z))
  | Js.Str s => Some s
  end.

(** A [receipt_url] read back: truthy when not NULL and not empty. *)
Definition url_truthy (u : option string) : bool :=
  match u with
  | Some s => negb (String.eqb s "")
  | None => false
  end.

(** [url.split('/').pop()], [path.join(__dirname, '../../uploads', name)],
    then [if (fs.existsSync(p)) { fs.unlinkSync(p); console.log(...) }] *)
Definition delete_receipt_file (env : Env) (url logPrefix : string) : M unit :=
  let filename := Js.pop (Js.split "/" url) in
  let filePath := Path.join [dirname env; "../../uploads"; filename] in
  present ← fs_existsSync filePath;
  if (present : bool) then (fs_unlink filePath;; console_log (logPrefix +:+ filename))
  else mret tt.

Definition select_transaction (id : string) (d : Database) : list TransactionRow :=
  filter (fun t => String.eqb (t_id t) id) (transactions d).

(** [UPDATE transactions SET amount = ?, ..., receipt_url = ?,
     updated_at = NOW() WHERE id = ?] *)
Definition update_transaction_row (id : string)
    (amount type description date category_id subcategory_id : Js.value)
    (receipt_url : option string) (now : Z) (d : Database) : Database :=
  mkDb (users d) (profiles d) (categories d) (subcategories d)
       (map (fun t => if String.eqb (t_id t) id
                      then mkTransaction (t_id t) amount type description date category_id
                             subcategory_id receipt_url (t_created_by t) now
                      else t) (transactions d)).

(** [UPDATE transactions SET receipt_url = NULL, updated_at = NOW() WHERE id = ?] *)
Definition clear_receipt_url (id : string) (now : Z) (d : Database) : Database :=
  mkDb (users d) (profiles d) (categories d) (subcategories d)
       (map (fun t => if String.eqb (t_id t) id
                      then mkTransaction (t_id t) (t_amount t) (t_type t) (t_description t)
                             (t_date t) (t_category_id t) (t_subcategory_id t) None
                             (t_created_by t) now
                      else t) (transactions d)).

(** [DELETE FROM transactions WHERE id = ?] *)
Definition delete_transaction_row (id : string) (d : Database) : Database :=
  mkDb (users d) (profiles d) (categories d) (subcategories d)
       (filter (fun t => negb (String.eqb (t_id t) id)) (transactions d)).

Definition TRANSACTION_NOT_FOUND : Exn := AppError "Transaction not found" 404 "TRANSACTION_NOT_FOUND".

(** The category and subcategory checks shared by creation and update. *)
Definition check_category_refs (category_id subcategory_id : Js.value) : M unit :=
  (if Js.truthy category_id then
     categories ← select (fun d => filter (fun c => Js.value_eqb (Js.Str (c_id c)) category_id)
                                     (categories d));
     throw_if (length categories =? 0)%nat
       (AppError "Category not found" 404 "CATEGORY_NOT_FOUND")
   else mret tt);;
  (if Js.truthy subcategory_id then
     subcategories ← select (fun d =>
       filter (fun s => Js.value_eqb (Js.Str (s_id s)) subcategory_id
                        && (if Js.truthy category_id
                            then Js.value_eqb (Js.Str (s_category_id s)) category_id
                            else true))
              (subcategories d));
     throw_if (length subcategories =? 0)%nat
       (AppError "Subcategory not found or does not belong to the specified category" 404
          "SUBCATEGORY_NOT_FOUND")
   else mret tt).

Definition update_transaction_handler (env : Env) : Middleware := fun req =>
  let id := req_param req in
  let amount := body_get req "amount" in
  let type := body_get req "type" in
  let description := body_get req "description" in
  let date := body_get req "date" in
  let category_id := body_get req "category_id" in
  let subcategory_id := body_get req "subcategory_id" in
  let comprovativo_url := body_get req "comprovativo_url" in
  existingTransactions ← select (select_transaction id);
  match existingTransactions with
  | [] => throw TRANSACTION_NOT_FOUND
  | currentTransaction :: _ =>
      let stored := t_receipt_url currentTransaction in
      check_category_refs category_id subcategory_id;;
      (* file replacement: delete the old file if a new one is provided *)
      (if Js.truthy comprovativo_url && url_truthy stored
          && negb (Js.value_eqb comprovativo_url (Js.Str (default "" stored)))
       then try_catch
              (delete_receipt_file env (default "" stored) "Deleted old receipt file: ")
              (fun fileError => console_log "Error deleting old receipt file:")
       else mret tt);;
      (* file removal: comprovativo_url explicitly null or empty *)
      (if (is_null comprovativo_url || is_empty_string comprovativo_url) && url_truthy stored
       then try_catch
              (delete_receipt_file env (default "" stored) "Deleted receipt file: ")
              (fun fileError => console_log "Error deleting receipt file:")
       else mret tt);;
      execute (update_transaction_row id amount type description date
                 (or_null category_id) (or_null subcategory_id)
                 (sql_varchar (or_null comprovativo_url)));;
      updatedTransaction ← select (select_transaction id);
      mret (Send (ok_json "Transaction updated successfully"
                    (TransactionData (head updatedTransaction))))
  end.

Definition remove_transaction_file_handler (env : Env) : Middleware := fun req =>
  let id := req_param req in
  existingTransactions ← select (select_transaction id);
  match existingTransactions with
  | [] => throw TRANSACTION_NOT_FOUND
  | transaction :: _ =>
      throw_if (negb (url_truthy (t_receipt_url transaction)))
        (AppError "Transaction has no attached file" 400 "NO_FILE_ATTACHED");;
      try_catch
        (delete_receipt_file env (default "" (t_receipt_url transaction))
           "Deleted receipt file: ")
        (fun fileError =>
           console_log "Error deleting receipt file:";;
           throw (AppError "Failed to delete file" 500 "FILE_DELETE_ERROR"));;
      execute (clear_receipt_url id);;
      mret (Send (ok_json "File removed successfully" NoData))
  end.

Definition delete_transaction_handler (env : Env) : Middleware := fun req =>
  let id := req_param req in
  existingTransactions ← select (select_transaction id);
  match existingTransactions with
  | [] => throw TRANSACTION_NOT_FOUND
  | transaction :: _ =>
      (if url_truthy (t_receipt_url transaction)
       then try_catch
              (delete_receipt_file env (default "" (t_receipt_url transaction))
                 "Deleted receipt file: ")
              (fun fileError => console_log "Error deleting receipt file:")
       else mret tt);;
      execute (fun _ => delete_transaction_row id);;
      mret (Send (ok_json "Transaction and associated receipt deleted successfully" NoData))
  end.

Definition update_transaction_route (env : Env) : list Middleware :=
  [verifyToken env; requireAdminOrManager; validateTransactionId; validateTransaction env;
   update_transaction_handler env].
Definition remove_transaction_file_route (env : Env) : list Middleware :=
  [verifyToken env; requireAdminOrManager; validateTransactionId;
   remove_transaction_file_handler env].
Definition delete_transaction_route (env : Env) : list Middleware :=
  [verifyToken env; requireAdminOrManager; validateTransactionId;
   delete_transaction_handler env].

(* ===================================================================== *)
(** ** routes/fileRoutes: delete, info, view *)
(* ===================================================================== *)

(** [process.env.UPLOAD_DIR || 'uploads'] *)
Definition upload_dir (env : Env) : string :=
  match UPLOAD_DIR env with
  | Some s => if String.eqb s "" then "uploads" else s
  | None => "uploads"
  end.

(** [!filename || filename.includes('..') || filename.includes('/')
     || filename.includes('\\')] *)
Definition invalid_filename (filename : string) : bool :=
  String.eqb filename "" || Js.includes filename ".." || Js.includes filename "/"
  || Js.includes filename "\".

Definition INVALID_FILENAME : Exn := AppError "Invalid filename" 400 "INVALID_FILENAME".

(** [catch (error) { if (error.code === 'ENOENT') throw 404; throw error }] *)
Definition not_found_on_enoent {A} (error : Exn) : M A :=
  if code_is error "ENOENT" then throw (AppError "File not found" 404 "FILE_NOT_FOUND")
  else throw error.

Definition delete_file_handler (env : Env) : Middleware := fun req =>
  let filename := req_param req in
  throw_if (invalid_filename filename) INVALID_FILENAME;;
  let filePath := Path.join [upload_dir env; filename] in
  try_catch
    (fs_access filePath;;
     fs_unlink filePath;;
     mret (Send (ok_json "File deleted successfully" NoData)))
    not_found_on_enoent.

Definition file_info_handler (env : Env) : Middleware := fun req =>
  let filename := req_param req in
  throw_if (invalid_filename filename) INVALID_FILENAME;;
  let filePath := Path.join [upload_dir env; filename] in
  try_catch
    (stats ← fs_stat filePath;
     mret (Send (mkRes 200 true "" None
                   (FileInfoData (mkFileInfo filename (f_size stats)
                                    ("/uploads/" +:+ filename))))))
    not_found_on_enoent.

Fixpoint last_dot_suffix (s : string) : option string :=
  match s with
  | EmptyString => None
  | String c s' =>
      match last_dot_suffix s' with
      | Some e => Some e
      | None => if Ascii.eqb c "." then Some s else None
      end
  end.

(** [path.extname] of a name: from its last dot, unless that dot starts the
    name; nothing for [..]. *)
Definition extname (p : string) : string :=
  let base := Js.pop (Js.split "/" p) in
  if String.eqb base ".." then ""
  else match base with
       | String _ rest => default "" (last_dot_suffix rest)
       | EmptyString => ""
       end.

Definition lower_char (c : ascii) : ascii :=
  let n := nat_of_ascii c in
  if (65 <=? n)%nat && (n <=? 90)%nat then ascii_of_nat (n + 32) else c.

Fixpoint toLowerCase (s : string) : string :=
  match s with
  | EmptyString => EmptyString
  | String c s' => String (lower_char c) (toLowerCase s')
  end.

Definition content_type_of (ext : string) : string :=
  if String.eqb ext ".pdf" then "application/pdf"
  else if String.eqb ext ".jpg" || String.eqb ext ".jpeg" then "image/jpeg"
  else if String.eqb ext ".png" then "image/png"
  else if String.eqb ext ".gif" then "image/gif"
  else "application/octet-stream".

(** [require('fs').createReadStream(filePath).pipe(res)] *)
Definition fs_createReadStream (path : string) : M unit :=
  fun w => (inr tt, add_fs_call (FsRead path) w).

Definition view_file_handler (env : Env) : Middleware := fun req =>
  let filename := req_param req in
  throw_if (invalid_filename filename) INVALID_FILENAME;;
  let filePath := Path.join [upload_dir env; filename] in
  try_catch
    (fs_access filePath;;
     stats ← fs_stat filePath;
     let ext := toLowerCase (extname filename) in
     let contentType := content_type_of ext in
     fs_createReadStream filePath;;
     mret (Send (mkRes 200 true "" None (FileStream filePath contentType (f_size stats)))))
    not_found_on_enoent.

(** [router.use(verifyToken)] comes first on every file route. *)
Definition delete_file_route (env : Env) : list Middleware :=
  [verifyToken env; requireAdminOrManager; delete_file_handler env].
Definition file_info_route (env : Env) : list Middleware :=
  [verifyToken env; requireAdminOrManager; file_info_handler env].
Definition view_file_route (env : Env) : list Middleware :=
  [verifyToken env; view_file_handler env].

(* ===================================================================== *)
(** ** Vocabulary of the statements *)
(* ===================================================================== *)

Definition txn_ids (w : World) : list string :=
  filter (fun id => Js.startsWith id "txn-") (map t_id (transactions (w_db w))).

(** An id of the documented form [txn-<digits>] whose number JavaScript
    holds exactly. *)
Definition well_formed_txn_id (id : string) : Prop :=
  matches_txn_id id = true /\ txn_suffix_number id < Js.MAX_SAFE_INTEGER.

(** [m] is the greatest numeric suffix among [ids]. *)
Definition max_suffix (ids : list string) (m : Z) : Prop :=
  (exists id, In id ids /\ txn_suffix_number id = m) /\
  (forall id, In id ids -> txn_suffix_number id <= m).


Definition defined_entries (updates : entries) : entries :=
  filter (fun e => negb (is_undefined (snd e))) updates.

(** A filter value that [buildSearchQuery] passes over. *)
Definition skipped_value (v : Js.value) : bool :=
  is_undefined v || is_null v || is_empty_string v.

Definition kept_filters (filters : entries) : entries :=
  filter (fun e => negb (skipped_value (snd e))) filters.

(** The predicate and the parameter the code derives from one kept filter:
    the markers are looked for anywhere in the key, in this order, and the
    first occurrence of the marker found is what is removed. *)
Definition predicate_of (e : string * Js.value) : string * Js.value :=
  let '(key, value) := e in
  if Js.includes key "_like" then
    (Js.replace key "_like" "" +:+ " LIKE ?", Js.Str ("%" +:+ Js.to_template value +:+ "%"))
  else if Js.includes key "_date_from" then
    (Js.replace key "_date_from" "" +:+ " >= ?", value)
  else if Js.includes key "_date_to" then
    (Js.replace key "_date_to" "" +:+ " <= ?", value)
  else (key +:+ " = ?", value).

(** [m] occurs in [key] at its end and nowhere before. *)
Definition only_suffix (key m : string) : Prop :=
  exists column, key = column +:+ m /\
    forall i, (i < String.length column)%nat ->
              String.prefix m (Js.substring_from i key) = false.

(** [String.prototype.endsWith] and the removal of a suffix, for the claim
    as the specification words it. *)
Definition endsWith (s m : string) : bool :=
  (String.length m <=? String.length s)%nat
  && String.eqb (Js.substring_from (String.length s - String.length m) s) m.

Definition strip_suffix (s m : string) : string :=
  String.substring 0 (String.length s - String.length m) s.

(** The predicate of one kept filter as the specification words it: by the
    suffix of the key. *)
Definition predicate_by_suffix (e : string * Js.value) : string * Js.value :=
  let '(key, value) := e in
  if endsWith key "_like" then
    (strip_suffix key "_like" +:+ " LIKE ?", Js.Str ("%" +:+ Js.to_template value +:+ "%"))
  else if endsWith key "_date_from" then
    (strip_suffix key "_date_from" +:+ " >= ?", value)
  else if endsWith key "_date_to" then
    (strip_suffix key "_date_to" +:+ " <= ?", value)
  else (key +:+ " = ?", value).

(** The query assembled from the predicates of the kept filters. *)
Definition search_query_from (predicate : string * Js.value -> string * Js.value)
    (baseQuery : string) (filters : entries) (baseParams : list Js.value) : Query :=
  let preds := map predicate (kept_filters filters) in
  mkQuery
    (match preds with
     | [] => baseQuery
     | _ :: _ =>
         baseQuery +:+ (if Js.includes baseQuery "WHERE" then " AND " else " WHERE ")
           +:+ Js.join " AND " (map fst preds)
     end)
    (baseParams ++ map snd preds).

(** A key in which the marker the code finds first is present only as the
    suffix, or which holds no marker at all. *)
Definition clean_key (key : string) : Prop :=
  only_suffix key "_like"
  \/ (Js.includes key "_like" = false /\ only_suffix key "_date_from")
  \/ (Js.includes key "_like" = false /\ Js.includes key "_date_from" = false
      /\ only_suffix key "_date_to")
  \/ (Js.includes key "_like" = false /\ Js.includes key "_date_from" = false
      /\ Js.includes key "_date_to" = false).

(** The token of a [Bearer] header, if the header carries one. *)
Definition bearer_token (req : Request) : option string :=
  match req_authorization req with
  | None => None
  | Some h =>
      if String.eqb h "" || negb (Js.startsWith h "Bearer ") then None
      else if String.eqb (Js.substring_from 7 h) "" then None
      else Some (Js.substring_from 7 h)
  end.

(** The response the error handler sends for an [AppError]. *)
Definition rejection (status : Z) (code message : string) : Response :=
  mkRes status false message (Some code) NoData.

Definition admin_or_manager (u : Identity) : Prop :=
  id_role u = "administrador" \/ id_role u = "gerente".

(** The request went through [verifyToken] and was given the identity [u]. *)
Definition authenticated_as (env : Env) (req : Request) (w : World) (u : Identity) : Prop :=
  verifyToken env req w = (inr (Next (set_user u req)), w).


(** The request was answered with an error of the given status and code,
    and neither the tables nor the files changed. *)
Definition rejected_unchanged (result : Response * World) (w : World)
    (status : Z) (code : string) : Prop :=
  res_success (fst result) = false /\ res_status (fst result) = status
  /\ res_code (fst result) = Some code
  /\ w_db (snd result) = w_db w /\ w_fs (snd result) = w_fs w.



#[global] Instance newer_first_total : Total newer_first.
Proof. intros a b. unfold newer_first. lia. Qed.

#[global] Instance newer_first_trans : Transitive newer_first.
Proof. intros a b c. unfold newer_first. lia. Qed.

(** The segments of a path after normalization. *)
Definition path_segments (p : string) : list string :=
  Path.normalize_segments (negb (Js.startsWith p "/")) (Js.split "/" p) [].

(** The path the file handlers work on. *)
Definition upload_path (env : Env) (filename : string) : string :=
  Path.join [upload_dir env; filename].

(** The file-system calls a run added are all on the upload path of the
    file name of the request, there is none when the name is invalid, and
    no other file changed. *)
Definition fs_calls_confined (env : Env) (req : Request) (w w' : World) : Prop :=
  exists new, w_fs_calls w' = w_fs_calls w ++ new
              /\ Forall (fun c => fs_call_path c = upload_path env (req_param req)) new
              /\ (invalid_filename (req_param req) = true -> new = [] /\ w_fs w' = w_fs w)
              /\ (forall p, p <> upload_path env (req_param req) ->
                             w_fs w' !! p = w_fs w !! p).

(** A guard: it throws or passes the request on, same parameter, same world. *)
Definition quiet_guard (mw : Middleware) : Prop :=
  forall req w,
    (exists e, mw req w = (inl e, w))
    \/ (exists req', mw req w = (inr (Next req'), w) /\ req_param req' = req_param req).

(** Where the transaction handlers look for the file of a receipt URL. *)
Definition receipt_path (env : Env) (url : string) : string :=
  Path.join [dirname env; "../../uploads"; Js.pop (Js.split "/" url)].

Definition file_deletable (w : World) (path : string) : Prop :=
  exists f, w_fs w !! path = Some f /\ f_removable f = true.
Definition file_undeletable (w : World) (path : string) : Prop :=
  exists f, w_fs w !! path = Some f /\ f_removable f = false.

(** The world after a clean-up whose failure is caught and logged. *)
Definition after_cleanup (env : Env) (url okPrefix errLine : string) (w : World) : World :=
  let path := receipt_path env url in
  let probed := add_fs_call (FsExists path) w in
  match w_fs w !! path with
  | None => probed
  | Some f =>
      if f_removable f
      then add_console (okPrefix +:+ Js.pop (Js.split "/" url))
             (set_fs (delete path (w_fs w)) (add_fs_call (FsUnlink path) probed))
      else add_console errLine (add_fs_call (FsUnlink path) probed)
  end.

(** The receipt URL of the request replaces the stored one with another, or
    removes it explicitly. *)
Definition replaces_url (new : Js.value) (url : string) : Prop :=
  Js.truthy new = true /\ new <> Js.Str url.
Definition removes_url (new : Js.value) : Prop :=
  new = Js.Null \/ new = Js.Str "".

(** The transaction row an update writes. *)
Definition updated_transactions (req : Request) (w : World) : Database :=
  update_transaction_row (req_param req)
    (body_get req "amount") (body_get req "type") (body_get req "description")
    (body_get req "date") (or_null (body_get req "category_id"))
    (or_null (body_get req "subcategory_id"))
    (sql_varchar (or_null (body_get req "comprovativo_url"))) (w_now w) (w_db w).

Definition category_refs_ok (req : Request) (w : World) : Prop :=
  check_category_refs (body_get req "category_id") (body_get req "subcategory_id") w
  = (inr tt, w).

(** ** A concrete installation, for the examples *)

(** The shape validator.js accepts as a UUID: 8-4-4-4-12 hexadecimal digits. *)
Fixpoint uuid_chars (i : nat) (l : list ascii) : bool :=
  match l with
  | [] => (i =? 36)%nat
  | c :: l' =>
      (if (i =? 8)%nat || (i =? 13)%nat || (i =? 18)%nat || (i =? 23)%nat
       then Ascii.eqb c "-"
       else match Js.hex_value c with Some _ => true | None => false end)
      && uuid_chars (S i) l'
  end.

Definition uuid_shape (s : string) : bool := uuid_chars 0 (list_ascii_of_string s).

Definition admin_id : string := "11111111-1111-4111-8111-111111111111".
Definition manager_id : string := "22222222-2222-4222-8222-222222222222".
Definition groceries_id : string := "aaaaaaaa-aaaa-4aaa-8aaa-aaaaaaaaaaa1".
Definition travel_id : string := "aaaaaaaa-aaaa-4aaa-8aaa-aaaaaaaaaaa2".
Definition unused_id : string := "aaaaaaaa-aaaa-4aaa-8aaa-aaaaaaaaaaa3".
Definition fruit_id : string := "bbbbbbbb-bbbb-4bbb-8bbb-bbbbbbbbbbb1".
Definition bread_id : string := "bbbbbbbb-bbbb-4bbb-8bbb-bbbbbbbbbbb2".

Definition sample_env : Env :=
  {| jwt_verify := fun token =>
       if String.eqb token "admin-token" then inr (mkJwt admin_id "access")
       else if String.eqb token "manager-token" then inr (mkJwt manager_id "access")
       else if String.eqb token "ghost-token" then inr (mkJwt "nobody" "access")
       else if String.eqb token "old-token"
            then inl (mkExn "TokenExpiredError" "jwt expired" None None [])
            else inl (mkExn "JsonWebTokenError" "jwt malformed" None None []);
     jwt_sign := fun userId type => type +:+ ":" +:+ userId;
     bcrypt_compare := fun password hash => String.eqb ("bcrypt:" +:+ password) hash;
     bcrypt_hash := fun password => "bcrypt:" +:+ password;
     isUUID := uuid_shape;
     isEmail := fun s => Js.includes s "@";
     normalizeEmail := toLowerCase;
     isFloat_min_001 := fun s => negb (String.eqb s "") && negb (Js.startsWith s "-");
     isISO8601 := fun s => (String.length s =? 10)%nat;
     sql_like := fun text pattern => true;
     dirname := "/srv/app/src/routes";
     UPLOAD_DIR := None |}.


Definition sample_transaction (id : string) (category subcategory : Js.value)
    (receipt : option string) : TransactionRow :=
  mkTransaction id (Js.Str "12.50") (Js.Str "saida") (Js.Str "lunch") (Js.Str "2024-05-01")
    category subcategory receipt admin_id 0.

Definition sample_db : Database :=
  {| users := [mkUser admin_id "admin@example.org" "bcrypt:secret-admin";
               mkUser manager_id "manager@example.org" "bcrypt:secret-manager"];
     profiles := [mkProfile admin_id "Ana" "admin@example.org" None "administrador" true
                    None 100;
                  mkProfile manager_id "Marta" "manager@example.org" None "gerente" true
                    None 200];
     categories := [mkCategory groceries_id "Groceries" admin_id;
                    mkCategory travel_id "Travel" admin_id;
                    mkCategory unused_id "Unused" admin_id];
     subcategories := [mkSubcategory fruit_id "Fruit" groceries_id admin_id;
                       mkSubcategory bread_id "Bread" groceries_id admin_id];
     transactions := [sample_transaction "txn-007" (Js.Str travel_id) Js.Null
                        (Some "/uploads/old.pdf");
                      sample_transaction "txn-045" Js.Null (Js.Str fruit_id) None] |}.

Definition old_receipt_path : string := "/srv/app/uploads/old.pdf".

(** The stored receipt is on disk and can be removed. *)
Definition sample_world : World :=
  mkWorld sample_db (<[old_receipt_path := mkFile 2048 true]> ∅) [] [] 1000.

(** The stored receipt is on disk and cannot be removed. *)
Definition locked_world : World :=
  mkWorld sample_db (<[old_receipt_path := mkFile 2048 false]> ∅) [] [] 1000.

Definition request_as (token param : string) (body : gmap string Js.value) : Request :=
  mkReq (Some ("Bearer " +:+ token)) param ∅ body None.





(** An update of txn-007 that leaves [comprovativo_url] out. *)
Definition update_without_receipt : Request :=
  request_as "manager-token" "txn-007"
    (<["amount" := Js.Str "12.50"]>
       (<["type" := Js.Str "saida"]>
          (<["description" := Js.Str "lunch"]>
             (<["date" := Js.Str "2024-05-01"]> ∅)))).

(** An update of txn-007 that names another receipt. *)
Definition update_with_new_receipt : Request :=
  request_as "manager-token" "txn-007"
    (<["comprovativo_url" := Js.Str "/uploads/new.pdf"]> (req_body update_without_receipt)).

(** C7 as the specification words it for the update: whenever the stored
    URL is changed or cleared by the update and the old file can be
    deleted, the old file is gone afterwards. *)
Definition update_cleanup_as_stated (env : Env) (req : Request) (w : World) : Prop :=
  forall t rest url res w',
    select_transaction (req_param req) (w_db w) = t :: rest ->
    t_receipt_url t = Some url -> url <> "" ->
    sql_varchar (or_null (body_get req "comprovativo_url")) <> Some url ->
    file_deletable w (receipt_path env url) ->
    serve [update_transaction_handler env] req w = (res, w') ->
    w_fs w' !! receipt_path env url = None.


Definition manager_identity : Identity :=
  mkIdentity manager_id "manager@example.org" "Marta" "gerente".


Definition stored_txn_007 : TransactionRow :=
  sample_transaction "txn-007" (Js.Str travel_id) Js.Null (Some "/uploads/old.pdf").


(* ===================================================================== *)
(** ** middleware/errorMiddleware: unknown routes *)
(* ===================================================================== *)

(** [notFound]: [new AppError(`Not found - ${req.originalUrl}`, 404)], the
    code left at its default [null]. *)
Definition notFound (originalUrl : string) : Exn :=
  mkExn "Error" ("Not found - " +:+ originalUrl) (Some 404) None [].

(** The codes and names [errorHandler] replaces by an answer of its own. *)
Definition driver_codes : list string :=
  ["ER_DUP_ENTRY"; "ER_NO_REFERENCED_ROW_2"; "ER_PARSE_ERROR"; "LIMIT_FILE_SIZE";
   "LIMIT_UNEXPECTED_FILE"].

(** Occurrences of a character, and the [?] placeholders of a statement. *)
Fixpoint count_char (c : ascii) (s : string) : nat :=
  match s with
  | EmptyString => 0%nat
  | String d s' => ((if Ascii.eqb d c then 1 else 0) + count_char c s')%nat
  end.

Definition placeholders (s : string) : nat := count_char "?" s.

(** A statement that has as many placeholders as parameters. *)
Definition balanced (q : Query) : Prop := placeholders (query q) = length (params q).

(* ===================================================================== *)
(** ** Guards, and what a route lets through *)
(* ===================================================================== *)

(** Two requests that differ at most by [req.user]. *)
Definition same_but_user (req req' : Request) : Prop :=
  req_authorization req' = req_authorization req /\ req_param req' = req_param req
  /\ req_query req' = req_query req /\ req_body req' = req_body req.

(** A middleware that rejects or passes the request on, touching at most
    [req.user] and nothing of the world. *)
Definition auth_guard (mw : Middleware) : Prop :=
  forall req w,
    (exists e, mw req w = (inl e, w))
    \/ (exists req', mw req w = (inr (Next req'), w) /\ same_but_user req req').

(** ** The login request *)

(** The email as [validateLogin] hands it to the handler, and the request
    with it. *)
Definition login_email (env : Env) (req : Request) : Js.value :=
  Js.Str (normalizeEmail env (validator_string (body_get req "email"))).

Definition login_request (env : Env) (req : Request) : Request :=
  mkReq (req_authorization req) (req_param req) (req_query req)
    (<["email" := login_email env req]> (req_body req)) (req_user req).

(** What [validateLogin] lets through. *)
Definition login_valid (env : Env) (req : Request) : bool :=
  isEmail env (validator_string (body_get req "email"))
  && (6 <=? String.length (validator_string (body_get req "password")))%nat.

(** The rows a login with this request finds. *)
Definition login_rows (env : Env) (req : Request) (w : World) : list (UserRow * ProfileRow) :=
  select_user_by_email (login_email env req) (w_db w).

(** A profile after [touch_last_login]: the same but for [last_login]. *)
Definition touched (id : string) (now : Z) (p p' : ProfileRow) : Prop :=
  p_id p' = p_id p /\ p_name p' = p_name p /\ p_email p' = p_email p
  /\ p_phone p' = p_phone p /\ p_role p' = p_role p /\ p_status p' = p_status p
  /\ p_created_at p' = p_created_at p
  /\ p_last_login p' = (if String.eqb (p_id p) id then Some now else p_last_login p).


(** A token of the user [id]. *)
Definition token_of (env : Env) (req : Request) (id : string) : Prop :=
  exists token payload,
    bearer_token req = Some token /\ jwt_verify env token = inr payload
    /\ jwt_userId payload = id.

Definition USER_INACTIVE : Exn := AppError "User not found or inactive." 401 "USER_NOT_FOUND".

(** The sample requests of the login and of the administration. *)
Definition login_as (email password : string) : Request :=
  mkReq None "" ∅ (<["email" := Js.Str email]> (<["password" := Js.Str password]> ∅)) None.

Definition admin_on (id : string) (body : gmap string Js.value) : Request :=
  request_as "admin-token" id body.

(* ===================================================================== *)
(** ** routes/transactionRoutes: creation *)
(* ===================================================================== *)

(** [INSERT INTO transactions (id, amount, type, description, date,
     category_id, subcategory_id, receipt_url, created_by) VALUES (...)]; the
    timestamp column takes the time of the statement. *)
Definition insert_transaction_row (row : TransactionRow) (d : Database) : Database :=
  mkDb (users d) (profiles d) (categories d) (subcategories d) (transactions d ++ [row]).

Definition create_transaction_handler : Middleware := fun req =>
  let amount := body_get req "amount" in
  let type := body_get req "type" in
  let description := body_get req "description" in
  let date := body_get req "date" in
  let category_id := body_get req "category_id" in
  let subcategory_id := body_get req "subcategory_id" in
  let comprovativo_url := body_get req "comprovativo_url" in
  check_category_refs category_id subcategory_id;;
  transactionId ← generateNextTransactionId;
  me ← req_user_id req;
  execute (fun now =>
             insert_transaction_row
               (mkTransaction transactionId amount type description date
                  (or_null category_id) (or_null subcategory_id)
                  (sql_varchar (or_null comprovativo_url)) me now));;
  newTransaction ← select (select_transaction transactionId);
  mret (Send (mkRes 201 true "Transaction created successfully" None
                (TransactionData (head newTransaction)))).

Definition create_transaction_route (env : Env) : list Middleware :=
  [verifyToken env; requireAdminOrManager; validateTransaction env;
   create_transaction_handler].


(* ===================================================================== *)
(** ** Routes that answer with rows of their own *)
(* ===================================================================== *)

(** [res.status(s).json({ success, message, data })] with data of type [D];
    [rp_message] holds [message] on success and [error] on failure. *)
Record Reply (D : Type) : Type := mkReply {
  rp_status : Z;
  rp_success : bool;
  rp_message : string;
  rp_code : option string;
  rp_data : option D
}.
Arguments mkReply {D} _ _ _ _ _.
Arguments rp_status {D} _.
Arguments rp_success {D} _.
Arguments rp_message {D} _.
Arguments rp_code {D} _.
Arguments rp_data {D} _.

Definition Handler (D : Type) : Type := Request -> M (Reply D).

(** What the error handler, or a middleware, sent: it carries no row. *)
Definition refusal {D : Type} (res : Response) : Reply D :=
  mkReply (res_status res) (res_success res) (res_message res) (res_code res) None.

(** A request served by the guards of a route and its handler, then by the
    error handler if one of them threw. *)
Fixpoint answer {D : Type} (guards : list Middleware) (h : Handler D) (req : Request)
    (w : World) : Reply D * World :=
  match guards with
  | [] =>
      match h req w with
      | (inl e, w') => let (res, w'') := errorHandler e w' in (refusal res, w'')
      | (inr r, w') => (r, w')
      end
  | g :: rest =>
      match g req w with
      | (inl e, w') => let (res, w'') := errorHandler e w' in (refusal res, w'')
      | (inr (Next req'), w') => answer rest h req' w'
      | (inr (Send res), w') => (refusal res, w')
      end
  end.

(** A body value as a text column keeps it; the validated bodies hold a
    string where one is written. *)
Definition as_text (v : Js.value) : string := default "" (sql_varchar v).

(** [column = ?] on a text column under the collation of the table: the
    strings compare by their weights.  [weight] is the collation. *)
Definition text_eq (weight : string -> string) (column : string) (param : Js.value) : bool :=
  match param with
  | Js.Str s => String.eqb (weight column) (weight s)
  | _ => false
  end.

(* ===================================================================== *)
(** ** routes/categoryRoutes: creation and update *)
(* ===================================================================== *)

(** [SELECT c.id, c.name, p.name as created_by_name FROM categories c
     LEFT JOIN profiles p ON c.created_by = p.id] *)
Record CategoryView : Type := mkCategoryView {
  cv_id : string; cv_name : string; cv_created_by_name : option string
}.

Definition category_views (d : Database) (c : CategoryRow) : list CategoryView :=
  match filter (fun p => String.eqb (c_created_by c) (p_id p)) (profiles d) with
  | [] => [mkCategoryView (c_id c) (c_name c) None]
  | ps => map (fun p => mkCategoryView (c_id c) (c_name c) (Some (p_name p))) ps
  end.

(** [... WHERE c.id = ?] *)
Definition select_category_view (id : string) (d : Database) : list CategoryView :=
  flat_map (category_views d) (filter (fun c => String.eqb (c_id c) id) (categories d)).

(** [validateCategory]; the [trim()] rewrites [req.body.name]. *)
Definition validateCategory : Middleware := fun req =>
  let name := trim (validator_string (body_get req "name")) in
  let req' := mkReq (req_authorization req) (req_param req) (req_query req)
                (<["name" := Js.Str name]> (req_body req)) (req_user req) in
  handleValidationErrors
    (check (length_between name 2 100)
       "name" "Category name must be between 2 and 100 characters") req'.

(** [INSERT INTO categories (id, name, created_by) VALUES (?, ?, ?)] *)
Definition insert_category_row (row : CategoryRow) (d : Database) : Database :=
  mkDb (users d) (profiles d) (categories d ++ [row]) (subcategories d) (transactions d).

(** [UPDATE categories SET name = ?, updated_at = NOW() WHERE id = ?] *)
Definition rename_category (id name : string) (d : Database) : Database :=
  mkDb (users d) (profiles d)
       (map (fun c => if String.eqb (c_id c) id
                      then mkCategory (c_id c) name (c_created_by c) else c) (categories d))
       (subcategories d) (transactions d).

Definition CATEGORY_EXISTS : Exn := AppError "Category name already exists" 409 "CATEGORY_EXISTS".
Definition CATEGORY_NOT_FOUND : Exn := AppError "Category not found" 404 "CATEGORY_NOT_FOUND".

(** POST /api/categories; [uuid] is what [uuidv4()] returns. *)
Definition create_category_handler (weight : string -> string) (uuid : string)
    : Handler CategoryView := fun req =>
  let name := body_get req "name" in
  existingCategories ← select (fun d => filter (fun c => text_eq weight (c_name c) name)
                                          (categories d));
  throw_if (0 <? length existingCategories)%nat CATEGORY_EXISTS;;
  let categoryId := uuid in
  me ← req_user_id req;
  execute (fun _ => insert_category_row (mkCategory categoryId (as_text name) me));;
  newCategory ← select (select_category_view categoryId);
  mret (mkReply 201 true "Category created successfully" None (head newCategory)).

(** PUT /api/categories/:id *)
Definition update_category_handler (weight : string -> string) : Handler CategoryView :=
  fun req =>
  let id := req_param req in
  let name := body_get req "name" in
  existingCategories ← select (fun d => filter (fun c => String.eqb (c_id c) id)
                                          (categories d));
  throw_if (length existingCategories =? 0)%nat CATEGORY_NOT_FOUND;;
  duplicateCategories ← select (fun d =>
    filter (fun c => text_eq weight (c_name c) name && negb (String.eqb (c_id c) id))
           (categories d));
  throw_if (0 <? length duplicateCategories)%nat CATEGORY_EXISTS;;
  execute (fun _ => rename_category id (as_text name));;
  updatedCategory ← select (select_category_view id);
  mret (mkReply 200 true "Category updated successfully" None (head updatedCategory)).

Definition create_category_guards (env : Env) : list Middleware :=
  [verifyToken env; requireAdminOrManager; validateCategory].
Definition update_category_guards (env : Env) : list Middleware :=
  [verifyToken env; requireAdminOrManager; validateUUID env; validateCategory].

(* ===================================================================== *)
(** ** routes/subcategoryRoutes: creation and update *)
(* ===================================================================== *)

(** [SELECT s.id, s.name, s.category_id, c.name as category_name,
     p.name as created_by_name FROM subcategories s
     LEFT JOIN categories c ON s.category_id = c.id
     LEFT JOIN profiles p ON s.created_by = p.id] *)
Record SubcategoryView : Type := mkSubcategoryView {
  sv_id : string; sv_name : string; sv_category_id : string;
  sv_category_name : option string; sv_created_by_name : option string
}.

(** The right-hand side of a LEFT JOIN: the matching values, or one NULL. *)
Definition left_join {A B} (matching : A -> bool) (column : A -> B) (rows : list A)
    : list (option B) :=
  match filter matching rows with
  | [] => [None]
  | found => map (fun r => Some (column r)) found
  end.

Definition subcategory_views (d : Database) (s : SubcategoryRow) : list SubcategoryView :=
  flat_map (fun category_name =>
              map (fun created_by_name =>
                     mkSubcategoryView (s_id s) (s_name s) (s_category_id s)
                       category_name created_by_name)
                  (left_join (fun p => String.eqb (s_created_by s) (p_id p)) p_name
                     (profiles d)))
           (left_join (fun c => String.eqb (s_category_id s) (c_id c)) c_name (categories d)).

Definition select_subcategory_view (id : string) (d : Database) : list SubcategoryView :=
  flat_map (subcategory_views d)
           (filter (fun s => String.eqb (s_id s) id) (subcategories d)).

(** [validateSubcategory]; the [trim()] rewrites [req.body.name]. *)
Definition validateSubcategory (env : Env) : Middleware := fun req =>
  let name := trim (validator_string (body_get req "name")) in
  let req' := mkReq (req_authorization req) (req_param req) (req_query req)
                (<["name" := Js.Str name]> (req_body req)) (req_user req) in
  handleValidationErrors
    (check (length_between name 2 100)
       "name" "Subcategory name must be between 2 and 100 characters"
     ++ check (isUUID env (validator_string (body_get req "category_id")))
       "category_id" "Invalid category ID format") req'.

(** [INSERT INTO subcategories (id, name, category_id, created_by)
     VALUES (?, ?, ?, ?)] *)
Definition insert_subcategory_row (row : SubcategoryRow) (d : Database) : Database :=
  mkDb (users d) (profiles d) (categories d) (subcategories d ++ [row]) (transactions d).

(** [UPDATE subcategories SET name = ?, category_id = ?, updated_at = NOW()
     WHERE id = ?] *)
Definition update_subcategory_row (id name category_id : string) (d : Database) : Database :=
  mkDb (users d) (profiles d) (categories d)
       (map (fun s => if String.eqb (s_id s) id
                      then mkSubcategory (s_id s) name category_id (s_created_by s) else s)
            (subcategories d))
       (transactions d).

Definition SUBCATEGORY_EXISTS : Exn :=
  AppError "Subcategory name already exists in this category" 409 "SUBCATEGORY_EXISTS".
Definition SUBCATEGORY_NOT_FOUND : Exn :=
  AppError "Subcategory not found" 404 "SUBCATEGORY_NOT_FOUND".

(** [SELECT id FROM categories WHERE id = ?] with a value of the body *)
Definition select_category_of (category_id : Js.value) (d : Database) : list CategoryRow :=
  filter (fun c => Js.value_eqb (Js.Str (c_id c)) category_id) (categories d).

(** POST /api/subcategories; [uuid] is what [uuidv4()] returns. *)
Definition create_subcategory_handler (weight : string -> string) (uuid : string)
    : Handler SubcategoryView := fun req =>
  let name := body_get req "name" in
  let category_id := body_get req "category_id" in
  categories ← select (select_category_of category_id);
  throw_if (length categories =? 0)%nat CATEGORY_NOT_FOUND;;
  existingSubcategories ← select (fun d =>
    filter (fun s => text_eq weight (s_name s) name
                     && Js.value_eqb (Js.Str (s_category_id s)) category_id)
           (subcategories d));
  throw_if (0 <? length existingSubcategories)%nat SUBCATEGORY_EXISTS;;
  let subcategoryId := uuid in
  me ← req_user_id req;
  execute (fun _ => insert_subcategory_row
                      (mkSubcategory subcategoryId (as_text name) (as_text category_id) me));;
  newSubcategory ← select (select_subcategory_view subcategoryId);
  mret (mkReply 201 true "Subcategory created successfully" None (head newSubcategory)).

(** PUT /api/subcategories/:id *)
Definition update_subcategory_handler (weight : string -> string)
    : Handler SubcategoryView := fun req =>
  let id := req_param req in
  let name := body_get req "name" in
  let category_id := body_get req "category_id" in
  existingSubcategories ← select (fun d => filter (fun s => String.eqb (s_id s) id)
                                             (subcategories d));
  throw_if (length existingSubcategories =? 0)%nat SUBCATEGORY_NOT_FOUND;;
  categories ← select (select_category_of category_id);
  throw_if (length categories =? 0)%nat CATEGORY_NOT_FOUND;;
  duplicateSubcategories ← select (fun d =>
    filter (fun s => text_eq weight (s_name s) name
                     && Js.value_eqb (Js.Str (s_category_id s)) category_id
                     && negb (String.eqb (s_id s) id))
           (subcategories d));
  throw_if (0 <? length duplicateSubcategories)%nat SUBCATEGORY_EXISTS;;
  execute (fun _ => update_subcategory_row id (as_text name) (as_text category_id));;
  updatedSubcategory ← select (select_subcategory_view id);
  mret (mkReply 200 true "Subcategory updated successfully" None (head updatedSubcategory)).

Definition create_subcategory_guards (env : Env) : list Middleware :=
  [verifyToken env; requireAdminOrManager; validateSubcategory env].
Definition update_subcategory_guards (env : Env) : list Middleware :=
  [verifyToken env; requireAdminOrManager; validateUUID env; validateSubcategory env].

(* ===================================================================== *)
(** ** The references between the tables *)
(* ===================================================================== *)

(** A reference column of a transaction: NULL, or the id of a row. *)
Definition names_category (d : Database) (v : Js.value) : Prop :=
  v = Js.Null \/ exists c, In c (categories d) /\ v = Js.Str (c_id c).
Definition names_subcategory (d : Database) (v : Js.value) : Prop :=
  v = Js.Null \/ exists s, In s (subcategories d) /\ v = Js.Str (s_id s).

(** Every subcategory belongs to a category of the table, and every
    transaction names a category and a subcategory of the tables or none. *)
Definition references_intact (d : Database) : Prop :=
  (forall s, In s (subcategories d) -> exists c, In c (categories d) /\ s_category_id s = c_id c)
  /\ (forall t, In t (transactions d) ->
        names_category d (t_category_id t) /\ names_subcategory d (t_subcategory_id t)).

(** One request to one of the routes that write to the categories, the
    subcategories or the transactions. *)
Inductive catalogue_step (env : Env) (weight : string -> string) : World -> World -> Prop :=
| step_create_category req uuid w :
    catalogue_step env weight w
      (snd (answer (create_category_guards env) (create_category_handler weight uuid) req w))
| step_update_category req w :
    catalogue_step env weight w
      (snd (answer (update_category_guards env) (update_category_handler weight) req w))
| step_delete_category req w :
    catalogue_step env weight w (snd (serve (delete_category_route env) req w))
| step_create_subcategory req uuid w :
    catalogue_step env weight w
      (snd (answer (create_subcategory_guards env) (create_subcategory_handler weight uuid)
              req w))
| step_update_subcategory req w :
    catalogue_step env weight w
      (snd (answer (update_subcategory_guards env) (update_subcategory_handler weight) req w))
| step_delete_subcategory req w :
    catalogue_step env weight w (snd (serve (delete_subcategory_route env) req w))
| step_create_transaction req w :
    catalogue_step env weight w (snd (serve (create_transaction_route env) req w))
| step_update_transaction req w :
    catalogue_step env weight w (snd (serve (update_transaction_route env) req w))
| step_remove_transaction_file req w :
    catalogue_step env weight w (snd (serve (remove_transaction_file_route env) req w))
| step_delete_transaction req w :
    catalogue_step env weight w (snd (serve (delete_transaction_route env) req w)).

(** Any number of such requests, one after the other. *)
Inductive catalogue_run (env : Env) (weight : string -> string) : World -> World -> Prop :=
| run_done w : catalogue_run env weight w w
| run_more w w1 w2 :
    catalogue_run env weight w w1 -> catalogue_step env weight w1 w2 ->
    catalogue_run env weight w w2.

(** A middleware that leaves the world as it is. *)
Definition world_guard (mw : Middleware) : Prop := forall req w, snd (mw req w) = w.

(* ===================================================================== *)
(** ** The names of the categories *)
(* ===================================================================== *)

(** No two categories share an id, and no two share a name under the
    collation. *)
Definition categories_distinct (weight : string -> string) (d : Database) : Prop :=
  NoDup (map c_id (categories d))
  /\ NoDup (map (fun c => weight (c_name c)) (categories d)).

(** One request to one of the routes that write to the categories; the id
    [uuidv4()] hands to a creation is not in use. *)
Inductive category_step (env : Env) (weight : string -> string) : World -> World -> Prop :=
| category_created req uuid w :
    ~ In uuid (map c_id (categories (w_db w))) ->
    category_step env weight w
      (snd (answer (create_category_guards env) (create_category_handler weight uuid) req w))
| category_updated req w :
    category_step env weight w
      (snd (answer (update_category_guards env) (update_category_handler weight) req w))
| category_deleted req w :
    category_step env weight w (snd (serve (delete_category_route env) req w)).

Inductive category_run (env : Env) (weight : string -> string) : World -> World -> Prop :=
| category_run_done w : category_run env weight w w
| category_run_more w w1 w2 :
    category_run env weight w w1 -> category_step env weight w1 w2 ->
    category_run env weight w w2.

(** The body holds a string under [name], as [validateCategory] leaves it. *)
Definition named (req : Request) : Prop := exists s, body_get req "name" = Js.Str s.

(** The name of a category as [validateCategory] hands it to the handler,
    and what the validation lets through. *)
Definition category_name (req : Request) : string :=
  trim (validator_string (body_get req "name")).



(** The answer was a refusal with this status and code, and the tables are
    as they were. *)
Definition refused_unchanged {D : Type} (result : Reply D * World) (w : World)
    (status : Z) (code : string) : Prop :=
  rp_success (fst result) = false /\ rp_status (fst result) = status
  /\ rp_code (fst result) = Some code /\ rp_data (fst result) = None
  /\ w_db (snd result) = w_db w /\ w_fs (snd result) = w_fs w.

(* ===================================================================== *)
(** ** routes/authRoutes: refresh and change-password *)
(* ===================================================================== *)









(* ===================================================================== *)
(** ** routes/profileRoutes: one profile, read and updated *)
(* ===================================================================== *)

Definition ACCESS_DENIED : Exn := AppError "Access denied" 403 "ACCESS_DENIED".
Definition PROFILE_NOT_FOUND : Exn := AppError "Profile not found" 404 "PROFILE_NOT_FOUND".

(** [req.user]; reading a property of it without [req.user] is a TypeError. *)
Definition req_identity (req : Request) : M Identity :=
  match req_user req with
  | Some u => mret u
  | None => throw (mkExn "TypeError" "Cannot read properties of undefined" None None [])
  end.

Definition select_profile (id : string) (d : Database) : list ProfileRow :=
  filter (fun p => String.eqb (p_id p) id) (profiles d).

(** GET /api/profiles/:id *)
Definition get_profile_handler : Handler ProfileRow := fun req =>
  let id := req_param req in
  user ← req_identity req;
  throw_if (negb (String.eqb (id_id user) id)
            && negb (existsb (String.eqb (id_role user)) ["administrador"; "gerente"]))
    ACCESS_DENIED;;
  profiles ← select (select_profile id);
  match profiles with
  | [] => throw PROFILE_NOT_FOUND
  | profile :: _ => mret (mkReply 200 true "" None (Some profile))
  end.




Definition get_profile_guards (env : Env) : list Middleware :=
  [verifyToken env; validateUUID env].



(** The requester may read the profile [id]: it is theirs, or they are an
    administrator or a manager. *)
Definition may_read_profile (u : Identity) (id : string) : Prop :=
  id_id u = id \/ admin_or_manager u.



(* ===================================================================== *)
(** ** Sample requests for the further properties *)
(* ===================================================================== *)

Definition sample_filters : entries :=
  [("type", Js.Str "saida"); ("category_id", Js.Undefined);
   ("description_like", Js.Str "lunch"); ("date_from", Js.Str "2024-01-01")].

Definition sample_updates : entries :=
  [("name", Js.Str "Ana"); ("phone", Js.Undefined); ("status", Js.Num 1)].

(** A collation that does not tell upper case from lower case. *)
Definition case_blind (s : string) : string := toLowerCase s.

Definition named_request (token param name : string) : Request :=
  request_as token param (<["name" := Js.Str name]> ∅).

(** A new expense that names no category. *)
Definition plain_request : Request :=
  request_as "manager-token" ""
    (<["amount" := Js.Str "3.20"]>
       (<["type" := Js.Str "saida"]>
          (<["description" := Js.Str " apples "]>
             (<["date" := Js.Str "2024-05-02"]> ∅)))).





(** A receipt in the upload directory of the file routes. *)
Definition upload_world : World :=
  mkWorld sample_db (<["uploads/a.pdf" := mkFile 10 true]> ∅) [] [] 1000.

Definition health_id : string := "aaaaaaaa-aaaa-4aaa-8aaa-aaaaaaaaaaa4".

(** An expense under Groceries, named by the id the category routes know
    it by. *)
Definition groceries_request : Request :=
  request_as "manager-token" "txn-007"
    (<["category_id" := Js.Str groceries_id]> (req_body plain_request)).

(* ===================================================================== *)
(** * Properties *)
(* ===================================================================== *)


(** ** The JavaScript primitives on small inputs *)

Example parseInt_045 : Js.parseInt "045" = Some 45.
Proof. reflexivity. Qed.
Example parseInt_hex : Js.parseInt "  -0x1f" = Some (-31).
Proof. reflexivity. Qed.
Example parseInt_undefined : Js.parseInt "undefined" = None.
Proof. reflexivity. Qed.
Example split_txn : Js.split "-" "txn-045" = ["txn"; "045"].
Proof. reflexivity. Qed.
Example replace_first_only : Js.replace "a_like_like" "_like" "" = "a_like".
Proof. reflexivity. Qed.
Example join_uploads : Path.join ["uploads"; "a.pdf"] = "uploads/a.pdf".
Proof. reflexivity. Qed.
Example join_dirname :
  Path.join ["/srv/app/src/routes"; "../../uploads"; "r.png"] = "/srv/app/uploads/r.png".
Proof. reflexivity. Qed.
Example join_escapes : Path.join ["uploads"; "../../etc/passwd"] = "../etc/passwd".
Proof. reflexivity. Qed.
Example extname_pdf : toLowerCase (extname "Receipt.v2.PDF") = ".pdf".
Proof. reflexivity. Qed.
Example trim_both : trim "  a b  " = "a b".
Proof. reflexivity. Qed.

(** ** Strings: prefixes, digits, splitting *)

Lemma append_cons (c : ascii) (s t : string) : String c s +:+ t = String c (s +:+ t).
Proof. reflexivity. Qed.

Lemma append_nil_l (t : string) : "" +:+ t = t.
Proof. reflexivity. Qed.


Lemma prefix_inv (p s : string) :
  String.prefix p s = true -> s = p +:+ Js.substring_from (String.length p) s.
Proof.
  revert s. induction p as [|c p IH]; intros s H.
  - done.
  - destruct s as [|c' s]; simpl in H; [done|].
    destruct (ascii_dec c c') as [->|]; [|done].
    rewrite append_cons. simpl. f_equal. by apply IH.
Qed.

Lemma all_digits_cons (c : ascii) (s : string) :
  all_digits (String c s) = Js.is_digit c && all_digits s.
Proof. reflexivity. Qed.

Lemma digit_not_space (c : ascii) : Js.is_digit c = true -> Js.is_space c = false.
Proof.
  unfold Js.is_digit, Js.is_space. intros H.
  apply andb_prop in H as [H1 H2].
  apply Nat.leb_le in H1. apply Nat.leb_le in H2.
  apply orb_false_iff. split.
  - apply Nat.eqb_neq. lia.
  - apply andb_false_iff. right. apply Nat.leb_gt. lia.
Qed.

Lemma digit_not_char (c d : ascii) :
  Js.is_digit c = true -> Js.is_digit d = false -> Ascii.eqb c d = false.
Proof.
  intros Hc Hd. destruct (Ascii.eqb_spec c d) as [->|]; [congruence|done].
Qed.

Lemma split_digits (sep : ascii) (s : string) :
  Js.is_digit sep = false -> all_digits s = true -> Js.split sep s = [s].
Proof.
  intros Hsep. induction s as [|c s IH]; intros H; [done|].
  rewrite all_digits_cons in H. apply andb_prop in H as [Hc Hs].
  simpl. rewrite (digit_not_char c sep Hc Hsep), (IH Hs). done.
Qed.

(** On a string that starts with a digit, [parseInt] reads an unsigned
    number with no white space and no sign to skip. *)
Lemma parseInt_digit_first (c : ascii) (s : string) :
  Js.is_digit c = true -> Js.parseInt (String c s) = Js.read_unsigned (String c s).
Proof.
  intros Hc. unfold Js.parseInt. simpl Js.skip_spaces.
  rewrite (digit_not_space c Hc).
  destruct c as [[] [] [] [] [] [] [] []]; try discriminate Hc; reflexivity.
Qed.

(** A string of digits has no [0x] prefix. *)
Lemma read_unsigned_digits (s : string) :
  all_digits s = true -> Js.read_unsigned s = Js.read_decimal s 0 false.
Proof.
  destruct s as [|c [|c2 s]]; intros H; try reflexivity.
  - unfold Js.read_unsigned.
    destruct c as [[] [] [] [] [] [] [] []]; reflexivity.
  - rewrite !all_digits_cons in H.
    apply andb_prop in H as [_ H]. apply andb_prop in H as [H2 _].
    unfold Js.read_unsigned.
    destruct c as [[] [] [] [] [] [] [] []]; try reflexivity;
      destruct c2 as [[] [] [] [] [] [] [] []]; try discriminate H2; reflexivity.
Qed.

Lemma read_decimal_digits (s : string) (acc : Z) (seen : bool) :
  all_digits s = true -> 0 <= acc -> (s <> "" \/ seen = true) ->
  exists z, Js.read_decimal s acc seen = Some z /\ acc <= z.
Proof.
  revert acc seen. induction s as [|c s IH]; intros acc seen H Hacc Hne.
  - destruct Hne as [Hne | ->]; [done|]. exists acc. split; [done|lia].
  - rewrite all_digits_cons in H. apply andb_prop in H as [Hc Hs].
    simpl. rewrite Hc.
    assert (Hd : 0 <= Js.digit_value c).
    { unfold Js.is_digit in Hc. apply andb_prop in Hc as [H1 _].
      apply Nat.leb_le in H1. unfold Js.digit_value. lia. }
    destruct (IH (10 * acc + Js.digit_value c) true Hs) as (z & Hz & Hle);
      [lia | by right |].
    exists z. split; [done | lia].
Qed.

(** ** C1: the next transaction id *)

Lemma top_by_nil (key : string -> Z) (rows : list string) :
  top_by key rows = None -> rows = [].
Proof.
  destruct rows as [|x rest]; [done|]. simpl.
  destruct (top_by key rest); [destruct (key s <=? key x)|]; done.
Qed.

Lemma top_by_greatest (key : string -> Z) (rows : list string) (x : string) :
  top_by key rows = Some x ->
  In x rows /\ (forall y, In y rows -> key y <= key x).
Proof.
  revert x. induction rows as [|r rest IH]; intros x H; [done|].
  simpl in H. destruct (top_by key rest) as [y|] eqn:Htop.
  - destruct (IH y eq_refl) as [Hin Hmax].
    destruct (Z.leb_spec (key y) (key r)) as [Hle|Hgt]; inversion H; subst x.
    + split; [by left|]. intros z [<-|Hz]; [lia|]. specialize (Hmax z Hz). lia.
    + split; [by right|]. intros z [<-|Hz]; [lia|]. by apply Hmax.
  - inversion H; subst x. apply top_by_nil in Htop. subst rest.
    split; [by left|]. intros z [<-|[]]. lia.
Qed.

(** On a well-formed id the number JavaScript parses after the dash is the
    number MySQL ordered by. *)
Lemma parse_well_formed (id : string) :
  well_formed_txn_id id ->
  Js.parseInt (index_as_string (Js.split "-" id) 1) = Some (txn_suffix_number id).
Proof.
  intros [Hm Hsafe]. unfold matches_txn_id in Hm.
  apply andb_prop in Hm as [Hm Hdig]. apply andb_prop in Hm as [Hpre Hne].
  unfold txn_suffix_number in *.
  apply prefix_inv in Hpre. simpl String.length in Hpre.
  remember (Js.substring_from 4 id) as ds eqn:Hds. clear Hds. subst id.
  rewrite !append_cons, append_nil_l. simpl Js.split.
  rewrite (split_digits "-" ds eq_refl Hdig). simpl index_as_string.
  destruct ds as [|c ds]; [done|].
  pose proof Hdig as Hdig'. rewrite all_digits_cons in Hdig'.
  apply andb_prop in Hdig' as [Hc _].
  unfold index_as_string. cbn [nth_error].
  rewrite (parseInt_digit_first c ds Hc), (read_unsigned_digits _ Hdig).
  unfold sql_cast_unsigned in *. simpl Js.skip_spaces in *.
  rewrite (digit_not_space c Hc) in *.
  destruct (read_decimal_digits (String c ds) 0 false Hdig) as (z & Hz & Hpos);
    [lia | by left |].
  assert (Hcast : match String c ds with
                  | String "-" s' =>
                      match Js.read_decimal s' 0 false with
                      | Some 0 | None => 0
                      | Some z0 => 2 ^ 64 - Z.min z0 (2 ^ 64 - 1)
                      end
                  | s' => match Js.read_decimal s' 0 false with
                          | Some z0 => Z.min z0 (2 ^ 64 - 1)
                          | None => 0
                          end
                  end = Z.min z (2 ^ 64 - 1)).
  { destruct c as [[] [] [] [] [] [] [] []]; try discriminate Hc;
      cbv beta iota; rewrite Hz; reflexivity. }
  rewrite Hcast in *. rewrite Hz. f_equal.
  unfold Js.MAX_SAFE_INTEGER in Hsafe. lia.
Qed.

Lemma length_repeat_char (c : ascii) (n : nat) : String.length (Js.repeat_char c n) = n.
Proof. induction n as [|n IH]; simpl; [done | by rewrite IH]. Qed.

Lemma length_append (a b : string) :
  String.length (a +:+ b) = (String.length a + String.length b)%nat.
Proof.
  induction a as [|c a IH]; [done|].
  rewrite append_cons. simpl. by rewrite IH.
Qed.

Lemma padStart_length (n : nat) (c : ascii) (s : string) :
  String.length (Js.padStart n c s) = Nat.max n (String.length s).
Proof.
  unfold Js.padStart. rewrite length_append, length_repeat_char. lia.
Qed.

(** Unfolding of the monadic operations down to functions on the world. *)
Ltac run_monad :=
  cbv beta iota delta [mbind M_bind bind mret M_ret ret throw_if throw try_catch
    select execute get_db put_db get_now console_log].

Ltac run_monad_in H :=
  cbv beta iota delta [mbind M_bind bind mret M_ret ret throw_if throw try_catch
    select execute get_db put_db get_now console_log] in H.

Lemma select_last_transaction_id_eq (w : World) :
  select_last_transaction_id (w_db w) =
  match top_by txn_suffix_number (txn_ids w) with
  | Some id => [id]
  | None => []
  end.
Proof. reflexivity. Qed.

Lemma generateNextTransactionId_max (w : World) (m : Z) :
  Forall well_formed_txn_id (txn_ids w) ->
  max_suffix (txn_ids w) m ->
  generateNextTransactionId w =
  (inr ("txn-" +:+ Js.padStart 3 "0" (Js.toString (Some (m + 1)))), w).
Proof.
  intros Hwf [(id0 & Hin0 & Hkey0) Hmax].
  unfold generateNextTransactionId. run_monad.
  rewrite select_last_transaction_id_eq.
  destruct (top_by txn_suffix_number (txn_ids w)) as [id|] eqn:Htop.
  - destruct (top_by_greatest _ _ _ Htop) as [Hin Hgreatest].
    assert (Hkey : txn_suffix_number id = m).
    { specialize (Hmax id Hin). specialize (Hgreatest id0 Hin0). lia. }
    rewrite Forall_forall in Hwf.
    rewrite (parse_well_formed id (Hwf id (proj2 (list_elem_of_In _ _) Hin))), Hkey.
    reflexivity.
  - apply top_by_nil in Htop. rewrite Htop in Hin0. destruct Hin0.
Qed.

(** C1.  On a table whose [txn-] ids have the documented form,
    [generateNextTransactionId] returns [txn-001] when there is no such id;
    otherwise, with [m] the greatest numeric suffix, it returns [txn-]
    followed by the decimal digits of [m + 1] left-padded with zeros to three
    characters and never truncated, so 45 gives [txn-046] and 999 gives
    [txn-1000].  The table is only read. *)
Theorem generateNextTransactionId_spec (w : World) :
  Forall well_formed_txn_id (txn_ids w) ->
  (txn_ids w = [] -> generateNextTransactionId w = (inr "txn-001", w)) /\
  (forall m, max_suffix (txn_ids w) m ->
     let digits := Js.toString (Some (m + 1)) in
     generateNextTransactionId w = (inr ("txn-" +:+ Js.padStart 3 "0" digits), w) /\
     String.length (Js.padStart 3 "0" digits) = Nat.max 3 (String.length digits) /\
     Js.padStart 3 "0" digits
     = Js.repeat_char "0" (3 - String.length digits) +:+ digits) /\
  (max_suffix (txn_ids w) 45 -> generateNextTransactionId w = (inr "txn-046", w)) /\
  (max_suffix (txn_ids w) 999 -> generateNextTransactionId w = (inr "txn-1000", w)).
Proof.
  intros Hwf. repeat split.
  - intros Hnil. unfold generateNextTransactionId. run_monad.
    rewrite select_last_transaction_id_eq, Hnil. reflexivity.
  - by apply generateNextTransactionId_max.
  - apply padStart_length.
  - intros H. by rewrite (generateNextTransactionId_max w 45 Hwf H).
  - intros H. by rewrite (generateNextTransactionId_max w 999 Hwf H).
Qed.

(** ** C1, continued: the ids the allocator writes keep the table well formed *)












(** ** C2: the dynamic UPDATE *)

Lemma fold_update_step (updates : entries) (fields : list string) (values : list Js.value) :
  fold_left update_step updates (fields, values) =
  (fields ++ map (fun e => fst e +:+ " = ?") (defined_entries updates),
   values ++ map snd (defined_entries updates)).
Proof.
  revert fields values. induction updates as [|[key value] updates IH]; intros fields values.
  - simpl. by rewrite !app_nil_r.
  - simpl fold_left. unfold defined_entries.
    rewrite filter_cons. simpl snd.
    destruct (is_undefined value) eqn:Hv; simpl negb; cbv iota; rewrite IH.
    + rewrite decide_False by (by intros []). done.
    + rewrite decide_True by done. simpl. by rewrite <- !app_assoc.
Qed.

(** C2.  [buildUpdateQuery] keeps exactly the entries whose value is not
    [undefined]; with none left it throws the 400 error NO_UPDATE_FIELDS;
    otherwise the SET list is the kept keys in order, then the timestamp
    touch, and the parameters are the kept values in order, then the
    where-parameters.  On [{name: 'A', phone: undefined}] only [name] and
    the timestamp are set, with parameters ['A', id]. *)
Theorem buildUpdateQuery_spec (table : string) (updates : entries)
    (whereClause : string) (whereParams : list Js.value) :
  let kept := defined_entries updates in
  buildUpdateQuery table updates whereClause whereParams =
  match kept with
  | [] => inl (mkExn "Error" "No fields to update" (Some 400) (Some "NO_UPDATE_FIELDS") [])
  | _ :: _ =>
      inr (mkQuery
             ("UPDATE " +:+ table +:+ " SET "
                +:+ Js.join ", " (map (fun e => fst e +:+ " = ?") kept)
                +:+ ", updated_at = NOW() WHERE " +:+ whereClause)
             (map snd kept ++ whereParams))
  end
  /\ (forall e, In e kept <-> In e updates /\ snd e <> Js.Undefined)
  /\ (forall id : Js.value,
        buildUpdateQuery "profiles" [("name", Js.Str "A"); ("phone", Js.Undefined)]
          "id = ?" [id]
        = inr (mkQuery "UPDATE profiles SET name = ?, updated_at = NOW() WHERE id = ?"
                 [Js.Str "A"; id])).
Proof.
  split; [|split].
  - unfold buildUpdateQuery. rewrite fold_update_step. simpl app.
    destruct (defined_entries updates) as [|e kept]; reflexivity.
  - intros e. unfold defined_entries. rewrite <- !list_elem_of_In, list_elem_of_filter.
    destruct (snd e); simpl; split; intros [H1 H2]; split; try done.
  - intros id. reflexivity.
Qed.

(** ** C3: the filtered search *)

Lemma fold_search_step (filters : entries) (clauses : list string) (ps : list Js.value) :
  fold_left search_step filters (clauses, ps) =
  (clauses ++ map fst (map predicate_of (kept_filters filters)),
   ps ++ map snd (map predicate_of (kept_filters filters))).
Proof.
  revert clauses ps. induction filters as [|[key value] filters IH]; intros clauses ps.
  - simpl. by rewrite !app_nil_r.
  - simpl fold_left. unfold kept_filters. rewrite filter_cons. simpl snd.
    fold (kept_filters filters).
    assert (Hskip : negb (is_undefined value) && negb (is_null value)
                    && negb (is_empty_string value) = negb (skipped_value value)).
    { unfold skipped_value.
      by destruct (is_undefined value), (is_null value), (is_empty_string value). }
    rewrite Hskip.
    destruct (skipped_value value) eqn:Hv; simpl negb.
    + rewrite decide_False by (by intros []). apply IH.
    + rewrite decide_True by done. simpl map.
      destruct (Js.includes key "_like");
        [|destruct (Js.includes key "_date_from");
          [|destruct (Js.includes key "_date_to")]];
        rewrite IH; simpl; by rewrite <- !app_assoc.
Qed.

(** The loop of [buildSearchQuery] is a filter and a map over the entries. *)
Lemma buildSearchQuery_by_containment (baseQuery : string) (filters : entries)
    (baseParams : list Js.value) :
  buildSearchQuery baseQuery filters baseParams
  = search_query_from predicate_of baseQuery filters baseParams.
Proof.
  unfold buildSearchQuery, search_query_from. rewrite fold_search_step. simpl app.
  destruct (map predicate_of (kept_filters filters)) as [|p preds]; [reflexivity|].
  simpl length. simpl Nat.ltb.
  cbv beta iota. destruct (Js.includes baseQuery "WHERE"); reflexivity.
Qed.

Lemma prefix_refl (m : string) : String.prefix m m = true.
Proof. induction m as [|c m IH]; simpl; [done | by destruct (ascii_dec c c)]. Qed.

Lemma substring_from_length (m : string) : Js.substring_from (String.length m) m = "".
Proof. induction m as [|c m IH]; simpl; done. Qed.

Lemma substring_from_app (a b : string) :
  Js.substring_from (String.length a) (a +:+ b) = b.
Proof. induction a as [|c a IH]; [done|]. rewrite append_cons. simpl. apply IH. Qed.

Lemma includes_substring_from (s m : string) (k : nat) :
  String.prefix m (Js.substring_from k s) = true -> Js.includes s m = true.
Proof.
  revert s. induction k as [|k IH]; intros s H.
  - change (String.prefix m s = true) in H. destruct s; cbn [Js.includes]; by rewrite H.
  - destruct s as [|c s]; cbn [Js.substring_from] in H.
    + cbn [Js.includes]. by rewrite H.
    + cbn [Js.includes]. rewrite (IH s H). apply orb_true_r.
Qed.

Lemma includes_app_r (a m : string) : Js.includes (a +:+ m) m = true.
Proof.
  apply (includes_substring_from _ _ (String.length a)).
  rewrite substring_from_app. apply prefix_refl.
Qed.

(** Removing the first occurrence of a marker that occurs only at the end
    leaves the column name. *)
Lemma replace_only_suffix (column m : string) :
  (forall i, (i < String.length column)%nat ->
             String.prefix m (Js.substring_from i (column +:+ m)) = false) ->
  Js.replace (column +:+ m) m "" = column.
Proof.
  induction column as [|c column IH]; intros H.
  - rewrite append_nil_l. destruct m as [|c m]; [done|].
    unfold Js.replace. rewrite prefix_refl, substring_from_length. done.
  - rewrite append_cons. simpl Js.replace.
    pose proof (H 0%nat) as H0. rewrite append_cons in H0. simpl in H0.
    rewrite H0 by lia. f_equal. apply IH. intros i Hi.
    specialize (H (S i)). rewrite append_cons in H. simpl in H. apply H. lia.
Qed.

Lemma endsWith_app (column m : string) : endsWith (column +:+ m) m = true.
Proof.
  unfold endsWith. rewrite length_append.
  replace (String.length column + String.length m - String.length m)%nat
    with (String.length column) by lia.
  rewrite substring_from_app, String.eqb_refl, andb_true_r.
  apply Nat.leb_le. lia.
Qed.

Lemma endsWith_includes (s m : string) : endsWith s m = true -> Js.includes s m = true.
Proof.
  unfold endsWith. intros H. apply andb_prop in H as [_ H].
  apply String.eqb_eq in H.
  apply (includes_substring_from _ _ (String.length s - String.length m)).
  rewrite H. apply prefix_refl.
Qed.

Lemma not_includes_not_endsWith (s m : string) :
  Js.includes s m = false -> endsWith s m = false.
Proof.
  intros H. destruct (endsWith s m) eqn:He; [|done].
  apply endsWith_includes in He. congruence.
Qed.

Lemma substring_0_app (a b : string) : String.substring 0 (String.length a) (a +:+ b) = a.
Proof.
  induction a as [|c a IH].
  - rewrite append_nil_l. by destruct b.
  - rewrite append_cons. simpl. by rewrite IH.
Qed.

Lemma strip_suffix_app (column m : string) : strip_suffix (column +:+ m) m = column.
Proof.
  unfold strip_suffix. rewrite length_append.
  replace (String.length column + String.length m - String.length m)%nat
    with (String.length column) by lia.
  apply substring_0_app.
Qed.

Lemma predicate_of_clean (key : string) (value : Js.value) :
  clean_key key -> predicate_of (key, value) = predicate_by_suffix (key, value).
Proof.
  unfold predicate_of, predicate_by_suffix.
  intros [(col & -> & H) | [(Hl & col & -> & H) | [(Hl & Hf & col & -> & H) | (Hl & Hf & Ht)]]].
  - by rewrite includes_app_r, endsWith_app, strip_suffix_app, replace_only_suffix.
  - rewrite Hl, (not_includes_not_endsWith _ _ Hl).
    by rewrite includes_app_r, endsWith_app, strip_suffix_app, replace_only_suffix.
  - rewrite Hl, Hf, (not_includes_not_endsWith _ _ Hl), (not_includes_not_endsWith _ _ Hf).
    by rewrite includes_app_r, endsWith_app, strip_suffix_app, replace_only_suffix.
  - rewrite Hl, Hf, Ht, (not_includes_not_endsWith _ _ Hl),
      (not_includes_not_endsWith _ _ Hf), (not_includes_not_endsWith _ _ Ht). done.
Qed.

Lemma skipped_value_false (v : Js.value) :
  skipped_value v = false <-> v <> Js.Undefined /\ v <> Js.Null /\ v <> Js.Str "".
Proof.
  unfold skipped_value. destruct v as [| |b|z|s]; simpl; try (intuition congruence).
  destruct (String.eqb_spec s "") as [->|Hs]; intuition congruence.
Qed.

(** C3, as the code has it.  [buildSearchQuery] passes over the filters whose
    value is [undefined], [null] or the empty string.  Each remaining key
    that contains [_like] gives a LIKE predicate with the value wrapped in
    [%], else one that contains [_date_from] gives [>=], else one that
    contains [_date_to] gives [<=], each on the key with the first occurrence
    of the marker removed, and a key with none of them gives an equality.
    For a key that holds its marker only as its suffix this is the predicate
    on the key without the suffix.  The predicates are joined with AND and
    appended after [ AND ] when the base query contains WHERE, after
    [ WHERE ] otherwise, and the parameters are the base parameters followed
    by the filter values in order. *)
Theorem buildSearchQuery_spec (baseQuery : string) (filters : entries)
    (baseParams : list Js.value) :
  buildSearchQuery baseQuery filters baseParams
  = search_query_from predicate_of baseQuery filters baseParams
  /\ (forall e, In e (kept_filters filters) <->
                In e filters /\ snd e <> Js.Undefined /\ snd e <> Js.Null
                /\ snd e <> Js.Str "")
  /\ (forall key value, clean_key key ->
        predicate_of (key, value) = predicate_by_suffix (key, value))
  /\ (forall v : Js.value,
        map predicate_of
          [("name_like", v); ("created_date_from", v); ("created_date_to", v); ("type", v)]
        = [("name LIKE ?", Js.Str ("%" +:+ Js.to_template v +:+ "%"));
           ("created >= ?", v); ("created <= ?", v); ("type = ?", v)]).
Proof.
  split; [apply buildSearchQuery_by_containment|]. split; [|split].
  - intros e. unfold kept_filters. rewrite <- !list_elem_of_In, list_elem_of_filter.
    rewrite <- skipped_value_false. destruct (skipped_value (snd e)); simpl;
      intuition congruence.
  - intros key value. apply predicate_of_clean.
  - intros v. reflexivity.
Qed.

(** C3 as the specification words it fails on a key that contains a marker
    without ending in it: [is_liked] is not an equality filter for the code. *)
Lemma buildSearchQuery_suffix_counterexample :
  buildSearchQuery "SELECT * FROM posts" [("is_liked", Js.Num 1)] []
  = mkQuery "SELECT * FROM posts WHERE isd LIKE ?" [Js.Str "%1%"]
  /\ search_query_from predicate_by_suffix "SELECT * FROM posts" [("is_liked", Js.Num 1)] []
     = mkQuery "SELECT * FROM posts WHERE is_liked = ?" [Js.Num 1]
  /\ buildSearchQuery "SELECT * FROM posts" [("is_liked", Js.Num 1)] []
     <> search_query_from predicate_by_suffix "SELECT * FROM posts"
          [("is_liked", Js.Num 1)] [].
Proof. repeat split; [vm_compute; reflexivity .. | vm_compute; discriminate]. Qed.

(** ** C4: the authentication middleware *)

Lemma verifyToken_run (env : Env) (req : Request) (w : World) :
  verifyToken env req w =
  match bearer_token req with
  | None => (inl NO_TOKEN, w)
  | Some token =>
      match jwt_verify env token with
      | inl e =>
          if String.eqb (exn_name e) "JsonWebTokenError"
          then (inl (AppError "Invalid token." 401 "INVALID_TOKEN"), w)
          else if String.eqb (exn_name e) "TokenExpiredError"
               then (inl (AppError "Token expired." 401 "TOKEN_EXPIRED"), w)
               else (inl e, w)
      | inr payload =>
          match select_active_user (jwt_userId payload) (w_db w) with
          | [] => (inl (AppError "User not found or inactive." 401 "USER_NOT_FOUND"), w)
          | row :: _ => (inr (Next (set_user (identity_of row) req)), w)
          end
      end
  end.
Proof.
  unfold verifyToken, bearer_token. run_monad.
  destruct (req_authorization req) as [h|]; [|reflexivity].
  cbv beta iota delta [header_missing default from_option id].
  destruct (String.eqb h ""); [reflexivity|].
  destruct (Js.startsWith h "Bearer "); [|reflexivity].
  cbv beta iota delta [orb negb].
  destruct (String.eqb (Js.substring_from 7 h) ""); [reflexivity|].
  destruct (jwt_verify env (Js.substring_from 7 h)) as [e|payload].
  - destruct (String.eqb (exn_name e) "JsonWebTokenError"); [reflexivity|].
    destruct (String.eqb (exn_name e) "TokenExpiredError"); reflexivity.
  - destruct (select_active_user (jwt_userId payload) (w_db w)); reflexivity.
Qed.

(** The middleware never changes the world. *)
Lemma verifyToken_world (env : Env) (req : Request) (w : World) :
  snd (verifyToken env req w) = w.
Proof.
  rewrite verifyToken_run.
  destruct (bearer_token req); [|done].
  destruct (jwt_verify env s) as [e|payload].
  - destruct (String.eqb (exn_name e) "JsonWebTokenError"); [done|].
    by destruct (String.eqb (exn_name e) "TokenExpiredError").
  - by destruct (select_active_user (jwt_userId payload) (w_db w)).
Qed.

Lemma serve_throw (mw : Middleware) (rest : list Middleware) (req : Request)
    (w w' : World) (e : Exn) :
  mw req w = (inl e, w') -> serve (mw :: rest) req w = errorHandler e w'.
Proof. intros H. unfold serve. simpl run_chain. run_monad. by rewrite H. Qed.

Lemma serve_next (mw : Middleware) (rest : list Middleware) (req req' : Request)
    (w w' : World) :
  mw req w = (inr (Next req'), w') -> serve (mw :: rest) req w = serve rest req' w'.
Proof. intros H. unfold serve. simpl run_chain. run_monad. by rewrite H. Qed.

Lemma serve_send (mw : Middleware) (rest : list Middleware) (req : Request)
    (w w' : World) (res : Response) :
  mw req w = (inr (Send res), w') -> serve (mw :: rest) req w = (res, w').
Proof. intros H. unfold serve. simpl run_chain. run_monad. by rewrite H. Qed.

Lemma in_users_join_profiles (d : Database) (u : UserRow) (p : ProfileRow) :
  In (u, p) (users_join_profiles d) <->
  In u (users d) /\ In p (profiles d) /\ u_id u = p_id p.
Proof.
  unfold users_join_profiles. rewrite in_flat_map. split.
  - intros (u' & Hu & Hin). apply in_map_iff in Hin as (p' & Heq & Hp).
    inversion Heq; subst u' p'.
    apply list_elem_of_In, list_elem_of_filter in Hp as [Hid Hp].
    apply Is_true_true, String.eqb_eq in Hid.
    split; [done|]. split; [by apply list_elem_of_In | done].
  - intros (Hu & Hp & Hid). exists u. split; [done|].
    apply in_map_iff. exists p. split; [done|].
    apply list_elem_of_In, list_elem_of_filter. split; [|by apply list_elem_of_In].
    apply Is_true_true, String.eqb_eq. done.
Qed.

Lemma in_select_active_user (d : Database) (userId : string) (u : UserRow) (p : ProfileRow) :
  In (u, p) (select_active_user userId d) <->
  In u (users d) /\ In p (profiles d) /\ u_id u = p_id p
  /\ u_id u = userId /\ p_status p = true.
Proof.
  unfold select_active_user.
  rewrite <- list_elem_of_In, list_elem_of_filter, list_elem_of_In, in_users_join_profiles.
  simpl. rewrite andb_True, Is_true_true, Is_true_true, String.eqb_eq. tauto.
Qed.


(** ** C5: deletion guards of categories and subcategories *)

Lemma requireAdminOrManager_pass (req : Request) (w : World) (u : Identity) :
  req_user req = Some u -> admin_or_manager u ->
  requireAdminOrManager req w = (inr (Next req), w).
Proof.
  intros Hu [Hr|Hr]; unfold requireAdminOrManager; rewrite Hu; simpl; rewrite Hr; reflexivity.
Qed.




Lemma filter_length_pos {A} (f : A -> bool) (l : list A) :
  (0 <? length (filter f l))%nat = true <-> exists x, In x l /\ f x = true.
Proof.
  rewrite Nat.ltb_lt. split.
  - destruct (filter f l) as [|x l'] eqn:Hf; simpl; [lia|]. intros _.
    assert (Hx : x ∈ filter f l) by (rewrite Hf; left).
    apply list_elem_of_filter in Hx as [Hfx Hx].
    exists x. split; [by apply list_elem_of_In | by apply Is_true_true].
  - intros (x & Hx & Hfx).
    assert (Hin : x ∈ filter f l).
    { apply list_elem_of_filter. split; [by apply Is_true_true | by apply list_elem_of_In]. }
    destruct (filter f l); [by apply not_elem_of_nil in Hin | simpl; lia].
Qed.

Lemma filter_length_zero {A} (f : A -> bool) (l : list A) :
  (0 <? length (filter f l))%nat = false <-> forall x, In x l -> f x = false.
Proof.
  split.
  - intros H x Hx. destruct (f x) eqn:Hfx; [|done].
    assert (Hp : (0 <? length (filter f l))%nat = true)
      by (apply filter_length_pos; eauto).
    congruence.
  - intros H. destruct (0 <? length (filter f l))%nat eqn:Hp; [|done].
    apply filter_length_pos in Hp as (x & Hx & Hfx). rewrite (H x Hx) in Hfx. done.
Qed.


Lemma value_eqb_Str (v : Js.value) (s : string) :
  Js.value_eqb v (Js.Str s) = true <-> v = Js.Str s.
Proof.
  destruct v; simpl; try (split; [discriminate | discriminate]).
  rewrite String.eqb_eq. split; [by intros -> | by inversion 1].
Qed.







Lemma delete_category_handler_run (req : Request) (w : World) :
  let id := req_param req in
  let d := w_db w in
  delete_category_handler req w =
  if (length (filter (fun c => String.eqb (c_id c) id) (categories d)) =? 0)%nat then
    (inl (AppError "Category not found" 404 "CATEGORY_NOT_FOUND"), w)
  else if (0 <? count_subcategories_of id d)%nat then
    (inl (AppError "Cannot delete category with subcategories" 400
            "CATEGORY_HAS_SUBCATEGORIES"), w)
  else if (0 <? count_transactions_of_category id d)%nat then
    (inl (AppError "Cannot delete category used in transactions" 400 "CATEGORY_IN_USE"), w)
  else (inr (Send (ok_json "Category deleted successfully" NoData)),
        set_db (delete_category_row id d) w).
Proof.
  intros id d. subst d. unfold delete_category_handler. run_monad. fold id.
  destruct (length (filter (fun c => String.eqb (c_id c) id) (categories (w_db w))) =? 0)%nat;
    [reflexivity|].
  destruct (0 <? count_subcategories_of id (w_db w))%nat; [reflexivity|].
  destruct (0 <? count_transactions_of_category id (w_db w))%nat; reflexivity.
Qed.

Lemma delete_subcategory_handler_run (req : Request) (w : World) :
  let id := req_param req in
  let d := w_db w in
  delete_subcategory_handler req w =
  if (length (filter (fun s => String.eqb (s_id s) id) (subcategories d)) =? 0)%nat then
    (inl (AppError "Subcategory not found" 404 "SUBCATEGORY_NOT_FOUND"), w)
  else if (0 <? count_transactions_of_subcategory id d)%nat then
    (inl (AppError "Cannot delete subcategory used in transactions" 400
            "SUBCATEGORY_IN_USE"), w)
  else (inr (Send (ok_json "Subcategory deleted successfully" NoData)),
        set_db (delete_subcategory_row id d) w).
Proof.
  intros id d. subst d. unfold delete_subcategory_handler. run_monad. fold id.
  destruct (length (filter (fun s => String.eqb (s_id s) id) (subcategories (w_db w))) =? 0)%nat;
    [reflexivity|].
  destruct (0 <? count_transactions_of_subcategory id (w_db w))%nat; reflexivity.
Qed.

Lemma serve_handler_throw (handler : Middleware) (req : Request) (w : World)
    (message : string) (status : Z) (code : string) :
  handler req w = (inl (AppError message status code), w) ->
  status <> 0 -> code <> "" ->
  translate_error (AppError message status code) = AppError message status code ->
  rejected_unchanged (serve [handler] req w) w status code.
Proof.
  intros H Hs Hc Ht. rewrite (serve_throw _ _ _ _ _ _ H).
  unfold rejected_unchanged, errorHandler. rewrite Ht. simpl.
  repeat split.
  - by destruct status.
  - destruct (String.eqb_spec code ""); [done | reflexivity].
Qed.


Lemma delete_category_row_others (id : string) (d : Database) (c : CategoryRow) :
  In c (categories (delete_category_row id d)) <-> In c (categories d) /\ c_id c <> id.
Proof.
  simpl. rewrite <- !list_elem_of_In, list_elem_of_filter.
  rewrite Is_true_true, negb_true_iff, String.eqb_neq. tauto.
Qed.


Lemma delete_subcategory_row_others (id : string) (d : Database) (s : SubcategoryRow) :
  In s (subcategories (delete_subcategory_row id d)) <->
  In s (subcategories d) /\ s_id s <> id.
Proof.
  simpl. rewrite <- !list_elem_of_In, list_elem_of_filter.
  rewrite Is_true_true, negb_true_iff, String.eqb_neq. tauto.
Qed.

(** Closes a rejection goal from the equation of the handler's run. *)
Ltac reject_with Hrun :=
  eapply serve_handler_throw; [exact Hrun | done | done | reflexivity].


(** ** C6: self-protection on the admin user endpoints *)









(** ** C9: the user object of a response *)

Lemma handleValidationErrors_step (errors : ValidationErrors) (req : Request) (w : World) :
  (exists e, handleValidationErrors errors req w = (inl e, w))
  \/ handleValidationErrors errors req w = (inr (Next req), w).
Proof.
  unfold handleValidationErrors.
  destruct (0 <? length errors)%nat; [left; eexists | right]; reflexivity.
Qed.

Lemma login_handler_user (env : Env) (req : Request) (w w' : World) (res : Response)
    (user : gmap string Js.value) (token refreshToken : string) :
  login_handler env req w = (inr (Send res), w') ->
  res_data res = LoginData user token refreshToken ->
  exists base : gmap string Js.value, user = formatUserResponse base.
Proof.
  unfold login_handler, verifyPassword. run_monad.
  destruct (select_user_by_email (body_get req "email") (w_db w)) as [|[ur pr] l]; [done|].
  cbn [fst snd].
  destruct (p_status pr); cbv beta iota delta [negb]; [|intros H; discriminate H].
  destruct (body_get req "password") as [| | | |pw]; try (intros H; discriminate H).
  destruct (bcrypt_compare env pw (u_password_hash ur)); cbv beta iota delta [negb];
    [|intros H; discriminate H].
  intros H Hdata. inversion H; subst res w'. simpl in Hdata.
  inversion Hdata; subst. eexists. reflexivity.
Qed.

(** C9.  [formatUserResponse] returns the fields of its argument without the
    key [password_hash], every other field unchanged; and whenever the login
    route answers with a user object, that object has no [password_hash],
    whatever the tables hold. *)
Theorem formatUserResponse_spec (user : gmap string Js.value) :
  formatUserResponse user !! "password_hash" = None
  /\ (forall k, k <> "password_hash" -> formatUserResponse user !! k = user !! k)
  /\ dom (formatUserResponse user) = dom user ∖ {["password_hash"]}
  /\ (forall env req w res w' obj token refreshToken,
        serve (login_route env) req w = (res, w') ->
        res_data res = LoginData obj token refreshToken ->
        obj !! "password_hash" = None).
Proof.
  split; [|split; [|split]].
  - apply lookup_delete_eq.
  - intros k Hk. by apply lookup_delete_ne.
  - unfold formatUserResponse. apply dom_delete_L.
  - intros env req w res w' obj token refreshToken Hserve Hdata.
    unfold serve, login_route in Hserve. cbn [run_chain] in Hserve.
    run_monad_in Hserve.
    unfold validateLogin in Hserve.
    match type of Hserve with
    | context [handleValidationErrors ?errs ?r w] =>
        destruct (handleValidationErrors_step errs r w) as [[e He] | Hn];
          [rewrite He in Hserve | rewrite Hn in Hserve]
    end.
    + inversion Hserve; subst res w'. simpl in Hdata. done.
    + match type of Hserve with
      | context [login_handler env ?r w] =>
          destruct (login_handler env r w) as [[e|[req''|res0]] w1] eqn:Hlogin
      end.
      * inversion Hserve; subst res w'. simpl in Hdata. done.
      * unfold throw in Hserve. inversion Hserve; subst res w'. simpl in Hdata. done.
      * inversion Hserve; subst res0 w1.
        destruct (login_handler_user _ _ _ _ _ _ _ _ Hlogin Hdata) as [base ->].
        apply lookup_delete_eq.
Qed.

(** ** C8: pagination of the listings *)





(** [Math.ceil(total / limit)] is the least number of pages of [limit] rows
    that hold [total] rows. *)
Lemma ceil_div_spec (total limit : Z) :
  0 < limit ->
  (Js.ceil_div total limit - 1) * limit < total <= Js.ceil_div total limit * limit.
Proof.
  intros Hl. unfold Js.ceil_div.
  pose proof (Z.div_mod (- total) limit ltac:(lia)) as Hdm.
  pose proof (Z.mod_pos_bound (- total) limit Hl) as Hb.
  nia.
Qed.




(** ** C10: file names and the upload directory *)

Lemma split_nonempty (sep : ascii) (s : string) : exists h t, Js.split sep s = h :: t.
Proof.
  induction s as [|c s (h & t & IH)]; simpl; [eauto|].
  destruct (Ascii.eqb c sep); [eauto|]. rewrite IH. eauto.
Qed.

Lemma split_app_sep (sep : ascii) (a b : string) :
  Js.split sep (a +:+ String sep b) = Js.split sep a ++ Js.split sep b.
Proof.
  induction a as [|c a IH].
  - rewrite append_nil_l. simpl. by rewrite Ascii.eqb_refl.
  - rewrite append_cons. simpl. rewrite IH.
    destruct (Ascii.eqb c sep); [done|].
    destruct (split_nonempty sep a) as (h & t & ->). done.
Qed.

Lemma includes_cons_false (c : ascii) (s m : string) :
  Js.includes (String c s) m = false ->
  String.prefix m (String c s) = false /\ Js.includes s m = false.
Proof. cbn [Js.includes]. apply orb_false_iff. Qed.

Lemma prefix_one (c d : ascii) (s : string) :
  String.prefix (String c "") (String d s) = if ascii_dec c d then true else false.
Proof. simpl. destruct (ascii_dec c d); [by destruct s | done]. Qed.

Lemma split_no_sep (sep : ascii) (s : string) :
  Js.includes s (String sep "") = false -> Js.split sep s = [s].
Proof.
  induction s as [|c s IH]; intros H; [done|].
  apply includes_cons_false in H as [Hp Hs]. simpl in Hp.
  simpl. destruct (ascii_dec sep c) as [->|Hne].
  - by destruct s.
  - destruct (Ascii.eqb_spec c sep) as [->|_]; [done|]. by rewrite (IH Hs).
Qed.

Lemma includes_refl (m : string) : Js.includes m m = true.
Proof. destruct m; cbn [Js.includes]; by rewrite prefix_refl. Qed.

Lemma normalize_segments_app (allow : bool) (l1 l2 acc : list string) :
  Path.normalize_segments allow (l1 ++ l2) acc
  = Path.normalize_segments allow l2 (rev (Path.normalize_segments allow l1 acc)).
Proof.
  revert acc. induction l1 as [|seg l1 IH]; intros acc.
  - simpl. by rewrite rev_involutive.
  - simpl. destruct (String.eqb seg "" || String.eqb seg "."); [apply IH|].
    destruct (String.eqb seg ".."); [|apply IH].
    destruct acc as [|top acc]; [destruct allow; apply IH|].
    destruct (String.eqb top ".."); apply IH.
Qed.

Lemma upload_dir_nonempty (env : Env) : upload_dir env <> "".
Proof.
  unfold upload_dir. destruct (UPLOAD_DIR env) as [s|]; [|done].
  destruct (String.eqb_spec s ""); done.
Qed.

Lemma invalid_filename_false (filename : string) :
  invalid_filename filename = false ->
  filename <> "" /\ filename <> ".." /\ Js.includes filename "/" = false
  /\ Js.includes filename "\" = false /\ Js.includes filename ".." = false.
Proof.
  unfold invalid_filename. intros H.
  apply orb_false_iff in H as [H Hb]. apply orb_false_iff in H as [H Hs].
  apply orb_false_iff in H as [He Hd].
  apply String.eqb_neq in He. repeat split; try done.
  intros ->. by rewrite includes_refl in Hd.
Qed.

(** The path of a valid file name: the upload directory, then at most that
    one segment. *)
Lemma upload_path_segments (env : Env) (filename : string) :
  invalid_filename filename = false ->
  upload_path env filename = Path.normalize (upload_dir env +:+ "/" +:+ filename)
  /\ Js.split "/" filename = [filename]
  /\ path_segments (upload_dir env +:+ "/" +:+ filename)
     = path_segments (upload_dir env) ++ (if String.eqb filename "." then [] else [filename]).
Proof.
  intros Hvalid.
  destruct (invalid_filename_false filename Hvalid) as (Hne & Hdd & Hslash & _ & _).
  pose proof (upload_dir_nonempty env) as Hdir.
  split; [|split].
  - unfold upload_path, Path.join. rewrite !filter_cons, filter_nil.
    apply String.eqb_neq in Hne. apply String.eqb_neq in Hdir.
    rewrite Hne, Hdir. simpl negb.
    rewrite !decide_True by done. simpl Js.join.
    destruct filename; [done|reflexivity].
  - by apply split_no_sep.
  - unfold path_segments.
    assert (Habs : Js.startsWith (upload_dir env +:+ "/" +:+ filename) "/"
                   = Js.startsWith (upload_dir env) "/").
    { destruct (upload_dir env) as [|c s]; [done|]. rewrite append_cons.
      unfold Js.startsWith. by rewrite !prefix_one. }
    rewrite Habs.
    change (upload_dir env +:+ "/" +:+ filename)
      with (upload_dir env +:+ String "/" filename).
    rewrite split_app_sep, (split_no_sep "/" filename Hslash), normalize_segments_app.
    simpl. apply String.eqb_neq in Hne. apply String.eqb_neq in Hdd.
    rewrite Hne, Hdd. simpl.
    rewrite rev_involutive.
    destruct (String.eqb filename "."); [by rewrite app_nil_r | done].
Qed.

Ltac confined_by_cases :=
  eexists; split;
  [ simpl; rewrite <- ?app_assoc; reflexivity
  | split; [ repeat constructor
           | split; [ intros; congruence
                    | intros p Hp; simpl; try reflexivity;
                      by rewrite lookup_delete_ne ] ] ].

Lemma confined_refl (env : Env) (req : Request) (w w' : World) :
  w_fs_calls w' = w_fs_calls w -> w_fs w' = w_fs w -> fs_calls_confined env req w w'.
Proof.
  intros Hc Hf. exists []. rewrite app_nil_r, Hf. repeat split; done.
Qed.

Lemma delete_file_handler_confined (env : Env) (req : Request) (w : World) :
  fs_calls_confined env req w (snd (delete_file_handler env req w)).
Proof.
  unfold delete_file_handler. run_monad.
  destruct (invalid_filename (req_param req)) eqn:Hinv; [by apply confined_refl|].
  fold (upload_path env (req_param req)).
  unfold fs_access, fs_unlink, not_found_on_enoent. cbn [w_fs add_fs_call].
  destruct (w_fs w !! upload_path env (req_param req)) as [f|] eqn:Hf;
    cbv beta iota; cbn [w_fs add_fs_call]; rewrite ?Hf.
  - destruct (f_removable f); confined_by_cases.
  - confined_by_cases.
Qed.

Lemma file_info_handler_confined (env : Env) (req : Request) (w : World) :
  fs_calls_confined env req w (snd (file_info_handler env req w)).
Proof.
  unfold file_info_handler. run_monad.
  destruct (invalid_filename (req_param req)) eqn:Hinv; [by apply confined_refl|].
  fold (upload_path env (req_param req)).
  unfold fs_stat, not_found_on_enoent. cbn [w_fs add_fs_call].
  destruct (w_fs w !! upload_path env (req_param req)) as [f|] eqn:Hf;
    cbv beta iota; cbn [w_fs add_fs_call]; rewrite ?Hf; confined_by_cases.
Qed.

Lemma view_file_handler_confined (env : Env) (req : Request) (w : World) :
  fs_calls_confined env req w (snd (view_file_handler env req w)).
Proof.
  unfold view_file_handler. run_monad.
  destruct (invalid_filename (req_param req)) eqn:Hinv; [by apply confined_refl|].
  fold (upload_path env (req_param req)).
  unfold fs_access, fs_stat, fs_createReadStream, not_found_on_enoent.
  cbn [w_fs add_fs_call].
  destruct (w_fs w !! upload_path env (req_param req)) as [f|] eqn:Hf;
    cbv beta iota; cbn [w_fs add_fs_call]; rewrite ?Hf; confined_by_cases.
Qed.

Lemma verifyToken_quiet (env : Env) : quiet_guard (verifyToken env).
Proof.
  intros req w. rewrite verifyToken_run.
  destruct (bearer_token req) as [token|]; [|left; eauto].
  destruct (jwt_verify env token) as [e|payload].
  - destruct (String.eqb (exn_name e) "JsonWebTokenError"); [left; eauto|].
    destruct (String.eqb (exn_name e) "TokenExpiredError"); left; eauto.
  - destruct (select_active_user (jwt_userId payload) (w_db w)); [left; eauto|].
    right. eexists. split; reflexivity.
Qed.

Lemma requireAdminOrManager_quiet : quiet_guard requireAdminOrManager.
Proof.
  intros req w. unfold requireAdminOrManager.
  destruct (req_user req) as [u|]; [|left; eexists; reflexivity].
  destruct (negb (existsb (String.eqb (id_role u)) ["administrador"; "gerente"]));
    [left; eexists; reflexivity | right; eexists; split; reflexivity].
Qed.

Lemma serve_handler_confined (env : Env) (h : Middleware) :
  (forall req w, fs_calls_confined env req w (snd (h req w))) ->
  forall req w, fs_calls_confined env req w (snd (serve [h] req w)).
Proof.
  intros H req w. specialize (H req w). unfold serve. cbn [run_chain]. run_monad.
  destruct (h req w) as [[e|[req'|res]] w']; exact H.
Qed.

Lemma serve_guard_confined (env : Env) (mw : Middleware) (rest : list Middleware) :
  quiet_guard mw ->
  (forall req w, fs_calls_confined env req w (snd (serve rest req w))) ->
  forall req w, fs_calls_confined env req w (snd (serve (mw :: rest) req w)).
Proof.
  intros Hq H req w. destruct (Hq req w) as [[e He] | (req' & Hn & Hparam)].
  - rewrite (serve_throw _ _ _ _ _ _ He). by apply confined_refl.
  - rewrite (serve_next _ _ _ _ _ _ Hn). specialize (H req' w).
    unfold fs_calls_confined in *. by rewrite Hparam in H.
Qed.

Lemma invalid_filename_throws (env : Env) (req : Request) (w : World) :
  invalid_filename (req_param req) = true ->
  delete_file_handler env req w = (inl INVALID_FILENAME, w)
  /\ file_info_handler env req w = (inl INVALID_FILENAME, w)
  /\ view_file_handler env req w = (inl INVALID_FILENAME, w).
Proof.
  intros H. unfold delete_file_handler, file_info_handler, view_file_handler. run_monad.
  by rewrite H.
Qed.

(** C10.  On the delete, info and view routes a file name that is empty or
    contains [..], [/] or a backslash is refused with the 400 error
    INVALID_FILENAME and no file-system call is made; every call the routes
    make is on the join of the upload directory and the file name, no other
    file changes, and for a name that passes the check that path normalizes
    to the segments of the upload directory followed by the name as a single
    segment (by nothing for the name [.]), so it stays below the upload
    directory. *)
Theorem filename_guard_spec (env : Env) (req : Request) (w : World) :
  let filename := req_param req in
  (invalid_filename filename = true ->
     delete_file_handler env req w = (inl INVALID_FILENAME, w)
     /\ file_info_handler env req w = (inl INVALID_FILENAME, w)
     /\ view_file_handler env req w = (inl INVALID_FILENAME, w)
     /\ (forall u, authenticated_as env req w u ->
           rejected_unchanged (serve (view_file_route env) req w) w 400 "INVALID_FILENAME"
           /\ (admin_or_manager u ->
                 rejected_unchanged (serve (delete_file_route env) req w) w
                   400 "INVALID_FILENAME"
                 /\ rejected_unchanged (serve (file_info_route env) req w) w
                      400 "INVALID_FILENAME")))
  /\ fs_calls_confined env req w (snd (serve (delete_file_route env) req w))
  /\ fs_calls_confined env req w (snd (serve (file_info_route env) req w))
  /\ fs_calls_confined env req w (snd (serve (view_file_route env) req w))
  /\ (invalid_filename filename = false ->
        upload_path env filename = Path.normalize (upload_dir env +:+ "/" +:+ filename)
        /\ Js.split "/" filename = [filename] /\ filename <> ".."
        /\ path_segments (upload_dir env +:+ "/" +:+ filename)
           = path_segments (upload_dir env)
             ++ (if String.eqb filename "." then [] else [filename])).
Proof.
  intros filename. split; [|split; [|split; [|split]]].
  - intros Hinv. subst filename.
    split; [apply (invalid_filename_throws env req w Hinv)|].
    split; [apply (invalid_filename_throws env req w Hinv)|].
    split; [apply (invalid_filename_throws env req w Hinv)|].
    intros u Hauth.
    destruct (invalid_filename_throws env (set_user u req) w Hinv) as (Hd & Hi & Hv).
    split.
    + unfold view_file_route. rewrite (serve_next _ _ _ _ _ _ Hauth). reject_with Hv.
    + intros Hrole. unfold delete_file_route, file_info_route.
      rewrite !(serve_next _ _ _ _ _ _ Hauth).
      rewrite !(serve_next _ _ _ _ _ _
                  (requireAdminOrManager_pass (set_user u req) w u eq_refl Hrole)).
      split; [reject_with Hd | reject_with Hi].
  - apply serve_guard_confined; [apply verifyToken_quiet|].
    apply serve_guard_confined; [apply requireAdminOrManager_quiet|].
    apply serve_handler_confined, delete_file_handler_confined.
  - apply serve_guard_confined; [apply verifyToken_quiet|].
    apply serve_guard_confined; [apply requireAdminOrManager_quiet|].
    apply serve_handler_confined, file_info_handler_confined.
  - apply serve_guard_confined; [apply verifyToken_quiet|].
    apply serve_handler_confined, view_file_handler_confined.
  - intros Hvalid. destruct (upload_path_segments env filename Hvalid) as (H1 & H2 & H3).
    destruct (invalid_filename_false filename Hvalid) as (_ & Hdd & _).
    done.
Qed.

(** ** C7: receipt files on update, deletion and removal *)

Lemma delete_receipt_file_run (env : Env) (url okPrefix : string) (w : World) :
  let path := receipt_path env url in
  let probed := add_fs_call (FsExists path) w in
  delete_receipt_file env url okPrefix w =
  match w_fs w !! path with
  | None => (inr tt, probed)
  | Some f =>
      if f_removable f
      then (inr tt, add_console (okPrefix +:+ Js.pop (Js.split "/" url))
                      (set_fs (delete path (w_fs w)) (add_fs_call (FsUnlink path) probed)))
      else (inl EPERM, add_fs_call (FsUnlink path) probed)
  end.
Proof.
  intros path probed. unfold delete_receipt_file. fold (receipt_path env url). fold path.
  run_monad. unfold fs_existsSync, fs_unlink. fold probed.
  destruct (w_fs w !! path) as [f|] eqn:Hf.
  - rewrite bool_decide_true by (by eexists).
    change (w_fs probed) with (w_fs w). rewrite Hf.
    destruct (f_removable f); reflexivity.
  - rewrite bool_decide_false by (by intros [? ?]). reflexivity.
Qed.

(** Best effort: with the failure caught, the clean-up never throws. *)
Lemma cleanup_run (env : Env) (url okPrefix errLine : string) (w : World) :
  try_catch (delete_receipt_file env url okPrefix) (fun _ => console_log errLine) w
  = (inr tt, after_cleanup env url okPrefix errLine w).
Proof.
  unfold try_catch, after_cleanup. rewrite delete_receipt_file_run. cbv zeta.
  destruct (w_fs w !! receipt_path env url) as [f|]; [|reflexivity].
  destruct (f_removable f); reflexivity.
Qed.

Lemma after_cleanup_db (env : Env) (url okPrefix errLine : string) (w : World) :
  w_db (after_cleanup env url okPrefix errLine w) = w_db w
  /\ w_now (after_cleanup env url okPrefix errLine w) = w_now w.
Proof.
  unfold after_cleanup.
  destruct (w_fs w !! receipt_path env url) as [f|]; [|done].
  by destruct (f_removable f).
Qed.

Lemma after_cleanup_deletable (env : Env) (url okPrefix errLine : string) (w : World) :
  file_deletable w (receipt_path env url) ->
  w_fs (after_cleanup env url okPrefix errLine w) = delete (receipt_path env url) (w_fs w)
  /\ w_fs (after_cleanup env url okPrefix errLine w) !! receipt_path env url = None
  /\ In (FsUnlink (receipt_path env url))
        (w_fs_calls (after_cleanup env url okPrefix errLine w)).
Proof.
  intros (f & Hf & Hr). unfold after_cleanup. rewrite Hf, Hr. simpl.
  split; [done|]. split; [apply lookup_delete_eq|].
  apply in_or_app. right. by left.
Qed.

Lemma after_cleanup_undeletable (env : Env) (url okPrefix errLine : string) (w : World) :
  file_undeletable w (receipt_path env url) ->
  w_fs (after_cleanup env url okPrefix errLine w) = w_fs w
  /\ w_console (after_cleanup env url okPrefix errLine w) = w_console w ++ [errLine]
  /\ In (FsUnlink (receipt_path env url))
        (w_fs_calls (after_cleanup env url okPrefix errLine w)).
Proof.
  intros (f & Hf & Hr). unfold after_cleanup. rewrite Hf, Hr. simpl.
  split; [done|]. split; [done|]. apply in_or_app. right. by left.
Qed.

Lemma value_eqb_neq (v : Js.value) (s : string) :
  v <> Js.Str s -> Js.value_eqb v (Js.Str s) = false.
Proof.
  intros H. destruct (Js.value_eqb v (Js.Str s)) eqn:He; [|done].
  apply value_eqb_Str in He. done.
Qed.

Section StoredReceipt.

(** A transaction of the table with a stored, non-empty receipt URL. *)
Context (env : Env) (req : Request) (w : World).
Context (t : TransactionRow) (rest : list TransactionRow) (url : string).
Hypothesis Hsel : select_transaction (req_param req) (w_db w) = t :: rest.
Hypothesis Hurl : t_receipt_url t = Some url.
Hypothesis Hne : url <> "".

Lemma url_nonempty : String.eqb url "" = false.
Proof. by apply String.eqb_neq. Qed.

Lemma update_handler_replace :
  category_refs_ok req w ->
  replaces_url (body_get req "comprovativo_url") url ->
  let w1 := after_cleanup env url "Deleted old receipt file: "
              "Error deleting old receipt file:" w in
  update_transaction_handler env req w
  = (inr (Send (ok_json "Transaction updated successfully"
                  (TransactionData
                     (head (select_transaction (req_param req) (updated_transactions req w)))))),
     set_db (updated_transactions req w) w1).
Proof.
  intros Hrefs [Htruthy Hdiff] w1.
  unfold update_transaction_handler. run_monad. rewrite Hsel.
  unfold category_refs_ok in Hrefs. rewrite Hrefs. rewrite Hurl.
  cbv beta iota delta [url_truthy default from_option id].
  rewrite url_nonempty, Htruthy, (value_eqb_neq _ _ Hdiff).
  cbv beta iota delta [andb negb].
  pose proof (cleanup_run env url "Deleted old receipt file: "
                "Error deleting old receipt file:" w) as Hc.
  run_monad_in Hc. rewrite Hc. fold w1.
  assert (Hnot : is_null (body_get req "comprovativo_url")
                 || is_empty_string (body_get req "comprovativo_url") = false).
  { destruct (body_get req "comprovativo_url") as [| | | |s]; try done.
    simpl in *. by destruct (String.eqb s ""). }
  rewrite Hnot. cbv beta iota delta [andb].
  destruct (after_cleanup_db env url "Deleted old receipt file: "
              "Error deleting old receipt file:" w) as [Hdb Hnow].
  fold w1 in Hdb, Hnow. unfold updated_transactions. rewrite Hdb, Hnow. reflexivity.
Qed.

Lemma update_handler_remove :
  category_refs_ok req w ->
  removes_url (body_get req "comprovativo_url") ->
  let w1 := after_cleanup env url "Deleted receipt file: " "Error deleting receipt file:" w in
  update_transaction_handler env req w
  = (inr (Send (ok_json "Transaction updated successfully"
                  (TransactionData
                     (head (select_transaction (req_param req) (updated_transactions req w)))))),
     set_db (updated_transactions req w) w1).
Proof.
  intros Hrefs Hrem w1.
  unfold update_transaction_handler. run_monad. rewrite Hsel.
  unfold category_refs_ok in Hrefs. rewrite Hrefs. rewrite Hurl.
  cbv beta iota delta [url_truthy default from_option id].
  rewrite url_nonempty.
  pose proof (cleanup_run env url "Deleted receipt file: "
                "Error deleting receipt file:" w) as Hc.
  run_monad_in Hc.
  destruct (after_cleanup_db env url "Deleted receipt file: "
              "Error deleting receipt file:" w) as [Hdb Hnow].
  fold w1 in Hdb, Hnow. unfold updated_transactions.
  destruct Hrem as [Hv|Hv]; rewrite Hv in *; simpl; rewrite Hc; fold w1;
    rewrite Hdb, Hnow; reflexivity.
Qed.

Lemma delete_handler_run :
  let w1 := after_cleanup env url "Deleted receipt file: " "Error deleting receipt file:" w in
  delete_transaction_handler env req w
  = (inr (Send (ok_json "Transaction and associated receipt deleted successfully" NoData)),
     set_db (delete_transaction_row (req_param req) (w_db w)) w1).
Proof.
  intros w1.
  unfold delete_transaction_handler. run_monad. rewrite Hsel, Hurl.
  cbv beta iota delta [url_truthy default from_option id].
  rewrite url_nonempty. cbv beta iota delta [negb].
  pose proof (cleanup_run env url "Deleted receipt file: "
                "Error deleting receipt file:" w) as Hc.
  run_monad_in Hc. rewrite Hc. fold w1.
  destruct (after_cleanup_db env url "Deleted receipt file: "
              "Error deleting receipt file:" w) as [Hdb _].
  fold w1 in Hdb. rewrite Hdb. reflexivity.
Qed.

Lemma remove_file_handler_fail :
  file_undeletable w (receipt_path env url) ->
  remove_transaction_file_handler env req w
  = (inl (AppError "Failed to delete file" 500 "FILE_DELETE_ERROR"),
     add_console "Error deleting receipt file:"
       (add_fs_call (FsUnlink (receipt_path env url))
          (add_fs_call (FsExists (receipt_path env url)) w))).
Proof.
  intros (f & Hf & Hr).
  unfold remove_transaction_file_handler. run_monad. rewrite Hsel, Hurl.
  cbv beta iota delta [url_truthy default from_option id].
  rewrite url_nonempty. cbv beta iota delta [negb].
  rewrite delete_receipt_file_run. cbv zeta. rewrite Hf, Hr. reflexivity.
Qed.

Lemma remove_file_handler_ok :
  ~ file_undeletable w (receipt_path env url) ->
  let w1 := after_cleanup env url "Deleted receipt file: " "Error deleting receipt file:" w in
  remove_transaction_file_handler env req w
  = (inr (Send (ok_json "File removed successfully" NoData)),
     set_db (clear_receipt_url (req_param req) (w_now w) (w_db w)) w1).
Proof.
  intros Hok w1.
  unfold remove_transaction_file_handler. run_monad. rewrite Hsel, Hurl.
  cbv beta iota delta [url_truthy default from_option id].
  rewrite url_nonempty. cbv beta iota delta [negb].
  rewrite delete_receipt_file_run. cbv zeta.
  subst w1. unfold after_cleanup, file_undeletable in *.
  destruct (w_fs w !! receipt_path env url) as [f|]; [|reflexivity].
  destruct (f_removable f) eqn:Hr; [reflexivity|].
  exfalso. apply Hok. eauto.
Qed.

(** C7, as the code has it.  For a transaction with a stored receipt URL:
    when the update supplies another non-empty URL, or supplies [null] or
    the empty string, the deletion of the stored file is attempted and the
    row is updated whether or not it succeeds, a failure being logged; the
    deletion of the transaction does the same and removes the row; on the
    remove-file endpoint a failing deletion is answered 500
    FILE_DELETE_ERROR and the stored URL stays. *)
Theorem receipt_cleanup_spec :
  let id := req_param req in
  let new := body_get req "comprovativo_url" in
  let path := receipt_path env url in
  (category_refs_ok req w -> replaces_url new url \/ removes_url new ->
     exists w',
       serve [update_transaction_handler env] req w
       = (ok_json "Transaction updated successfully"
            (TransactionData (head (select_transaction id (w_db w')))), w')
       /\ w_db w' = updated_transactions req w
       /\ (file_deletable w path -> w_fs w' !! path = None)
       /\ (file_undeletable w path ->
             w_fs w' = w_fs w /\ In (FsUnlink path) (w_fs_calls w')
             /\ exists line, w_console w' = w_console w ++ [line]
                             /\ (line = "Error deleting old receipt file:"
                                 \/ line = "Error deleting receipt file:")))
  /\ (exists w',
        serve [delete_transaction_handler env] req w
        = (ok_json "Transaction and associated receipt deleted successfully" NoData, w')
        /\ w_db w' = delete_transaction_row id (w_db w)
        /\ (file_deletable w path -> w_fs w' !! path = None)
        /\ (file_undeletable w path ->
              w_fs w' = w_fs w /\ In (FsUnlink path) (w_fs_calls w')
              /\ w_console w' = w_console w ++ ["Error deleting receipt file:"]))
  /\ (file_undeletable w path ->
        rejected_unchanged (serve [remove_transaction_file_handler env] req w) w
          500 "FILE_DELETE_ERROR"
        /\ select_transaction id
             (w_db (snd (serve [remove_transaction_file_handler env] req w))) = t :: rest)
  /\ (~ file_undeletable w path ->
        exists w',
          serve [remove_transaction_file_handler env] req w
          = (ok_json "File removed successfully" NoData, w')
          /\ w_db w' = clear_receipt_url id (w_now w) (w_db w)).
Proof.
  intros id new path. split; [|split; [|split]].
  - intros Hrefs [Hrep|Hrem].
    + pose proof (update_handler_replace Hrefs Hrep) as Hrun.
      cbv zeta in Hrun.
      exists (set_db (updated_transactions req w)
                (after_cleanup env url "Deleted old receipt file: "
                   "Error deleting old receipt file:" w)).
      split; [apply serve_send; exact Hrun|].
      split; [reflexivity|]. split.
      * intros Hd. by apply after_cleanup_deletable.
      * intros Hu.
        destruct (after_cleanup_undeletable env url "Deleted old receipt file: "
                    "Error deleting old receipt file:" w Hu) as (H1 & H2 & H3).
        split; [done|]. split; [done|]. eexists. split; [exact H2 | by left].
    + pose proof (update_handler_remove Hrefs Hrem) as Hrun.
      cbv zeta in Hrun.
      exists (set_db (updated_transactions req w)
                (after_cleanup env url "Deleted receipt file: "
                   "Error deleting receipt file:" w)).
      split; [apply serve_send; exact Hrun|].
      split; [reflexivity|]. split.
      * intros Hd. by apply after_cleanup_deletable.
      * intros Hu.
        destruct (after_cleanup_undeletable env url "Deleted receipt file: "
                    "Error deleting receipt file:" w Hu) as (H1 & H2 & H3).
        split; [done|]. split; [done|]. eexists. split; [exact H2 | by right].
  - pose proof delete_handler_run as Hrun.
    cbv zeta in Hrun.
    exists (set_db (delete_transaction_row (req_param req) (w_db w))
              (after_cleanup env url "Deleted receipt file: "
                 "Error deleting receipt file:" w)).
    split; [apply serve_send; exact Hrun|].
    split; [reflexivity|]. split.
    + intros Hd. by apply after_cleanup_deletable.
    + intros Hu.
      destruct (after_cleanup_undeletable env url "Deleted receipt file: "
                  "Error deleting receipt file:" w Hu) as (H1 & H2 & H3).
      done.
  - intros Hu.
    pose proof (remove_file_handler_fail Hu) as Hrun.
    rewrite (serve_throw _ _ _ _ _ _ Hrun). split; [|exact Hsel].
    unfold rejected_unchanged. simpl. done.
  - intros Hok.
    pose proof (remove_file_handler_ok Hok) as Hrun.
    cbv zeta in Hrun. eexists. split; [apply serve_send; exact Hrun|].
    reflexivity.
Qed.

End StoredReceipt.

Lemma validateTransactionId_pass (req : Request) (w : World) :
  matches_txn_id (req_param req) = true -> validateTransactionId req w = (inr (Next req), w).
Proof. intros H. unfold validateTransactionId. rewrite H. reflexivity. Qed.

(** The transaction routes reach the handlers of C7 once their guards let
    the request through; the update handler receives the request as
    [validateTransaction] rewrote it, same parameter and same receipt field. *)
Lemma transaction_routes_reach_handlers (env : Env) (req : Request) (w : World)
    (u : Identity) :
  authenticated_as env req w u -> admin_or_manager u ->
  matches_txn_id (req_param req) = true ->
  serve (delete_transaction_route env) req w
  = serve [delete_transaction_handler env] (set_user u req) w
  /\ serve (remove_transaction_file_route env) req w
     = serve [remove_transaction_file_handler env] (set_user u req) w
  /\ (forall req', validateTransaction env (set_user u req) w = (inr (Next req'), w) ->
        serve (update_transaction_route env) req w
        = serve [update_transaction_handler env] req' w
        /\ req_param req' = req_param req
        /\ body_get req' "comprovativo_url" = body_get req "comprovativo_url").
Proof.
  intros Hauth Hrole Hid.
  unfold delete_transaction_route, remove_transaction_file_route, update_transaction_route.
  rewrite !(serve_next _ _ _ _ _ _ Hauth).
  rewrite !(serve_next _ _ _ _ _ _
              (requireAdminOrManager_pass (set_user u req) w u eq_refl Hrole)).
  rewrite !(serve_next _ _ _ _ _ _ (validateTransactionId_pass (set_user u req) w Hid)).
  split; [reflexivity|]. split; [reflexivity|].
  intros req' Hvalid. split; [by rewrite (serve_next _ _ _ _ _ _ Hvalid)|].
  unfold validateTransaction in Hvalid.
  match type of Hvalid with
  | handleValidationErrors ?errs ?r w = _ =>
      destruct (handleValidationErrors_step errs r w) as [[e He] | Hn];
        [rewrite He in Hvalid; discriminate Hvalid | rewrite Hn in Hvalid]
  end.
  inversion Hvalid; subst req'. split; [reflexivity|].
  unfold body_get. simpl. by rewrite lookup_insert_ne.
Qed.

(** ** The theorems on the concrete installation *)

Lemma sample_ids_well_formed : Forall well_formed_txn_id (txn_ids sample_world).
Proof. repeat constructor; vm_compute; reflexivity. Defined.

Lemma sample_max_suffix : max_suffix (txn_ids sample_world) 45.
Proof.
  split.
  - exists "txn-045". split; [right; left; reflexivity | reflexivity].
  - intros id [<-|[<-|[]]]; vm_compute; discriminate.
Defined.

(** With the ids txn-007 and txn-045 in the table the next id is txn-046. *)
Lemma generateNextTransactionId_witness :
  Forall well_formed_txn_id (txn_ids sample_world)
  /\ generateNextTransactionId sample_world = (inr "txn-046", sample_world).
Proof.
  split; [exact sample_ids_well_formed|].
  destruct (generateNextTransactionId_spec sample_world sample_ids_well_formed)
    as (_ & _ & H45 & _).
  exact (H45 sample_max_suffix).
Defined.

(** The greatest suffix is the greatest number, not the last string: after
    txn-9 and txn-10 comes txn-011. *)
Example next_id_numeric_order :
  generateNextTransactionId
    (mkWorld (mkDb [] [] [] [] [sample_transaction "txn-9" Js.Null Js.Null None;
                                sample_transaction "txn-10" Js.Null Js.Null None])
       ∅ [] [] 0)
  = (inr "txn-011",
     mkWorld (mkDb [] [] [] [] [sample_transaction "txn-9" Js.Null Js.Null None;
                                sample_transaction "txn-10" Js.Null Js.Null None])
       ∅ [] [] 0).
Proof. reflexivity. Qed.


Lemma manager_authenticated (param : string) (body : gmap string Js.value) (w : World) :
  w_db w = sample_db ->
  authenticated_as sample_env (request_as "manager-token" param body) w manager_identity.
Proof.
  intros Hdb. unfold authenticated_as. rewrite verifyToken_run.
  change (bearer_token (request_as "manager-token" param body)) with (Some "manager-token").
  change (jwt_verify sample_env "manager-token") with
    (inr (mkJwt manager_id "access") : Exn + JwtPayload).
  cbv beta iota. rewrite Hdb. reflexivity.
Defined.





Lemma locked_receipt : file_undeletable locked_world (receipt_path sample_env "/uploads/old.pdf").
Proof. exists (mkFile 2048 false). split; reflexivity. Defined.

(** The old receipt cannot be removed: the update and the deletion go
    through and log the failure, the remove-file endpoint answers 500. *)
Lemma receipt_cleanup_witness :
  (exists w',
     serve [update_transaction_handler sample_env] update_with_new_receipt locked_world
     = (ok_json "Transaction updated successfully"
          (TransactionData (head (select_transaction "txn-007" (w_db w')))), w')
     /\ w_db w' = updated_transactions update_with_new_receipt locked_world
     /\ w_fs w' = w_fs locked_world
     /\ w_console w' = ["Error deleting old receipt file:"])
  /\ (exists w',
        serve [delete_transaction_handler sample_env] update_with_new_receipt locked_world
        = (ok_json "Transaction and associated receipt deleted successfully" NoData, w')
        /\ w_db w' = delete_transaction_row "txn-007" sample_db
        /\ w_console w' = ["Error deleting receipt file:"])
  /\ rejected_unchanged
       (serve [remove_transaction_file_handler sample_env] update_with_new_receipt
          locked_world) locked_world 500 "FILE_DELETE_ERROR".
Proof.
  destruct (receipt_cleanup_spec sample_env update_with_new_receipt locked_world
              stored_txn_007 [] "/uploads/old.pdf" eq_refl eq_refl ltac:(discriminate))
    as (Hupd & Hdel & Hrem & _).
  split; [|split].
  - destruct Hupd as (w' & Hs & Hdb & _ & Hlocked).
    + reflexivity.
    + left. split; [reflexivity | discriminate].
    + destruct (Hlocked locked_receipt) as (Hfs & _ & line & Hcons & Hline).
      exists w'. split; [exact Hs|]. split; [exact Hdb|]. split; [exact Hfs|].
      rewrite Hcons. destruct Hline as [->|Hline]; [reflexivity|].
      exfalso. subst line.
      assert (Hc : w_console (snd (serve [update_transaction_handler sample_env]
                                     update_with_new_receipt locked_world))
                   = ["Error deleting receipt file:"]) by (rewrite Hs; exact Hcons).
      vm_compute in Hc. discriminate Hc.
  - destruct Hdel as (w' & Hs & Hdb & _ & Hlocked).
    destruct (Hlocked locked_receipt) as (_ & _ & Hcons).
    exists w'. split; [exact Hs|]. split; [exact Hdb | exact Hcons].
  - exact (proj1 (Hrem locked_receipt)).
Defined.

(** C7 as the specification words it fails on an update that leaves the
    receipt field out: the stored URL is cleared, the file could be deleted,
    and it is still there, no deletion having been attempted. *)
Lemma receipt_cleanup_counterexample :
  (let w' := snd (serve [update_transaction_handler sample_env] update_without_receipt
                    sample_world) in
   map t_receipt_url (select_transaction "txn-007" (w_db w')) = [None]
   /\ w_fs w' !! old_receipt_path = Some (mkFile 2048 true)
   /\ w_fs_calls w' = [] /\ w_console w' = [])
  /\ ~ update_cleanup_as_stated sample_env update_without_receipt sample_world.
Proof.
  split; [vm_compute; repeat split; reflexivity|].
  intros H.
  assert (Hfs : w_fs (snd (serve [update_transaction_handler sample_env]
                             update_without_receipt sample_world))
                !! receipt_path sample_env "/uploads/old.pdf" = None).
  { eapply (H stored_txn_007 [] "/uploads/old.pdf").
    - reflexivity.
    - reflexivity.
    - discriminate.
    - vm_compute. discriminate.
    - exists (mkFile 2048 true). split; reflexivity.
    - apply surjective_pairing. }
  vm_compute in Hfs. discriminate Hfs.
Qed.



(** A traversal attempt is refused before the disk is touched; a plain name
    is looked up below the upload directory. *)
Lemma filename_guard_witness :
  rejected_unchanged
    (serve (delete_file_route sample_env) (request_as "manager-token" "../old.pdf" ∅)
       sample_world) sample_world 400 "INVALID_FILENAME"
  /\ fs_calls_confined sample_env (request_as "manager-token" "../old.pdf" ∅) sample_world
       (snd (serve (delete_file_route sample_env) (request_as "manager-token" "../old.pdf" ∅)
               sample_world))
  /\ upload_path sample_env "a.pdf" = "uploads/a.pdf"
  /\ path_segments "uploads/a.pdf" = ["uploads"; "a.pdf"].
Proof.
  destruct (filename_guard_spec sample_env (request_as "manager-token" "../old.pdf" ∅)
              sample_world) as (Hinvalid & Hconfined & _).
  destruct (Hinvalid eq_refl) as (_ & _ & _ & Hroutes).
  destruct (Hroutes manager_identity
              (manager_authenticated "../old.pdf" ∅ sample_world eq_refl)) as (_ & Hmgr).
  destruct (Hmgr (or_intror eq_refl)) as (Hdelete & _).
  split; [exact Hdelete|]. split; [exact Hconfined|].
  destruct (filename_guard_spec sample_env (request_as "manager-token" "a.pdf" ∅)
              sample_world) as (_ & _ & _ & _ & Hvalid).
  destruct (Hvalid eq_refl) as (Hpath & _ & _ & Hsegs).
  split; [exact Hpath | exact Hsegs].
Defined.

(* ===================================================================== *)
(** * Further properties of the code *)
(* ===================================================================== *)

(** ** authMiddleware: the optional authentication and the role gates *)

Lemma optionalAuth_run (env : Env) (req : Request) (w : World) :
  optionalAuth env req w =
  match bearer_token req with
  | None => (inr (Next req), w)
  | Some token =>
      match jwt_verify env token with
      | inl e => (inr (Next req), w)
      | inr payload =>
          match select_active_user (jwt_userId payload) (w_db w) with
          | [] => (inr (Next req), w)
          | row :: _ => (inr (Next (set_user (identity_of row) req)), w)
          end
      end
  end.
Proof.
  unfold optionalAuth, bearer_token. run_monad.
  destruct (req_authorization req) as [h|]; [|reflexivity].
  cbv beta iota delta [header_missing default from_option id].
  destruct (String.eqb h ""); [reflexivity|].
  destruct (Js.startsWith h "Bearer "); [|reflexivity].
  cbv beta iota delta [orb andb negb].
  destruct (String.eqb (Js.substring_from 7 h) ""); [reflexivity|].
  destruct (jwt_verify env (Js.substring_from 7 h)) as [e|payload]; [reflexivity|].
  destruct (select_active_user (jwt_userId payload) (w_db w)); reflexivity.
Qed.

(** X1.  [optionalAuth] never rejects a request and never changes the world:
    it passes the request on, with the identity attached exactly when
    [verifyToken] would have accepted it, and untouched when [verifyToken]
    would have rejected it. *)
Theorem optionalAuth_never_rejects (env : Env) (req : Request) (w : World) :
  (exists req', optionalAuth env req w = (inr (Next req'), w)
                /\ (req' = req \/ exists u, req' = set_user u req))
  /\ (forall u, authenticated_as env req w u ->
        optionalAuth env req w = (inr (Next (set_user u req)), w))
  /\ ((exists e, verifyToken env req w = (inl e, w)) ->
        optionalAuth env req w = (inr (Next req), w)).
Proof.
  unfold authenticated_as. rewrite optionalAuth_run, verifyToken_run.
  destruct (bearer_token req) as [token|].
  2: { split; [eauto|]. split; [intros u H; discriminate H | done]. }
  destruct (jwt_verify env token) as [e|payload].
  { split; [eauto|]. split; [|done]. intros u.
    destruct (String.eqb (exn_name e) "JsonWebTokenError"); [intros H; discriminate H|].
    destruct (String.eqb (exn_name e) "TokenExpiredError"); intros H; discriminate H. }
  destruct (select_active_user (jwt_userId payload) (w_db w)) as [|row l].
  { split; [eauto|]. split; [intros u H; discriminate H | done]. }
  split; [eauto|]. split.
  - intros u H. inversion H as [Heq]. by rewrite Heq.
  - intros [e H]. discriminate H.
Qed.


(** X2.  The role gates agree with the predicates of authUtils: a request
    passes [requireAdmin] exactly when [isAdmin] holds of its user and
    [requireAdminOrManager] exactly when [isAdminOrManager] does; without a
    user both answer 401 AUTH_REQUIRED, with a user of another role 403
    ADMIN_REQUIRED and INSUFFICIENT_PERMISSIONS; whoever passes the first
    gate passes the second; the request and the world are left as they
    are. *)
Theorem role_gates_spec (req : Request) (w : World) :
  (requireAdmin req w = (inr (Next req), w) <-> isAdmin (req_user req) = true)
  /\ (requireAdminOrManager req w = (inr (Next req), w)
      <-> isAdminOrManager (req_user req) = true)
  /\ (req_user req = None ->
        requireAdmin req w = (inl AUTH_REQUIRED, w)
        /\ requireAdminOrManager req w = (inl AUTH_REQUIRED, w))
  /\ (forall u, req_user req = Some u ->
        (isAdmin (Some u) = false ->
           requireAdmin req w = (inl (AppError "Admin access required." 403 "ADMIN_REQUIRED"), w))
        /\ (isAdminOrManager (Some u) = false ->
              requireAdminOrManager req w
              = (inl (AppError "Admin or manager access required." 403
                        "INSUFFICIENT_PERMISSIONS"), w)))
  /\ (isAdmin (req_user req) = true -> isAdminOrManager (req_user req) = true).
Proof.
  unfold requireAdmin, requireAdminOrManager, isAdmin, isAdminOrManager, hasPermission.
  destruct (req_user req) as [u|].
  2: { repeat split; try done; intros H; discriminate H. }
  cbn [existsb]. rewrite !orb_false_r.
  assert (Hcases : id_role u = "" \/ id_role u = "administrador" \/ id_role u = "gerente"
                   \/ (String.eqb (id_role u) "" = false
                       /\ String.eqb (id_role u) "administrador" = false
                       /\ String.eqb (id_role u) "gerente" = false)).
  { destruct (String.eqb_spec (id_role u) ""); [tauto|].
    destruct (String.eqb_spec (id_role u) "administrador"); [tauto|].
    destruct (String.eqb_spec (id_role u) "gerente"); tauto. }
  destruct Hcases as [Hr | [Hr | [Hr | (H1 & H2 & H3)]]].
  all: repeat split;
    try match goal with H : Some _ = Some _ |- _ => injection H as <- end;
    rewrite ?Hr, ?H1, ?H2, ?H3; simpl; try done; try (intros H; discriminate H).
Qed.

(** ** errorMiddleware *)


Lemma translate_app_error (message : string) (status : Z) (code : string) :
  ~ In code driver_codes ->
  translate_error (AppError message status code) = AppError message status code.
Proof.
  intros Hcode. unfold translate_error, code_is. cbn [exn_code exn_name AppError].
  assert (H : forall c, In c driver_codes -> String.eqb code c = false).
  { intros c Hc. apply String.eqb_neq. intros ->. done. }
  rewrite !H by (simpl; tauto). reflexivity.
Qed.

(** X4.  An [AppError] whose code is none of the five driver and upload
    codes the handler replaces reaches the client as thrown: its status
    (500 for 0), its message ("Internal Server Error" for an empty one) and
    its code (INTERNAL_ERROR for an empty one).  The error of [notFound],
    built without a code, is answered 404 with the code INTERNAL_ERROR. *)
Theorem errorHandler_app_error (message : string) (status : Z) (code : string) (w : World) :
  (~ In code driver_codes ->
     errorHandler (AppError message status code) w
     = (mkRes (if status =? 0 then 500 else status) false
          (if String.eqb message "" then "Internal Server Error" else message)
          (Some (if String.eqb code "" then "INTERNAL_ERROR" else code)) NoData,
        add_console "Error:" w))
  /\ (forall originalUrl,
        errorHandler (notFound originalUrl) w
        = (mkRes 404 false ("Not found - " +:+ originalUrl) (Some "INTERNAL_ERROR") NoData,
           add_console "Error:" w)).
Proof.
  split.
  - intros Hcode. unfold errorHandler. rewrite (translate_app_error _ _ _ Hcode).
    cbn [exn_statusCode exn_message exn_code AppError]. by destruct status.
  - intros originalUrl. reflexivity.
Qed.

(** ** queryUtils: looking a resource up *)

(** X5.  [resourceExists] and [findResourceOrFail] agree and only read:
    the first answers [true] exactly when some row of the table has the id
    in the id column; then the second returns such a row, the first one in
    table order; otherwise the second throws a 404 [AppError] with the
    message and the code it was given. *)
Theorem findResourceOrFail_spec {R : Type} (table : Database -> list R)
    (idColumn : R -> string) (id errorMessage errorCode : string) (w : World) :
  let found := filter (fun r => String.eqb (idColumn r) id) (table (w_db w)) in
  (exists b, resourceExists table idColumn id w = (inr b, w)
             /\ (b = true <-> exists r, In r (table (w_db w)) /\ idColumn r = id))
  /\ ((exists r, In r (table (w_db w)) /\ idColumn r = id) ->
        exists r rest,
          found = r :: rest
          /\ findResourceOrFail table idColumn id errorMessage errorCode w = (inr r, w)
          /\ In r (table (w_db w)) /\ idColumn r = id)
  /\ (~ (exists r, In r (table (w_db w)) /\ idColumn r = id) ->
        findResourceOrFail table idColumn id errorMessage errorCode w
        = (inl (AppError errorMessage 404 errorCode), w)).
Proof.
  intros found.
  assert (Hiff : (0 <? length found)%nat = true
                 <-> exists r, In r (table (w_db w)) /\ idColumn r = id).
  { unfold found. rewrite filter_length_pos.
    split; intros (r & Hr & H); exists r; (split; [done|]); by apply String.eqb_eq. }
  split; [|split].
  - exists (0 <? length found)%nat. split; [reflexivity | exact Hiff].
  - intros Hex. apply Hiff in Hex.
    unfold findResourceOrFail. run_monad. fold found.
    destruct found as [|r rest] eqn:Hf; [done|].
    exists r, rest. split; [done|]. split; [done|].
    assert (Hin : r ∈ filter (fun r => String.eqb (idColumn r) id) (table (w_db w))).
    { fold found. rewrite Hf. left. }
    apply list_elem_of_filter in Hin as [Hid Hin].
    split; [by apply list_elem_of_In | by apply String.eqb_eq, Is_true_true].
  - intros Hno. unfold findResourceOrFail. run_monad. fold found.
    destruct found as [|r rest] eqn:Hf; [done|].
    exfalso. apply Hno, Hiff. simpl. done.
Qed.

(** ** queryUtils: placeholders and parameters of the built statements *)

Lemma count_char_app (c : ascii) (a b : string) :
  count_char c (a +:+ b) = (count_char c a + count_char c b)%nat.
Proof.
  induction a as [|d a IH]; [by rewrite append_nil_l|].
  rewrite append_cons. simpl. rewrite IH. lia.
Qed.

Lemma count_char_join (c : ascii) (sep : string) (l : list string) :
  count_char c sep = 0%nat ->
  count_char c (Js.join sep l) = list_sum (map (count_char c) l).
Proof.
  intros Hsep. induction l as [|x [|y l] IH]; [done | simpl; lia |].
  change (Js.join sep (x :: y :: l)) with (x +:+ sep +:+ Js.join sep (y :: l)).
  rewrite !count_char_app, Hsep, IH. simpl. lia.
Qed.

Lemma placeholders_app (a b : string) :
  placeholders (a +:+ b) = (placeholders a + placeholders b)%nat.
Proof. apply count_char_app. Qed.

Lemma placeholders_join (sep : string) (l : list string) :
  placeholders sep = 0%nat ->
  placeholders (Js.join sep l) = list_sum (map placeholders l).
Proof. intros H. exact (count_char_join "?" sep l H). Qed.

Lemma replace_eq (s m r : string) :
  Js.replace s m r =
  if String.prefix m s then r +:+ Js.substring_from (String.length m) s
  else match s with
       | EmptyString => EmptyString
       | String c s' => String c (Js.replace s' m r)
       end.
Proof. destruct s; reflexivity. Qed.

(** Removing a marker that holds no [c] keeps the number of [c]. *)
Lemma count_char_replace (c : ascii) (s m : string) :
  count_char c m = 0%nat -> count_char c (Js.replace s m "") = count_char c s.
Proof.
  intros Hm. induction s as [|d s IH]; rewrite replace_eq.
  - destruct (String.prefix m "") eqn:Hp; [|done].
    rewrite append_nil_l. by destruct (String.length m).
  - destruct (String.prefix m (String d s)) eqn:Hp.
    + rewrite append_nil_l. rewrite (prefix_inv _ _ Hp) at 2.
      rewrite count_char_app, Hm. done.
    + simpl. by rewrite IH.
Qed.

Lemma placeholders_predicate (e : string * Js.value) :
  placeholders (fst (predicate_of e)) = S (placeholders (fst e)).
Proof.
  destruct e as [key value]. unfold predicate_of, placeholders.
  destruct (Js.includes key "_like");
    [|destruct (Js.includes key "_date_from"); [|destruct (Js.includes key "_date_to")]];
    cbn [fst]; rewrite count_char_app, ?count_char_replace by reflexivity; simpl; lia.
Qed.

Lemma list_sum_placeholders (l : list string) :
  Forall (fun s => placeholders s = 1%nat) l -> list_sum (map placeholders l) = length l.
Proof.
  induction 1 as [|e l He _ IH]; [done|]. simpl. rewrite He, IH. done.
Qed.

(** X6.  [buildSearchQuery] adds one placeholder and one parameter for each
    filter it keeps: when the keys of the kept filters hold no [?], the
    statement has the placeholders of the base query plus one per kept
    filter, the parameters are the base parameters plus one per kept
    filter, and a base query that has as many placeholders as parameters
    gives a statement that has as many placeholders as parameters. *)
Theorem buildSearchQuery_balanced (baseQuery : string) (filters : entries)
    (baseParams : list Js.value) :
  Forall (fun e => placeholders (fst e) = 0%nat) (kept_filters filters) ->
  let q := buildSearchQuery baseQuery filters baseParams in
  placeholders (query q) = (placeholders baseQuery + length (kept_filters filters))%nat
  /\ length (params q) = (length baseParams + length (kept_filters filters))%nat
  /\ (balanced (mkQuery baseQuery baseParams) -> balanced q).
Proof.
  intros Hkeys q.
  assert (Hq : placeholders (query q)
               = (placeholders baseQuery + length (kept_filters filters))%nat).
  { subst q. rewrite buildSearchQuery_by_containment. unfold search_query_from.
    cbn [query].
    assert (Hsum : list_sum (map placeholders (map fst (map predicate_of (kept_filters filters))))
                   = length (kept_filters filters)).
    { rewrite list_sum_placeholders; [by rewrite !length_map|].
      rewrite map_map. apply Forall_map.
      eapply Forall_impl; [exact Hkeys|]. intros e He. simpl in He.
      by rewrite placeholders_predicate, He. }
    destruct (map predicate_of (kept_filters filters)) as [|p preds] eqn:Hp.
    { simpl in Hsum. rewrite <- Hsum. lia. }
    rewrite !placeholders_app, placeholders_join by reflexivity.
    rewrite Hsum. by destruct (Js.includes baseQuery "WHERE"). }
  assert (Hp : length (params q) = (length baseParams + length (kept_filters filters))%nat).
  { subst q. rewrite buildSearchQuery_by_containment. unfold search_query_from.
    cbn [params]. by rewrite length_app, !length_map. }
  split; [exact Hq|]. split; [exact Hp|].
  unfold balanced. cbn [query params]. intros Hb. rewrite Hq, Hp, Hb. done.
Qed.

(** X7.  [buildUpdateQuery] adds one placeholder and one parameter for each
    field it sets: when the table name and the keys of the defined fields
    hold no [?], the statement has one placeholder per defined field plus
    those of the where-clause, the parameters are one per defined field plus
    the where-parameters, and a where-clause that has as many placeholders
    as where-parameters gives a statement that has as many placeholders as
    parameters. *)
Theorem buildUpdateQuery_balanced (table : string) (updates : entries)
    (whereClause : string) (whereParams : list Js.value) (q : Query) :
  placeholders table = 0%nat ->
  Forall (fun e => placeholders (fst e) = 0%nat) (defined_entries updates) ->
  buildUpdateQuery table updates whereClause whereParams = inr q ->
  placeholders (query q) = (length (defined_entries updates) + placeholders whereClause)%nat
  /\ length (params q) = (length (defined_entries updates) + length whereParams)%nat
  /\ (balanced (mkQuery whereClause whereParams) -> balanced q).
Proof.
  intros Htable Hkeys Hq.
  unfold buildUpdateQuery in Hq. rewrite fold_update_step in Hq. simpl app in Hq.
  assert (Hsum : list_sum (map placeholders
                             (map (fun e => fst e +:+ " = ?") (defined_entries updates)))
                 = length (defined_entries updates)).
  { rewrite list_sum_placeholders; [by rewrite length_map|].
    apply Forall_map. eapply Forall_impl; [exact Hkeys|].
    intros e He. simpl in He. rewrite placeholders_app, He. reflexivity. }
  destruct (length (map (fun e => fst e +:+ " = ?") (defined_entries updates)) =? 0)%nat;
    [discriminate Hq|].
  injection Hq as <-. cbn [query params].
  assert (H1 : placeholders
                 ("UPDATE " +:+ table +:+ " SET "
                    +:+ Js.join ", " (map (fun e => fst e +:+ " = ?") (defined_entries updates))
                    +:+ ", updated_at = NOW() WHERE " +:+ whereClause)
               = (length (defined_entries updates) + placeholders whereClause)%nat).
  { rewrite !placeholders_app, placeholders_join by reflexivity.
    rewrite Hsum, Htable.
    change (placeholders "UPDATE ") with 0%nat. change (placeholders " SET ") with 0%nat.
    change (placeholders ", updated_at = NOW() WHERE ") with 0%nat. lia. }
  assert (H2 : length (map snd (defined_entries updates) ++ whereParams)
               = (length (defined_entries updates) + length whereParams)%nat)
    by (by rewrite length_app, length_map).
  split; [exact H1|]. split; [exact H2|].
  unfold balanced. cbn [query params]. intros Hb. rewrite H1, H2, Hb. done.
Qed.

Lemma predicate_of_clause (key : string) (v v' : Js.value) :
  fst (predicate_of (key, v)) = fst (predicate_of (key, v')).
Proof.
  unfold predicate_of.
  destruct (Js.includes key "_like");
    [|destruct (Js.includes key "_date_from"); [|destruct (Js.includes key "_date_to")]];
    reflexivity.
Qed.

Lemma clauses_by_keys (l l' : entries) :
  map fst l = map fst l' ->
  map fst (map predicate_of l) = map fst (map predicate_of l').
Proof.
  revert l'. induction l as [|[k v] l IH]; intros [|[k' v'] l'] H; try done.
  simpl in H. injection H as -> Hrest. simpl map. f_equal.
  - apply predicate_of_clause.
  - by apply IH.
Qed.

(** X8.  The text of the statements never depends on the values, which
    travel as parameters only: two filter objects whose kept filters have
    the same keys in the same order give the same search statement, and two
    update objects whose defined fields have the same keys in the same order
    give the same UPDATE statement, or both throw the same error. *)
Theorem query_text_ignores_values :
  (forall baseQuery filters filters' baseParams baseParams',
     map fst (kept_filters filters) = map fst (kept_filters filters') ->
     query (buildSearchQuery baseQuery filters baseParams)
     = query (buildSearchQuery baseQuery filters' baseParams'))
  /\ (forall table updates updates' whereClause whereParams whereParams',
        map fst (defined_entries updates) = map fst (defined_entries updates') ->
        match buildUpdateQuery table updates whereClause whereParams,
              buildUpdateQuery table updates' whereClause whereParams' with
        | inr q, inr q' => query q = query q'
        | inl e, inl e' => e = e'
        | _, _ => False
        end).
Proof.
  split.
  - intros baseQuery filters filters' baseParams baseParams' Hkeys.
    rewrite !buildSearchQuery_by_containment. unfold search_query_from. cbn [query].
    pose proof (clauses_by_keys _ _ Hkeys) as Hc.
    destruct (map predicate_of (kept_filters filters)) as [|p preds];
      destruct (map predicate_of (kept_filters filters')) as [|p' preds'];
      try discriminate Hc; [reflexivity|].
    by rewrite Hc.
  - intros table updates updates' whereClause whereParams whereParams' Hkeys.
    unfold buildUpdateQuery. rewrite !fold_update_step. simpl app.
    assert (Hf : map (fun e : string * Js.value => fst e +:+ " = ?") (defined_entries updates)
                 = map (fun e : string * Js.value => fst e +:+ " = ?")
                     (defined_entries updates')).
    { rewrite <- (map_map fst (fun k => k +:+ " = ?")), Hkeys, map_map. reflexivity. }
    rewrite Hf.
    destruct (length (map (fun e : string * Js.value => fst e +:+ " = ?")
                        (defined_entries updates')) =? 0)%nat; reflexivity.
Qed.

(** ** responseUtils: the pagination record *)

(** X9.  For a positive [limit], [calculatePagination] reports the page, the
    total and the limit it was given; [totalPages] is the least number of
    pages that hold [total] items, 0 for no item; [hasNextPage] holds
    exactly when items remain after this page, that is when
    [page * limit < total]; [hasPrevPage] holds exactly when the page is
    after the first. *)
Theorem calculatePagination_spec (page limit total : Z) :
  0 < limit ->
  let p := calculatePagination page limit total in
  currentPage p = page /\ totalItems p = total /\ itemsPerPage p = limit
  /\ (totalPages p - 1) * limit < total <= totalPages p * limit
  /\ (total = 0 -> totalPages p = 0)
  /\ (hasNextPage p = true <-> page * limit < total)
  /\ (hasPrevPage p = true <-> 1 < page)
  /\ (totalPages p <= page -> hasNextPage p = false).
Proof.
  intros Hl p. subst p. unfold calculatePagination.
  cbn [currentPage totalItems itemsPerPage totalPages hasNextPage hasPrevPage].
  pose proof (ceil_div_spec total limit Hl) as Hc.
  split; [done|]. split; [done|]. split; [done|]. split; [exact Hc|].
  split; [intros ->; reflexivity|]. split; [|split].
  - rewrite Z.ltb_lt. split; intros H; nia.
  - apply Z.ltb_lt.
  - intros H. apply Z.ltb_ge. lia.
Qed.

(** ** Routes: what a successful answer tells *)

Lemma errorHandler_failure (e : Exn) (w : World) (res : Response) (w' : World) :
  errorHandler e w = (res, w') -> res_success res = false.
Proof. unfold errorHandler. intros H. by inversion H. Qed.

Lemma same_but_user_refl (req : Request) : same_but_user req req.
Proof. by repeat split. Qed.

Lemma same_but_user_trans (a b c : Request) :
  same_but_user a b -> same_but_user b c -> same_but_user a c.
Proof.
  intros (H1 & H2 & H3 & H4) (H5 & H6 & H7 & H8).
  repeat split; congruence.
Qed.


Lemma verifyToken_guard (env : Env) : auth_guard (verifyToken env).
Proof.
  intros req w. rewrite verifyToken_run.
  destruct (bearer_token req) as [token|]; [|left; eauto].
  destruct (jwt_verify env token) as [e|payload].
  - destruct (String.eqb (exn_name e) "JsonWebTokenError"); [left; eauto|].
    destruct (String.eqb (exn_name e) "TokenExpiredError"); left; eauto.
  - destruct (select_active_user (jwt_userId payload) (w_db w)); [left; eauto|].
    right. eexists. split; [reflexivity | by repeat split].
Qed.

Lemma requireAdmin_guard : auth_guard requireAdmin.
Proof.
  intros req w. unfold requireAdmin.
  destruct (req_user req) as [u|]; [|left; eexists; reflexivity].
  destruct (negb (String.eqb (id_role u) "administrador"));
    [left; eexists; reflexivity | right; eexists; split; [reflexivity | by repeat split]].
Qed.

Lemma requireAdminOrManager_guard : auth_guard requireAdminOrManager.
Proof.
  intros req w. unfold requireAdminOrManager.
  destruct (req_user req) as [u|]; [|left; eexists; reflexivity].
  destruct (negb (existsb (String.eqb (id_role u)) ["administrador"; "gerente"]));
    [left; eexists; reflexivity | right; eexists; split; [reflexivity | by repeat split]].
Qed.

Lemma handleValidationErrors_guard (errors : Request -> ValidationErrors) :
  auth_guard (fun req => handleValidationErrors (errors req) req).
Proof.
  intros req w. destruct (handleValidationErrors_step (errors req) req w) as [[e He]|Hn].
  - left. eauto.
  - right. exists req. split; [exact Hn | apply same_but_user_refl].
Qed.

Lemma validateUUID_guard (env : Env) : auth_guard (validateUUID env).
Proof.
  exact (handleValidationErrors_guard
           (fun req => check (isUUID env (req_param req)) "id" "Invalid id format")).
Qed.

Lemma validateTransactionId_guard : auth_guard validateTransactionId.
Proof.
  exact (handleValidationErrors_guard
           (fun req => check (matches_txn_id (req_param req)) "id"
                         "Invalid transaction id format")).
Qed.

(** A route that answers with success went through its guards and its
    handler sent the answer. *)
Lemma serve_success (guards : list Middleware) (h : Middleware) (req : Request)
    (w w' : World) (res : Response) :
  Forall auth_guard guards ->
  serve (guards ++ [h]) req w = (res, w') -> res_success res = true ->
  exists req', same_but_user req req' /\ h req' w = (inr (Send res), w').
Proof.
  intros Hg. revert req. induction Hg as [|g guards Hq _ IH]; intros req Hs Hok.
  - exists req. split; [apply same_but_user_refl|].
    simpl app in Hs. unfold serve in Hs. cbn [run_chain] in Hs. run_monad_in Hs.
    destruct (h req w) as [[e|[req'|res0]] w1].
    + apply errorHandler_failure in Hs. congruence.
    + apply errorHandler_failure in Hs. congruence.
    + by inversion Hs.
  - simpl app in Hs. destruct (Hq req w) as [[e He] | (req1 & Hn & Hsame)].
    + rewrite (serve_throw _ _ _ _ _ _ He) in Hs.
      apply errorHandler_failure in Hs. congruence.
    + rewrite (serve_next _ _ _ _ _ _ Hn) in Hs.
      destruct (IH req1 Hs Hok) as (req' & Hsame' & Hh).
      exists req'. split; [by eapply same_but_user_trans | exact Hh].
Qed.

(** ** authRoutes: the login *)

Lemma validateLogin_run (env : Env) (req : Request) (w : World) :
  (login_valid env req = true ->
     validateLogin env req w = (inr (Next (login_request env req)), w))
  /\ (login_valid env req = false ->
        exists errors,
          validateLogin env req w
          = (inl (AppErrorWithDetails "Validation failed" 400 "VALIDATION_ERROR" errors), w)).
Proof.
  unfold login_valid, validateLogin, check, handleValidationErrors.
  destruct (isEmail env (validator_string (body_get req "email")));
    destruct (6 <=? String.length (validator_string (body_get req "password")))%nat;
    simpl; split; intros H; try discriminate H; try reflexivity; eexists; reflexivity.
Qed.

Lemma login_request_fields (env : Env) (req : Request) :
  body_get (login_request env req) "email" = login_email env req
  /\ body_get (login_request env req) "password" = body_get req "password".
Proof.
  unfold body_get, login_request. cbn [req_body].
  by rewrite lookup_insert_eq, lookup_insert_ne.
Qed.

Lemma login_handler_run (env : Env) (req : Request) (w : World) :
  login_handler env req w =
  match select_user_by_email (body_get req "email") (w_db w) with
  | [] => (inl INVALID_CREDENTIALS, w)
  | user :: _ =>
      if p_status (snd user) then
        match body_get req "password" with
        | Js.Str pw =>
            if bcrypt_compare env pw (u_password_hash (fst user)) then
              (inr (Send (ok_json "Login successful"
                            (LoginData
                               (formatUserResponse
                                  (<["id" := Js.Str (u_id (fst user))]>
                                     (<["email" := Js.Str (u_email (fst user))]>
                                        (<["name" := Js.Str (p_name (snd user))]>
                                           (<["role" := Js.Str (p_role (snd user))]> ∅)))))
                               (generateAccessToken env (u_id (fst user)))
                               (generateRefreshToken env (u_id (fst user)))))),
               set_db (touch_last_login (u_id (fst user)) (w_now w) (w_db w)) w)
            else (inl INVALID_CREDENTIALS, w)
        | _ => (inl (mkExn "Error" "data and hash arguments required" None None []), w)
        end
      else (inl (AppError "Account is deactivated" 401 "ACCOUNT_DEACTIVATED"), w)
  end.
Proof.
  unfold login_handler, verifyPassword. run_monad.
  destruct (select_user_by_email (body_get req "email") (w_db w)) as [|user l]; [reflexivity|].
  destruct (p_status (snd user)); cbv beta iota delta [negb]; [|reflexivity].
  destruct (body_get req "password") as [| | | |pw]; try reflexivity.
  destruct (bcrypt_compare env pw (u_password_hash (fst user))); reflexivity.
Qed.


Lemma touch_last_login_profiles (id : string) (now : Z) (d : Database) :
  Forall2 (touched id now) (profiles d) (profiles (touch_last_login id now d)).
Proof.
  unfold touch_last_login. cbn [profiles].
  induction (profiles d) as [|p l IH]; [constructor|].
  simpl map. constructor; [|exact IH].
  unfold touched. destruct (String.eqb (p_id p) id); by repeat split.
Qed.

(** X11.  A login with the password of an active user is answered with a
    user object of exactly the fields id, email, name and role of the row
    found and with an access and a refresh token signed for its id; it
    writes [last_login] of the profiles with that id, at the time of the
    request, and nothing else. *)
Theorem login_success (env : Env) (req : Request) (w : World)
    (user : UserRow * ProfileRow) (rest : list (UserRow * ProfileRow)) (pw : string) :
  login_valid env req = true ->
  login_rows env req w = user :: rest ->
  p_status (snd user) = true ->
  body_get req "password" = Js.Str pw ->
  bcrypt_compare env pw (u_password_hash (fst user)) = true ->
  let id := u_id (fst user) in
  let d' := touch_last_login id (w_now w) (w_db w) in
  exists obj,
    serve (login_route env) req w
    = (ok_json "Login successful"
         (LoginData obj (generateAccessToken env id) (generateRefreshToken env id)),
       set_db d' w)
    /\ obj !! "id" = Some (Js.Str id)
    /\ obj !! "email" = Some (Js.Str (u_email (fst user)))
    /\ obj !! "name" = Some (Js.Str (p_name (snd user)))
    /\ obj !! "role" = Some (Js.Str (p_role (snd user)))
    /\ dom obj = ({["id"; "email"; "name"; "role"]} : gset string)
    /\ users d' = users (w_db w) /\ categories d' = categories (w_db w)
    /\ subcategories d' = subcategories (w_db w)
    /\ transactions d' = transactions (w_db w)
    /\ Forall2 (touched id (w_now w)) (profiles (w_db w)) (profiles d').
Proof.
  intros Hv Hrows Hs Hbody Hcmp id d'. unfold login_route, login_rows in *.
  destruct (validateLogin_run env req w) as [Hpass _].
  destruct (login_request_fields env req) as [Hemail Hpw].
  rewrite (serve_next _ _ _ _ _ _ (Hpass Hv)).
  pose proof (login_handler_run env (login_request env req) w) as Hrun.
  rewrite Hemail, Hpw, Hrows, Hs, Hbody, Hcmp in Hrun.
  eexists. split; [apply serve_send; exact Hrun|].
  unfold formatUserResponse.
  do 4 (split; [rewrite lookup_delete_ne by done; rewrite ?lookup_insert_ne by done;
                 apply lookup_insert_eq|]).
  split; [rewrite dom_delete_L, !dom_insert_L, dom_empty_L; set_solver|].
  repeat (split; [reflexivity|]). apply touch_last_login_profiles.
Qed.

(** ** userRoutes: what deactivation, password reset and deletion change *)

Lemma admin_guards (env : Env) :
  Forall auth_guard [verifyToken env; requireAdmin; validateUUID env].
Proof.
  constructor; [apply verifyToken_guard|]. constructor; [apply requireAdmin_guard|].
  constructor; [apply validateUUID_guard | constructor].
Qed.

Lemma no_active_user (env : Env) (req : Request) (w : World) (id : string) :
  token_of env req id ->
  (forall p, In p (profiles (w_db w)) -> p_id p = id -> p_status p = false) ->
  verifyToken env req w = (inl USER_INACTIVE, w).
Proof.
  intros (token & payload & Hb & Hv & Hid) Hoff.
  rewrite verifyToken_run, Hb, Hv, Hid.
  destruct (select_active_user id (w_db w)) as [|[u p] l] eqn:Hsel; [reflexivity|].
  assert (Hin : In (u, p) (select_active_user id (w_db w))) by (rewrite Hsel; by left).
  apply in_select_active_user in Hin as (_ & Hp & Hup & Hu & Hs).
  rewrite (Hoff p Hp) in Hs; [done | congruence].
Qed.

Lemma in_select_user_by_email (email : Js.value) (d : Database) (u : UserRow)
    (p : ProfileRow) :
  In (u, p) (select_user_by_email email d) ->
  In u (users d) /\ In p (profiles d) /\ u_id u = p_id p.
Proof.
  unfold select_user_by_email. intros H.
  apply list_elem_of_In, list_elem_of_filter in H as [_ H].
  by apply list_elem_of_In, in_users_join_profiles in H.
Qed.

Lemma deactivate_user_handler_ok (req : Request) (w w' : World) (res : Response) :
  deactivate_user_handler req w = (inr (Send res), w') ->
  w' = set_db (deactivate_profile (req_param req) (w_db w)) w.
Proof.
  unfold deactivate_user_handler, req_user_id. run_monad.
  destruct (length (filter (fun p => String.eqb (p_id p) (req_param req))
                      (profiles (w_db w))) =? 0)%nat; [intros H; discriminate H|].
  destruct (req_user req) as [u|]; [|intros H; discriminate H].
  destruct (String.eqb (req_param req) (id_id u)); [intros H; discriminate H|].
  intros H. by inversion H.
Qed.

Lemma deactivate_profile_off (id : string) (d : Database) (p : ProfileRow) :
  In p (profiles (deactivate_profile id d)) -> p_id p = id -> p_status p = false.
Proof.
  unfold deactivate_profile. cbn [profiles]. intros Hin Hid.
  apply in_map_iff in Hin as (p0 & Hp & _).
  destruct (String.eqb_spec (p_id p0) id) as [Heq|Hne]; subst p; [reflexivity | done].
Qed.

(** X12.  A deactivation that the route answers with success takes effect
    at once: every profile with the id of the request is inactive, the
    users table is as it was, every later request that carries a token of
    that user is rejected by [verifyToken] with 401 USER_NOT_FOUND, and a
    login that finds that user is answered 401 ACCOUNT_DEACTIVATED whatever
    the password. *)
Theorem deactivation_takes_effect (env : Env) (req : Request) (w w' : World)
    (res : Response) :
  serve (deactivate_user_route env) req w = (res, w') -> res_success res = true ->
  let id := req_param req in
  w' = set_db (deactivate_profile id (w_db w)) w
  /\ (forall p, In p (profiles (w_db w')) -> p_id p = id -> p_status p = false)
  /\ users (w_db w') = users (w_db w)
  /\ (forall req2, token_of env req2 id -> verifyToken env req2 w' = (inl USER_INACTIVE, w'))
  /\ (forall req2 user rest,
        login_valid env req2 = true -> login_rows env req2 w' = user :: rest ->
        u_id (fst user) = id ->
        serve (login_route env) req2 w'
        = (rejection 401 "ACCOUNT_DEACTIVATED" "Account is deactivated",
           add_console "Error:" w')).
Proof.
  intros Hs Hok id.
  change (deactivate_user_route env)
    with ([verifyToken env; requireAdmin; validateUUID env] ++ [deactivate_user_handler]) in Hs.
  apply serve_success in Hs as (req' & (_ & Hparam & _) & Hh); [|apply admin_guards|done].
  apply deactivate_user_handler_ok in Hh. rewrite Hparam in Hh. fold id in Hh.
  assert (Hoff : forall p, In p (profiles (w_db w')) -> p_id p = id -> p_status p = false).
  { subst w'. intros p. apply deactivate_profile_off. }
  split; [exact Hh|]. split; [exact Hoff|]. split; [by subst w'|]. split.
  - intros req2 Htok. by apply (no_active_user env req2 w' id).
  - intros req2 [u p] rest Hv Hrows Hid. cbn [fst] in Hid.
    unfold login_route. destruct (validateLogin_run env req2 w') as [Hpass _].
    destruct (login_request_fields env req2) as [Hemail Hpw].
    rewrite (serve_next _ _ _ _ _ _ (Hpass Hv)).
    pose proof (login_handler_run env (login_request env req2) w') as Hrun.
    unfold login_rows in Hrows. rewrite Hemail, Hrows in Hrun. cbn [snd] in Hrun.
    assert (Hin : In (u, p) (select_user_by_email (login_email env req2) (w_db w')))
      by (rewrite Hrows; by left).
    apply in_select_user_by_email in Hin as (_ & Hp & Hup).
    rewrite (Hoff p Hp) in Hrun by congruence.
    by rewrite (serve_throw _ _ _ _ _ _ Hrun).
Qed.






Lemma delete_user_handler_ok (req : Request) (w w' : World) (res : Response) :
  delete_user_handler req w = (inr (Send res), w') ->
  exists existing rest,
    filter (fun p => String.eqb (p_id p) (req_param req)) (profiles (w_db w))
    = existing :: rest
    /\ w_db w' = delete_user_by_email (p_email existing)
                   (delete_profile (req_param req) (w_db w))
    /\ w_fs w' = w_fs w.
Proof.
  unfold delete_user_handler, req_user_id, transaction_control. run_monad.
  destruct (filter (fun p => String.eqb (p_id p) (req_param req)) (profiles (w_db w)))
    as [|existing rest]; [intros H; discriminate H|].
  destruct (req_user req) as [u|]; [|intros H; discriminate H].
  destruct (String.eqb (req_param req) (id_id u)); [intros H; discriminate H|].
  intros H. exists existing, rest. split; [reflexivity|]. by inversion H.
Qed.

(** X14.  A hard delete that the route answers with success removes the
    profiles with the id of the request and the user rows whose email is the
    email of the first such profile: the user rows go by that email, not by
    the id.  The other profiles and user rows, the other tables and the
    files stay, and every later request that carries a token of that user
    is rejected by [verifyToken] with 401 USER_NOT_FOUND. *)
Theorem delete_user_effect (env : Env) (req : Request) (w w' : World) (res : Response) :
  serve (delete_user_route env) req w = (res, w') -> res_success res = true ->
  let id := req_param req in
  exists existing,
    head (filter (fun p => String.eqb (p_id p) id) (profiles (w_db w))) = Some existing
    /\ (forall p, In p (profiles (w_db w')) <-> In p (profiles (w_db w)) /\ p_id p <> id)
    /\ (forall u, In u (users (w_db w'))
                  <-> In u (users (w_db w)) /\ u_email u <> p_email existing)
    /\ categories (w_db w') = categories (w_db w)
    /\ subcategories (w_db w') = subcategories (w_db w)
    /\ transactions (w_db w') = transactions (w_db w)
    /\ w_fs w' = w_fs w
    /\ (forall req2, token_of env req2 id ->
          verifyToken env req2 w' = (inl USER_INACTIVE, w')).
Proof.
  intros Hs Hok id.
  change (delete_user_route env)
    with ([verifyToken env; requireAdmin; validateUUID env] ++ [delete_user_handler]) in Hs.
  apply serve_success in Hs as (req' & (_ & Hparam & _) & Hh); [|apply admin_guards|done].
  apply delete_user_handler_ok in Hh as (existing & rest & Hfound & Hdb & Hfs).
  rewrite Hparam in Hfound, Hdb. fold id in Hfound, Hdb.
  assert (Hprofiles : forall p, In p (profiles (w_db w'))
                                <-> In p (profiles (w_db w)) /\ p_id p <> id).
  { intros p. rewrite Hdb. cbn [delete_user_by_email delete_profile profiles].
    rewrite <- !list_elem_of_In, list_elem_of_filter.
    rewrite Is_true_true, negb_true_iff, String.eqb_neq. tauto. }
  exists existing. split; [by rewrite Hfound|]. split; [exact Hprofiles|]. split.
  { intros u. rewrite Hdb. cbn [delete_user_by_email delete_profile users].
    rewrite <- !list_elem_of_In, list_elem_of_filter.
    rewrite Is_true_true, negb_true_iff, String.eqb_neq. tauto. }
  split; [by rewrite Hdb|]. split; [by rewrite Hdb|]. split; [by rewrite Hdb|].
  split; [exact Hfs|].
  intros req2 Htok. apply (no_active_user env req2 w' id Htok).
  intros p Hp Hid. apply Hprofiles in Hp as [_ Hne]. done.
Qed.

(** ** fileRoutes: deletion, information and viewing of a stored file *)

Lemma manager_guards (env : Env) : Forall auth_guard [verifyToken env; requireAdminOrManager].
Proof.
  constructor; [apply verifyToken_guard|].
  constructor; [apply requireAdminOrManager_guard | constructor].
Qed.

Lemma delete_file_handler_run (env : Env) (req : Request) (w : World) :
  invalid_filename (req_param req) = false ->
  let path := upload_path env (req_param req) in
  let probed := add_fs_call (FsAccess path) w in
  delete_file_handler env req w =
  match w_fs w !! path with
  | None => (inl (AppError "File not found" 404 "FILE_NOT_FOUND"), probed)
  | Some f =>
      if f_removable f
      then (inr (Send (ok_json "File deleted successfully" NoData)),
            set_fs (delete path (w_fs w)) (add_fs_call (FsUnlink path) probed))
      else (inl EPERM, add_fs_call (FsUnlink path) probed)
  end.
Proof.
  intros Hvalid path probed. unfold delete_file_handler. run_monad. rewrite Hvalid.
  fold (upload_path env (req_param req)). fold path.
  unfold fs_access, fs_unlink, not_found_on_enoent. cbn [w_fs add_fs_call]. fold probed.
  destruct (w_fs w !! path) as [f|] eqn:Hf; [|reflexivity].
  cbv beta iota. change (w_fs probed) with (w_fs w). rewrite Hf.
  destruct (f_removable f); reflexivity.
Qed.

(** X15.  For an administrator or manager and a file name that passes the
    check, the delete route works on the one path below the upload
    directory: when no file is there it answers 404 FILE_NOT_FOUND after the
    access check alone and the directory is as it was; when the file is
    there and can be removed it answers with success and exactly that file
    is gone; when the removal fails the error passes to the error handler,
    which answers 500, and the file stays.  The tables are never touched. *)
Theorem delete_file_spec (env : Env) (req : Request) (w : World) (u : Identity) :
  authenticated_as env req w u -> admin_or_manager u ->
  invalid_filename (req_param req) = false ->
  let path := upload_path env (req_param req) in
  let answer := serve (delete_file_route env) req w in
  w_db (snd answer) = w_db w
  /\ (w_fs w !! path = None ->
        fst answer = rejection 404 "FILE_NOT_FOUND" "File not found"
        /\ w_fs (snd answer) = w_fs w
        /\ w_fs_calls (snd answer) = w_fs_calls w ++ [FsAccess path])
  /\ (file_deletable w path ->
        fst answer = ok_json "File deleted successfully" NoData
        /\ w_fs (snd answer) = delete path (w_fs w)
        /\ w_fs (snd answer) !! path = None
        /\ (forall p, p <> path -> w_fs (snd answer) !! p = w_fs w !! p)
        /\ w_fs_calls (snd answer) = w_fs_calls w ++ [FsAccess path; FsUnlink path])
  /\ (file_undeletable w path ->
        res_success (fst answer) = false /\ res_status (fst answer) = 500
        /\ w_fs (snd answer) = w_fs w).
Proof.
  intros Hauth Hrole Hvalid path answer. subst answer. unfold delete_file_route.
  rewrite (serve_next _ _ _ _ _ _ Hauth).
  rewrite (serve_next _ _ _ _ _ _
             (requireAdminOrManager_pass (set_user u req) w u eq_refl Hrole)).
  pose proof (delete_file_handler_run env (set_user u req) w Hvalid) as Hrun.
  cbv zeta in Hrun. change (req_param (set_user u req)) with (req_param req) in Hrun.
  fold path in Hrun.
  split; [|split; [|split]].
  - destruct (w_fs w !! path) as [f|]; [destruct (f_removable f)|].
    + by rewrite (serve_send _ _ _ _ _ _ Hrun).
    + by rewrite (serve_throw _ _ _ _ _ _ Hrun).
    + by rewrite (serve_throw _ _ _ _ _ _ Hrun).
  - intros Hnone. rewrite Hnone in Hrun. rewrite (serve_throw _ _ _ _ _ _ Hrun).
    by repeat split.
  - intros (f & Hf & Hr). rewrite Hf, Hr in Hrun. rewrite (serve_send _ _ _ _ _ _ Hrun).
    cbn [fst snd w_fs set_fs w_fs_calls add_fs_call].
    split; [done|]. split; [done|]. split; [apply lookup_delete_eq|].
    split; [intros p Hp; by apply lookup_delete_ne|]. by rewrite <- app_assoc.
  - intros (f & Hf & Hr). rewrite Hf, Hr in Hrun. rewrite (serve_throw _ _ _ _ _ _ Hrun).
    by repeat split.
Qed.




(** ** transactionRoutes: creation *)









(** ** The references between the tables under the routes that write *)

Lemma handleValidationErrors_world (errors : ValidationErrors) (req : Request) (w : World) :
  snd (handleValidationErrors errors req w) = w.
Proof. destruct (handleValidationErrors_step errors req w) as [[e ->] | ->]; reflexivity. Qed.

Lemma auth_guard_world (mw : Middleware) : auth_guard mw -> world_guard mw.
Proof. intros H req w. destruct (H req w) as [[e ->] | (req' & -> & _)]; reflexivity. Qed.

Lemma validateTransaction_world (env : Env) : world_guard (validateTransaction env).
Proof. intros req w. apply handleValidationErrors_world. Qed.

Lemma validateCategory_world : world_guard validateCategory.
Proof. intros req w. apply handleValidationErrors_world. Qed.

Lemma validateSubcategory_world (env : Env) : world_guard (validateSubcategory env).
Proof. intros req w. apply handleValidationErrors_world. Qed.

Lemma errorHandler_db (e : Exn) (w : World) : w_db (snd (errorHandler e w)) = w_db w.
Proof. reflexivity. Qed.

(** What holds of the tables before a request and is kept by the handler
    holds after the route. *)
Lemma serve_db (P : Database -> Prop) (guards : list Middleware) (h : Middleware) :
  Forall world_guard guards ->
  (forall req w, P (w_db w) -> P (w_db (snd (h req w)))) ->
  forall req w, P (w_db w) -> P (w_db (snd (serve (guards ++ [h]) req w))).
Proof.
  intros Hg Hh. induction Hg as [|g guards Hq _ IH]; intros req w HP.
  - simpl app. unfold serve. cbn [run_chain]. run_monad.
    specialize (Hh req w HP). destruct (h req w) as [[e|[req'|res]] w1]; exact Hh.
  - simpl app. specialize (Hq req w).
    destruct (g req w) as [[e|[req'|res]] w1] eqn:Hgrun; cbn [snd] in Hq; subst w1.
    + by rewrite (serve_throw _ _ _ _ _ _ Hgrun).
    + rewrite (serve_next _ _ _ _ _ _ Hgrun). by apply IH.
    + by rewrite (serve_send _ _ _ _ _ _ Hgrun).
Qed.

Lemma answer_db {D : Type} (P : Database -> Prop) (guards : list Middleware)
    (h : Handler D) :
  Forall world_guard guards ->
  (forall req w, P (w_db w) -> P (w_db (snd (h req w)))) ->
  forall req w, P (w_db w) -> P (w_db (snd (answer guards h req w))).
Proof.
  intros Hg Hh. induction Hg as [|g guards Hq _ IH]; intros req w HP.
  - cbn [answer]. specialize (Hh req w HP). destruct (h req w) as [[e|r] w1]; exact Hh.
  - cbn [answer]. specialize (Hq req w).
    destruct (g req w) as [[e|[req'|res]] w1] eqn:Hgrun; cbn [snd] in Hq; subst w1.
    + exact HP.
    + by apply IH.
    + exact HP.
Qed.

Lemma value_eqb_Str_l (s : string) (v : Js.value) :
  Js.value_eqb (Js.Str s) v = true -> v = Js.Str s.
Proof.
  destruct v as [| | | |s']; simpl; try discriminate.
  intros H. apply String.eqb_eq in H. by subst.
Qed.

Lemma filter_head_In {A} (f : A -> bool) (l : list A) (x : A) (rest : list A) :
  filter f l = x :: rest -> In x l /\ f x = true.
Proof.
  intros H. assert (Hin : x ∈ filter f l) by (rewrite H; left).
  apply list_elem_of_filter in Hin as [Hf Hin].
  split; [by apply list_elem_of_In | by apply Is_true_true].
Qed.

Lemma or_null_truthy (v : Js.value) : Js.truthy v = true -> or_null v = v.
Proof. intros H. unfold or_null. by rewrite H. Qed.

Lemma or_null_falsy (v : Js.value) : Js.truthy v = false -> or_null v = Js.Null.
Proof. intros H. unfold or_null. by rewrite H. Qed.

(** The checks of a creation or update either throw, or pass with the two
    values naming rows of the tables or nothing. *)
Lemma check_category_refs_run (category_id subcategory_id : Js.value) (w : World) :
  (exists e, check_category_refs category_id subcategory_id w = (inl e, w))
  \/ (check_category_refs category_id subcategory_id w = (inr tt, w)
      /\ names_category (w_db w) (or_null category_id)
      /\ names_subcategory (w_db w) (or_null subcategory_id)).
Proof.
  unfold check_category_refs. run_monad.
  assert (Hcat : Js.truthy category_id = false
                 \/ (Js.truthy category_id = true
                     /\ filter (fun c => Js.value_eqb (Js.Str (c_id c)) category_id)
                          (categories (w_db w)) = [])
                 \/ (Js.truthy category_id = true
                     /\ exists c l, filter (fun c => Js.value_eqb (Js.Str (c_id c)) category_id)
                                      (categories (w_db w)) = c :: l)).
  { destruct (Js.truthy category_id); [|by left]. right.
    destruct (filter _ (categories (w_db w))) as [|c l]; [left | right]; eauto. }
  destruct Hcat as [Hc | [[Hc Hnone] | (Hc & c & l & Hsome)]].
  3: assert (Hnc : names_category (w_db w) (or_null category_id)).
  3: { rewrite (or_null_truthy _ Hc). right. exists c.
       apply filter_head_In in Hsome as [Hin Heq]. split; [exact Hin|].
       by apply value_eqb_Str_l. }
  1: assert (Hnc : names_category (w_db w) (or_null category_id))
       by (rewrite (or_null_falsy _ Hc); by left).
  2: { left. rewrite Hc, Hnone. eexists. reflexivity. }
  all: rewrite Hc; rewrite ?Hsome; cbn [length Nat.eqb].
  all: destruct (Js.truthy subcategory_id) eqn:Hs;
         [|right; split; [reflexivity|]; split; [exact Hnc|];
           rewrite (or_null_falsy _ Hs); by left].
  all: match goal with
       | |- context [length (filter ?f ?l)] =>
           destruct (filter f l) as [|s ls] eqn:Hsub
       end; [left; eexists; reflexivity|].
  all: right; split; [reflexivity|]; split; [exact Hnc|].
  all: rewrite (or_null_truthy _ Hs); right; exists s.
  all: apply filter_head_In in Hsub as [Hin Heq]; split; [exact Hin|].
  all: apply andb_prop in Heq as [Heq _]; by apply value_eqb_Str_l.
Qed.

Lemma delete_receipt_file_db (env : Env) (url logPrefix : string) (w w' : World)
    (r : Exn + unit) :
  delete_receipt_file env url logPrefix w = (r, w') ->
  w_db w' = w_db w /\ w_now w' = w_now w.
Proof.
  rewrite delete_receipt_file_run. cbv zeta.
  destruct (w_fs w !! receipt_path env url) as [f|]; [destruct (f_removable f)|];
    intros H; by inversion H.
Qed.

(** *** Each handler keeps the references *)

Lemma names_category_more (d d' : Database) (v : Js.value) :
  (forall c, In c (categories d) -> exists c', In c' (categories d') /\ c_id c' = c_id c) ->
  names_category d v -> names_category d' v.
Proof.
  intros H [->|(c & Hc & ->)]; [by left|]. right.
  destruct (H c Hc) as (c' & Hc' & Hid). exists c'. by rewrite Hid.
Qed.

Lemma names_subcategory_more (d d' : Database) (v : Js.value) :
  (forall s, In s (subcategories d) -> exists s', In s' (subcategories d') /\ s_id s' = s_id s) ->
  names_subcategory d v -> names_subcategory d' v.
Proof.
  intros H [->|(s & Hs & ->)]; [by left|]. right.
  destruct (H s Hs) as (s' & Hs' & Hid). exists s'. by rewrite Hid.
Qed.

(** The references survive a change that keeps the ids of the categories
    and of the subcategories, the category of each subcategory among the
    categories, and writes transactions that name rows. *)
Lemma references_intact_step (d d' : Database) :
  references_intact d ->
  (forall c, In c (categories d) -> exists c', In c' (categories d') /\ c_id c' = c_id c) ->
  (forall s, In s (subcategories d) -> exists s', In s' (subcategories d') /\ s_id s' = s_id s) ->
  (forall s, In s (subcategories d') ->
     In s (subcategories d) \/ exists c, In c (categories d') /\ s_category_id s = c_id c) ->
  (forall t, In t (transactions d') ->
     (exists t0, In t0 (transactions d) /\ t_category_id t = t_category_id t0
                 /\ t_subcategory_id t = t_subcategory_id t0)
     \/ (names_category d' (t_category_id t) /\ names_subcategory d' (t_subcategory_id t))) ->
  references_intact d'.
Proof.
  intros [Hsub Htxn] Hcats Hsubs Hsub' Htxn'. split.
  - intros s Hs. destruct (Hsub' s Hs) as [Hold|Hnew]; [|exact Hnew].
    destruct (Hsub s Hold) as (c & Hc & Heq). destruct (Hcats c Hc) as (c' & Hc' & Hid).
    exists c'. split; [exact Hc' | congruence].
  - intros t Ht. destruct (Htxn' t Ht) as [(t0 & Ht0 & Hc & Hs)|Hnew]; [|exact Hnew].
    destruct (Htxn t0 Ht0) as [Hnc Hns]. rewrite Hc, Hs. split.
    + by eapply names_category_more.
    + by eapply names_subcategory_more.
Qed.

Lemma same_rows {A} (l : list A) (id : A -> string) :
  forall x, In x l -> exists x', In x' l /\ id x' = id x.
Proof. intros x Hx. by exists x. Qed.

Lemma old_transaction (d : Database) (t : TransactionRow) :
  In t (transactions d) ->
  (exists t0, In t0 (transactions d) /\ t_category_id t = t_category_id t0
              /\ t_subcategory_id t = t_subcategory_id t0)
  \/ (names_category d (t_category_id t) /\ names_subcategory d (t_subcategory_id t)).
Proof. intros Ht. left. by exists t. Qed.

Lemma create_category_handler_refs (weight : string -> string) (uuid : string)
    (req : Request) (w : World) :
  references_intact (w_db w) ->
  references_intact (w_db (snd (create_category_handler weight uuid req w))).
Proof.
  intros HI. unfold create_category_handler, req_user_id. run_monad.
  destruct (0 <? length (filter _ (categories (w_db w))))%nat; [exact HI|].
  destruct (req_user req) as [u|]; [|exact HI].
  cbn [snd w_db set_db]. apply (references_intact_step (w_db w)); try exact HI.
  - intros c Hc. exists c. split; [|reflexivity]. cbn [insert_category_row categories].
    apply in_or_app. by left.
  - apply same_rows.
  - intros s Hs. by left.
  - intros t Ht. left. by exists t.
Qed.

Lemma update_category_handler_refs (weight : string -> string) (req : Request) (w : World) :
  references_intact (w_db w) ->
  references_intact (w_db (snd (update_category_handler weight req w))).
Proof.
  intros HI. unfold update_category_handler. run_monad.
  destruct (length (filter _ (categories (w_db w))) =? 0)%nat; [exact HI|].
  destruct (0 <? length (filter _ (categories (w_db w))))%nat; [exact HI|].
  cbn [snd w_db set_db]. apply (references_intact_step (w_db w)); try exact HI.
  - intros c Hc. cbn [rename_category categories].
    eexists. split; [apply in_map; exact Hc|].
    by destruct (String.eqb (c_id c) (req_param req)).
  - apply same_rows.
  - intros s Hs. by left.
  - intros t Ht. left. by exists t.
Qed.

Lemma delete_category_handler_refs (req : Request) (w : World) :
  references_intact (w_db w) ->
  references_intact (w_db (snd (delete_category_handler req w))).
Proof.
  intros HI. pose proof (delete_category_handler_run req w) as Hrun. cbv zeta in Hrun.
  rewrite Hrun. clear Hrun.
  destruct (length (filter _ (categories (w_db w))) =? 0)%nat; [exact HI|].
  destruct (0 <? count_subcategories_of (req_param req) (w_db w))%nat eqn:Hsub; [exact HI|].
  destruct (0 <? count_transactions_of_category (req_param req) (w_db w))%nat eqn:Htx;
    [exact HI|].
  cbn [snd w_db set_db]. destruct HI as [HIsub HItxn].
  assert (Hkeep : forall c, In c (categories (w_db w)) -> c_id c <> req_param req ->
                            In c (categories (delete_category_row (req_param req) (w_db w))))
    by (intros c Hc Hne; by apply delete_category_row_others).
  unfold count_subcategories_of in Hsub. unfold count_transactions_of_category in Htx.
  rewrite filter_length_zero in Hsub. rewrite filter_length_zero in Htx.
  split.
  - intros s Hs. cbn [delete_category_row subcategories] in Hs.
    destruct (HIsub s Hs) as (c & Hc & Heq). exists c. split; [|exact Heq].
    apply Hkeep; [exact Hc|]. intros Hid. specialize (Hsub s Hs).
    apply String.eqb_neq in Hsub. congruence.
  - intros t Ht. cbn [delete_category_row transactions] in Ht.
    destruct (HItxn t Ht) as [Hnc Hns]. split; [|exact Hns].
    destruct Hnc as [Hnull|(c & Hc & Heq)]; [by left|]. right. exists c.
    split; [|exact Heq]. apply Hkeep; [exact Hc|]. intros Hid.
    specialize (Htx t Ht). rewrite Heq, Hid in Htx. simpl in Htx.
    by rewrite String.eqb_refl in Htx.
Qed.

Lemma create_subcategory_handler_refs (weight : string -> string) (uuid : string)
    (req : Request) (w : World) :
  references_intact (w_db w) ->
  references_intact (w_db (snd (create_subcategory_handler weight uuid req w))).
Proof.
  intros HI. unfold create_subcategory_handler, req_user_id. run_monad.
  destruct (select_category_of (body_get req "category_id") (w_db w)) as [|c l] eqn:Hcat;
    [exact HI|].
  cbn [length Nat.eqb].
  destruct (0 <? length (filter _ (subcategories (w_db w))))%nat; [exact HI|].
  destruct (req_user req) as [u|]; [|exact HI].
  cbn [snd w_db set_db]. apply filter_head_In in Hcat as [Hc Heq].
  apply value_eqb_Str_l in Heq.
  apply (references_intact_step (w_db w)); try exact HI.
  - apply same_rows.
  - intros s Hs. exists s. split; [|reflexivity].
    cbn [insert_subcategory_row subcategories]. apply in_or_app. by left.
  - intros s Hs. cbn [insert_subcategory_row subcategories] in Hs.
    apply in_app_or in Hs as [Hs|[<-|[]]]; [by left|]. right.
    exists c. split; [exact Hc|]. cbn [s_category_id]. by rewrite Heq.
  - intros t Ht. left. by exists t.
Qed.

Lemma update_subcategory_handler_refs (weight : string -> string) (req : Request)
    (w : World) :
  references_intact (w_db w) ->
  references_intact (w_db (snd (update_subcategory_handler weight req w))).
Proof.
  intros HI. unfold update_subcategory_handler. run_monad.
  destruct (length (filter _ (subcategories (w_db w))) =? 0)%nat; [exact HI|].
  destruct (select_category_of (body_get req "category_id") (w_db w)) as [|c l] eqn:Hcat;
    [exact HI|].
  cbn [length Nat.eqb].
  destruct (0 <? length (filter _ (subcategories (w_db w))))%nat; [exact HI|].
  cbn [snd w_db set_db]. apply filter_head_In in Hcat as [Hc Heq].
  apply value_eqb_Str_l in Heq.
  apply (references_intact_step (w_db w)); try exact HI.
  - apply same_rows.
  - intros s Hs. cbn [update_subcategory_row subcategories].
    eexists. split; [apply in_map; exact Hs|].
    by destruct (String.eqb (s_id s) (req_param req)).
  - intros s Hs. cbn [update_subcategory_row subcategories] in Hs.
    apply in_map_iff in Hs as (s0 & Hs0 & Hin).
    destruct (String.eqb (s_id s0) (req_param req)); [|left; by subst s].
    right. exists c. split; [exact Hc|]. subst s. cbn [s_category_id]. by rewrite Heq.
  - intros t Ht. left. by exists t.
Qed.

Lemma delete_subcategory_handler_refs (req : Request) (w : World) :
  references_intact (w_db w) ->
  references_intact (w_db (snd (delete_subcategory_handler req w))).
Proof.
  intros HI. pose proof (delete_subcategory_handler_run req w) as Hrun. cbv zeta in Hrun.
  rewrite Hrun. clear Hrun.
  destruct (length (filter _ (subcategories (w_db w))) =? 0)%nat; [exact HI|].
  destruct (0 <? count_transactions_of_subcategory (req_param req) (w_db w))%nat eqn:Htx;
    [exact HI|].
  cbn [snd w_db set_db]. destruct HI as [HIsub HItxn].
  unfold count_transactions_of_subcategory in Htx. rewrite filter_length_zero in Htx.
  split.
  - intros s Hs. apply delete_subcategory_row_others in Hs as [Hs _]. by apply HIsub.
  - intros t Ht. cbn [delete_subcategory_row transactions] in Ht.
    destruct (HItxn t Ht) as [Hnc Hns]. split; [exact Hnc|].
    destruct Hns as [Hnull|(s & Hs & Heq)]; [by left|]. right. exists s.
    split; [|exact Heq]. apply delete_subcategory_row_others. split; [exact Hs|].
    intros Hid. specialize (Htx t Ht). rewrite Heq, Hid in Htx. simpl in Htx.
    by rewrite String.eqb_refl in Htx.
Qed.

Lemma create_transaction_handler_refs (req : Request) (w : World) :
  references_intact (w_db w) ->
  references_intact (w_db (snd (create_transaction_handler req w))).
Proof.
  intros HI. unfold create_transaction_handler, req_user_id. run_monad.
  destruct (check_category_refs_run (body_get req "category_id")
              (body_get req "subcategory_id") w) as [[e He]|(Hok & Hnc & Hns)];
    [by rewrite He|]. rewrite Hok.
  destruct (generateNextTransactionId w) as [[e|id] w1] eqn:Hgen.
  { unfold generateNextTransactionId in Hgen. run_monad_in Hgen.
    destruct (select_last_transaction_id (w_db w)); discriminate Hgen. }
  assert (Hw1 : w1 = w).
  { unfold generateNextTransactionId in Hgen. run_monad_in Hgen.
    destruct (select_last_transaction_id (w_db w)); by inversion Hgen. }
  subst w1. destruct (req_user req) as [u|]; [|exact HI].
  cbn [snd w_db set_db]. apply (references_intact_step (w_db w)); try exact HI.
  - apply same_rows.
  - apply same_rows.
  - intros s Hs. by left.
  - intros t Ht. cbn [insert_transaction_row transactions] in Ht.
    apply in_app_or in Ht as [Ht|[<-|[]]]; [left; by exists t|]. right. by split.
Qed.

Lemma update_transaction_row_refs (d : Database) (id : string)
    (amount type description date category_id subcategory_id : Js.value)
    (receipt_url : option string) (now : Z) :
  references_intact d ->
  names_category d category_id -> names_subcategory d subcategory_id ->
  references_intact (update_transaction_row id amount type description date category_id
                       subcategory_id receipt_url now d).
Proof.
  intros HI Hnc Hns. apply (references_intact_step d); try exact HI.
  - apply same_rows.
  - apply same_rows.
  - intros s Hs. by left.
  - intros t Ht. cbn [update_transaction_row transactions] in Ht.
    apply in_map_iff in Ht as (t0 & Ht0 & Hin).
    destruct (String.eqb (t_id t0) id); [|left; exists t0; by subst t].
    right. subst t. by split.
Qed.

Lemma update_transaction_handler_refs (env : Env) (req : Request) (w : World) :
  references_intact (w_db w) ->
  references_intact (w_db (snd (update_transaction_handler env req w))).
Proof.
  intros HI. unfold update_transaction_handler. run_monad.
  destruct (select_transaction (req_param req) (w_db w)) as [|t l]; [exact HI|].
  destruct (check_category_refs_run (body_get req "category_id")
              (body_get req "subcategory_id") w) as [[e He]|(Hok & Hnc & Hns)];
    [by rewrite He|]. rewrite Hok.
  assert (Hfinal : forall now d, d = w_db w ->
            references_intact
              (update_transaction_row (req_param req) (body_get req "amount")
                 (body_get req "type") (body_get req "description") (body_get req "date")
                 (or_null (body_get req "category_id"))
                 (or_null (body_get req "subcategory_id"))
                 (sql_varchar (or_null (body_get req "comprovativo_url"))) now d)).
  { intros now d ->. by apply update_transaction_row_refs. }
  repeat match goal with
         | |- context [if ?c then _ else _] => destruct c
         | |- context [delete_receipt_file ?e ?u ?p ?x] =>
             let H := fresh "Hd" in
             let r := fresh "r" in
             let wx := fresh "wx" in
             destruct (delete_receipt_file e u p x) as [[r|[]] wx] eqn:H;
             apply delete_receipt_file_db in H as [? ?]
         end;
    cbn [snd w_db set_db add_console]; apply Hfinal; cbn [w_db add_console] in *; congruence.
Qed.

Lemma remove_transaction_file_handler_refs (env : Env) (req : Request) (w : World) :
  references_intact (w_db w) ->
  references_intact (w_db (snd (remove_transaction_file_handler env req w))).
Proof.
  intros HI. unfold remove_transaction_file_handler. run_monad.
  destruct (select_transaction (req_param req) (w_db w)) as [|t l]; [exact HI|].
  destruct (negb (url_truthy (t_receipt_url t))); [exact HI|].
  destruct (delete_receipt_file env (default "" (t_receipt_url t)) "Deleted receipt file: " w)
    as [[r|[]] w1] eqn:Hd; apply delete_receipt_file_db in Hd as [Hdb Hnow].
  { cbn [snd w_db add_console]. by rewrite Hdb. }
  cbn [snd w_db set_db]. rewrite Hdb.
  apply (references_intact_step (w_db w)); try exact HI.
  - apply same_rows.
  - apply same_rows.
  - intros s Hs. by left.
  - intros t' Ht. cbn [clear_receipt_url transactions] in Ht.
    apply in_map_iff in Ht as (t0 & Ht0 & Hin). left. exists t0. split; [exact Hin|].
    subst t'. by destruct (String.eqb (t_id t0) (req_param req)).
Qed.

Lemma delete_transaction_handler_refs (env : Env) (req : Request) (w : World) :
  references_intact (w_db w) ->
  references_intact (w_db (snd (delete_transaction_handler env req w))).
Proof.
  intros HI. unfold delete_transaction_handler. run_monad.
  destruct (select_transaction (req_param req) (w_db w)) as [|t l]; [exact HI|].
  assert (Hfinal : forall d, d = w_db w ->
            references_intact (delete_transaction_row (req_param req) d)).
  { intros d ->. apply (references_intact_step (w_db w)); try exact HI.
    - apply same_rows.
    - apply same_rows.
    - intros s Hs. by left.
    - intros t' Ht. cbn [delete_transaction_row transactions] in Ht.
      apply list_elem_of_In, list_elem_of_filter in Ht as [_ Ht].
      left. exists t'. split; [by apply list_elem_of_In | done]. }
  destruct (url_truthy (t_receipt_url t)).
  - destruct (delete_receipt_file env (default "" (t_receipt_url t))
                "Deleted receipt file: " w) as [[r|[]] w1] eqn:Hd;
      apply delete_receipt_file_db in Hd as [Hdb Hnow];
      cbn [snd w_db set_db add_console]; apply Hfinal; cbn [w_db add_console] in *; congruence.
  - cbn [snd w_db set_db]. by apply Hfinal.
Qed.

Lemma catalogue_step_refs (env : Env) (weight : string -> string) (w w' : World) :
  catalogue_step env weight w w' -> references_intact (w_db w) -> references_intact (w_db w').
Proof.
  assert (Hv := auth_guard_world _ (verifyToken_guard env)).
  assert (Hm := auth_guard_world _ requireAdminOrManager_guard).
  assert (Hu := auth_guard_world _ (validateUUID_guard env)).
  assert (Ht := auth_guard_world _ validateTransactionId_guard).
  assert (Hvt := validateTransaction_world env).
  assert (Hvc := validateCategory_world).
  assert (Hvs := validateSubcategory_world env).
  intros Hstep HI. destruct Hstep.
  - apply (answer_db references_intact); [|apply create_category_handler_refs|exact HI].
    by repeat constructor.
  - apply (answer_db references_intact); [|apply update_category_handler_refs|exact HI].
    by repeat constructor.
  - change (delete_category_route env)
      with ([verifyToken env; requireAdminOrManager; validateUUID env]
              ++ [delete_category_handler]).
    apply (serve_db references_intact); [|apply delete_category_handler_refs|exact HI].
    by repeat constructor.
  - apply (answer_db references_intact); [|apply create_subcategory_handler_refs|exact HI].
    by repeat constructor.
  - apply (answer_db references_intact); [|apply update_subcategory_handler_refs|exact HI].
    by repeat constructor.
  - change (delete_subcategory_route env)
      with ([verifyToken env; requireAdminOrManager; validateUUID env]
              ++ [delete_subcategory_handler]).
    apply (serve_db references_intact); [|apply delete_subcategory_handler_refs|exact HI].
    by repeat constructor.
  - change (create_transaction_route env)
      with ([verifyToken env; requireAdminOrManager; validateTransaction env]
              ++ [create_transaction_handler]).
    apply (serve_db references_intact); [|apply create_transaction_handler_refs|exact HI].
    by repeat constructor.
  - change (update_transaction_route env)
      with ([verifyToken env; requireAdminOrManager; validateTransactionId;
             validateTransaction env] ++ [update_transaction_handler env]).
    apply (serve_db references_intact); [|apply update_transaction_handler_refs|exact HI].
    by repeat constructor.
  - change (remove_transaction_file_route env)
      with ([verifyToken env; requireAdminOrManager; validateTransactionId]
              ++ [remove_transaction_file_handler env]).
    apply (serve_db references_intact);
      [|apply remove_transaction_file_handler_refs|exact HI].
    by repeat constructor.
  - change (delete_transaction_route env)
      with ([verifyToken env; requireAdminOrManager; validateTransactionId]
              ++ [delete_transaction_handler env]).
    apply (serve_db references_intact); [|apply delete_transaction_handler_refs|exact HI].
    by repeat constructor.
Qed.

(** X18.  The routes that write to the categories, the subcategories and
    the transactions keep the references between the tables: if every
    subcategory belongs to a category of the table and every transaction
    names a category and a subcategory of the tables or none, then the same
    holds after any number of requests to the ten routes that create,
    update or delete a category, a subcategory or a transaction or remove a
    receipt, whatever the requests are and whether they succeed or fail. *)
Theorem references_stay_intact (env : Env) (weight : string -> string) (w w' : World) :
  references_intact (w_db w) -> catalogue_run env weight w w' ->
  references_intact (w_db w').
Proof.
  intros HI Hrun. induction Hrun as [w|w w1 w2 _ IH Hstep]; [exact HI|].
  apply (catalogue_step_refs env weight w1 w2 Hstep). by apply IH.
Qed.

(** ** categoryRoutes: the names of the categories stay distinct *)

(** What the last guard of a route establishes of the request holds when
    the handler runs. *)
Lemma answer_db_last {D : Type} (P R : Database -> Prop) (Q : Request -> Prop)
    (guards : list Middleware) (last : Middleware) (h : Handler D) :
  Forall world_guard guards -> world_guard last ->
  (forall req w req', last req w = (inr (Next req'), w) -> Q req') ->
  (forall d, P d -> R d) ->
  (forall req w, Q req -> P (w_db w) -> R (w_db (snd (h req w)))) ->
  forall req w, P (w_db w) -> R (w_db (snd (answer (guards ++ [last]) h req w))).
Proof.
  intros Hg Hlast HQ HPR Hh. induction Hg as [|g guards Hq _ IH]; intros req w HP.
  - simpl app. cbn [answer]. specialize (Hlast req w).
    destruct (last req w) as [[e|[req'|res]] w1] eqn:Hrun; cbn [snd] in Hlast; subst w1.
    + by apply HPR.
    + specialize (Hh req' w (HQ _ _ _ Hrun) HP).
      destruct (h req' w) as [[e|r] w1]; exact Hh.
    + by apply HPR.
  - simpl app. cbn [answer]. specialize (Hq req w).
    destruct (g req w) as [[e|[req'|res]] w1] eqn:Hrun; cbn [snd] in Hq; subst w1.
    + by apply HPR.
    + by apply IH.
    + by apply HPR.
Qed.

Lemma validateCategory_named (req req' : Request) (w : World) :
  validateCategory req w = (inr (Next req'), w) -> named req'.
Proof.
  unfold validateCategory. intros H.
  match type of H with
  | handleValidationErrors ?errs ?r w = _ =>
      destruct (handleValidationErrors_step errs r w) as [[e He] | Hn];
        [rewrite He in H; discriminate H | rewrite Hn in H]
  end.
  inversion H; subst req'. eexists. unfold body_get. cbn [req_body].
  by rewrite lookup_insert_eq.
Qed.

Lemma create_category_handler_distinct (weight : string -> string) (uuid : string)
    (req : Request) (w : World) :
  named req ->
  categories_distinct weight (w_db w) /\ ~ In uuid (map c_id (categories (w_db w))) ->
  categories_distinct weight (w_db (snd (create_category_handler weight uuid req w))).
Proof.
  intros [s Hname] [[Hids Hnames] Hfresh].
  unfold create_category_handler, req_user_id. run_monad. rewrite Hname.
  destruct (0 <? length (filter (fun c => text_eq weight (c_name c) (Js.Str s))
                           (categories (w_db w))))%nat eqn:Hdup; [by split|].
  destruct (req_user req) as [u|]; [|by split].
  unfold categories_distinct.
  cbn [snd w_db set_db insert_category_row categories].
  rewrite filter_length_zero in Hdup.
  split; rewrite map_app; apply NoDup_app; cbn [map].
  - split; [exact Hids|]. split; [|apply NoDup_singleton].
    intros x Hx Hin. apply list_elem_of_singleton in Hin. subst x.
    apply Hfresh. by apply list_elem_of_In.
  - split; [exact Hnames|]. split; [|apply NoDup_singleton].
    intros x Hx Hin. apply list_elem_of_singleton in Hin. subst x.
    apply list_elem_of_In, in_map_iff in Hx as (c & Hw & Hc).
    specialize (Hdup c Hc). cbn [text_eq as_text sql_varchar default from_option id] in *.
    apply String.eqb_neq in Hdup. done.
Qed.

Lemma rename_keeps_ids (id name : string) (l : list CategoryRow) :
  map c_id (map (fun c => if String.eqb (c_id c) id
                          then mkCategory (c_id c) name (c_created_by c) else c) l)
  = map c_id l.
Proof.
  induction l as [|c l IH]; [reflexivity|]. cbn [map]. rewrite IH. f_equal.
  by destruct (String.eqb (c_id c) id).
Qed.

(** Renaming the one category with the id, to a name no other has. *)
Lemma rename_keeps_names (weight : string -> string) (id name : string)
    (l : list CategoryRow) :
  NoDup (map c_id l) -> NoDup (map (fun c => weight (c_name c)) l) ->
  (forall c, In c l -> c_id c <> id -> weight (c_name c) <> weight name) ->
  NoDup (map (fun c => weight (c_name c))
           (map (fun c => if String.eqb (c_id c) id
                          then mkCategory (c_id c) name (c_created_by c) else c) l)).
Proof.
  induction l as [|c l IH]; intros Hids Hnames Hother; [constructor|].
  cbn [map] in *. apply NoDup_cons in Hids as [Hid Hids].
  apply NoDup_cons in Hnames as [Hname Hnames].
  apply NoDup_cons. split; [|apply IH; try done; intros c' Hc'; apply Hother; by right].
  intros Hin. apply list_elem_of_In, in_map_iff in Hin as (c1 & Hw & Hc1).
  apply in_map_iff in Hc1 as (c0 & Hc1 & Hc0).
  assert (Hne : c_id c0 <> c_id c).
  { intros Heq. apply Hid. apply list_elem_of_In, in_map_iff. by exists c0. }
  destruct (String.eqb_spec (c_id c) id) as [Hc|Hc];
    destruct (String.eqb_spec (c_id c0) id) as [Hc0'|Hc0']; subst c1; cbn [c_name] in Hw.
  - congruence.
  - apply (Hother c0); [by right | done | done].
  - apply (Hother c); [by left | done | done].
  - apply Hname. apply list_elem_of_In, in_map_iff. by exists c0.
Qed.

Lemma update_category_handler_distinct (weight : string -> string) (req : Request)
    (w : World) :
  named req -> categories_distinct weight (w_db w) ->
  categories_distinct weight (w_db (snd (update_category_handler weight req w))).
Proof.
  intros [s Hname] [Hids Hnames].
  unfold update_category_handler. run_monad. rewrite Hname.
  destruct (length (filter _ (categories (w_db w))) =? 0)%nat; [by split|].
  destruct (0 <? length (filter (fun c => text_eq weight (c_name c) (Js.Str s)
                                          && negb (String.eqb (c_id c) (req_param req)))
                           (categories (w_db w))))%nat eqn:Hdup; [by split|].
  unfold categories_distinct.
  cbn [snd w_db set_db rename_category categories].
  rewrite filter_length_zero in Hdup.
  split; [by rewrite rename_keeps_ids|].
  apply rename_keeps_names; [exact Hids | exact Hnames|].
  intros c Hc Hne Hw. specialize (Hdup c Hc).
  apply andb_false_iff in Hdup as [Hdup|Hdup].
  - cbn [text_eq] in Hdup. apply String.eqb_neq in Hdup. done.
  - apply negb_false_iff, String.eqb_eq in Hdup. done.
Qed.

(** A DELETE keeps the keys of the remaining rows distinct. *)
Lemma distinct_keys_after_delete {Row Key : Type} (key : Row -> Key) (kept : Row -> bool)
    (rows : list Row) :
  NoDup (map key rows) -> NoDup (map key (filter kept rows)).
Proof.
  intros Hdistinct. induction rows as [|row rows IH]; [constructor|].
  cbn [map] in Hdistinct. apply NoDup_cons in Hdistinct as [Hrow Hrows].
  rewrite filter_cons. destruct (decide (kept row)); [|by apply IH].
  cbn [map]. apply NoDup_cons. split; [|by apply IH].
  intros Hin. apply Hrow. apply list_elem_of_In, in_map_iff in Hin as (other & Hkey & Hin).
  apply list_elem_of_In, in_map_iff. exists other. split; [done|].
  apply list_elem_of_In, list_elem_of_filter in Hin as [_ Hin]. by apply list_elem_of_In.
Qed.

Lemma delete_category_handler_distinct (weight : string -> string) (req : Request)
    (w : World) :
  categories_distinct weight (w_db w) ->
  categories_distinct weight (w_db (snd (delete_category_handler req w))).
Proof.
  intros [Hids Hnames]. pose proof (delete_category_handler_run req w) as Hrun.
  cbv zeta in Hrun. rewrite Hrun. clear Hrun.
  destruct (length (filter _ (categories (w_db w))) =? 0)%nat; [by split|].
  destruct (0 <? count_subcategories_of (req_param req) (w_db w))%nat; [by split|].
  destruct (0 <? count_transactions_of_category (req_param req) (w_db w))%nat; [by split|].
  unfold categories_distinct.
  cbn [snd w_db set_db delete_category_row categories].
  split; by apply distinct_keys_after_delete.
Qed.

Lemma category_step_distinct (env : Env) (weight : string -> string) (w w' : World) :
  category_step env weight w w' ->
  categories_distinct weight (w_db w) -> categories_distinct weight (w_db w').
Proof.
  assert (Hv := auth_guard_world _ (verifyToken_guard env)).
  assert (Hm := auth_guard_world _ requireAdminOrManager_guard).
  assert (Hu := auth_guard_world _ (validateUUID_guard env)).
  intros Hstep HI. destruct Hstep as [req uuid w Hfresh|req w|req w].
  - change (create_category_guards env)
      with ([verifyToken env; requireAdminOrManager] ++ [validateCategory]).
    apply (answer_db_last
             (fun d => categories_distinct weight d /\ ~ In uuid (map c_id (categories d)))
             (categories_distinct weight) named).
    + by repeat constructor.
    + apply validateCategory_world.
    + intros r w0 r'. apply validateCategory_named.
    + by intros d [H _].
    + intros req0 w0. apply create_category_handler_distinct.
    + by split.
  - change (update_category_guards env)
      with ([verifyToken env; requireAdminOrManager; validateUUID env] ++ [validateCategory]).
    apply (answer_db_last (categories_distinct weight) (categories_distinct weight) named).
    + by repeat constructor.
    + apply validateCategory_world.
    + intros r w0 r'. apply validateCategory_named.
    + done.
    + intros req0 w0. apply update_category_handler_distinct.
    + exact HI.
  - change (delete_category_route env)
      with ([verifyToken env; requireAdminOrManager; validateUUID env]
              ++ [delete_category_handler]).
    apply (serve_db (categories_distinct weight));
      [|intros req0 w0; apply delete_category_handler_distinct|exact HI].
    by repeat constructor.
Qed.

(** X19.  The category routes keep the categories apart: if no two
    categories share an id and no two share a name under the collation of
    the table, the same holds after any number of requests that create,
    rename or delete a category, each creation being handed an id that is
    not in use. *)
Theorem category_names_stay_distinct (env : Env) (weight : string -> string)
    (w w' : World) :
  categories_distinct weight (w_db w) -> category_run env weight w w' ->
  categories_distinct weight (w_db w').
Proof.
  intros HI Hrun. induction Hrun as [w|w w1 w2 _ IH Hstep]; [exact HI|].
  apply (category_step_distinct env weight w1 w2 Hstep). by apply IH.
Qed.

(** ** categoryRoutes: creation and renaming *)

Lemma answer_throw {D : Type} (g : Middleware) (rest : list Middleware) (h : Handler D)
    (req : Request) (w w' : World) (e : Exn) :
  g req w = (inl e, w') ->
  answer (g :: rest) h req w = (refusal (fst (errorHandler e w')), snd (errorHandler e w')).
Proof. intros H. cbn [answer]. by rewrite H. Qed.

Lemma answer_next {D : Type} (g : Middleware) (rest : list Middleware) (h : Handler D)
    (req req' : Request) (w w' : World) :
  g req w = (inr (Next req'), w') -> answer (g :: rest) h req w = answer rest h req' w'.
Proof. intros H. cbn [answer]. by rewrite H. Qed.

Lemma answer_handler_throw {D : Type} (h : Handler D) (req : Request) (w w' : World)
    (e : Exn) :
  h req w = (inl e, w') ->
  answer [] h req w = (refusal (fst (errorHandler e w')), snd (errorHandler e w')).
Proof. intros H. cbn [answer]. by rewrite H. Qed.

Lemma answer_handler_reply {D : Type} (h : Handler D) (req : Request) (w w' : World)
    (r : Reply D) :
  h req w = (inr r, w') -> answer [] h req w = (r, w').
Proof. intros H. cbn [answer]. by rewrite H. Qed.

(** A handler that throws an [AppError] of its own without writing. *)
Lemma answer_refused {D : Type} (h : Handler D) (req : Request) (w : World)
    (message : string) (status : Z) (code : string) :
  h req w = (inl (AppError message status code), w) ->
  status <> 0 -> code <> "" -> ~ In code driver_codes ->
  refused_unchanged (answer [] h req w) w status code.
Proof.
  intros H Hs Hc Hd. rewrite (answer_handler_throw _ _ _ _ _ H).
  unfold refused_unchanged, errorHandler. rewrite (translate_app_error _ _ _ Hd).
  cbn. repeat split.
  - by destruct status.
  - destruct (String.eqb_spec code ""); [done | reflexivity].
Qed.



Lemma filter_length_pos_not {A} (f : A -> bool) (l : list A) :
  (0 <? length (filter f l))%nat = false <-> ~ exists x, In x l /\ f x = true.
Proof.
  rewrite <- filter_length_pos. by destruct (0 <? length (filter f l))%nat.
Qed.


(** ** authRoutes: refresh and change-password *)





Lemma rejected_by_app_error (mws : list Middleware) (req : Request) (w w0 : World)
    (message : string) (status : Z) (code : string) (details : list (string * string)) :
  serve mws req w
  = errorHandler (AppErrorWithDetails message status code details) w0 ->
  w_db w0 = w_db w -> w_fs w0 = w_fs w ->
  status <> 0 -> code <> "" -> ~ In code driver_codes ->
  rejected_unchanged (serve mws req w) w status code.
Proof.
  intros -> Hdb Hfs Hs Hc Hd. unfold rejected_unchanged, errorHandler.
  assert (Ht : translate_error (AppErrorWithDetails message status code details)
               = AppErrorWithDetails message status code details).
  { unfold translate_error, code_is. cbn [exn_code exn_name AppErrorWithDetails].
    assert (H : forall c, In c driver_codes -> String.eqb code c = false).
    { intros c Hin. apply String.eqb_neq. intros ->. done. }
    rewrite !H by (simpl; tauto). reflexivity. }
  rewrite Ht. cbn. repeat split; try done.
  - by destruct status.
  - destruct (String.eqb_spec code ""); [done | reflexivity].
Qed.



(** ** profileRoutes: one profile *)

Lemma verifyToken_cases (env : Env) (req : Request) (w : World) :
  (exists e, verifyToken env req w = (inl e, w))
  \/ (exists u, authenticated_as env req w u).
Proof.
  unfold authenticated_as. rewrite verifyToken_run.
  destruct (bearer_token req) as [token|]; [|left; eauto].
  destruct (jwt_verify env token) as [e|payload].
  - destruct (String.eqb (exn_name e) "JsonWebTokenError"); [left; eauto|].
    destruct (String.eqb (exn_name e) "TokenExpiredError"); left; eauto.
  - destruct (select_active_user (jwt_userId payload) (w_db w)) as [|row l];
      [left; eauto | right; eauto].
Qed.

Lemma validateUUID_cases (env : Env) (req : Request) (w : World) :
  (isUUID env (req_param req) = true /\ validateUUID env req w = (inr (Next req), w))
  \/ (isUUID env (req_param req) = false
      /\ exists e, validateUUID env req w = (inl e, w)).
Proof.
  unfold validateUUID, handleValidationErrors, check.
  destruct (isUUID env (req_param req)); [left | right]; split; try reflexivity.
  eexists. reflexivity.
Qed.

Lemma answer_refusal_db {D : Type} (e : Exn) (w : World) :
  rp_success (@refusal D (fst (errorHandler e w))) = false
  /\ rp_data (@refusal D (fst (errorHandler e w))) = None
  /\ snd (errorHandler e w) = add_console "Error:" w.
Proof. by repeat split. Qed.

Lemma get_profile_handler_run (req : Request) (w : World) (u : Identity) :
  req_user req = Some u ->
  get_profile_handler req w =
  if negb (String.eqb (id_id u) (req_param req))
     && negb (existsb (String.eqb (id_role u)) ["administrador"; "gerente"])
  then (inl ACCESS_DENIED, w)
  else match select_profile (req_param req) (w_db w) with
       | [] => (inl PROFILE_NOT_FOUND, w)
       | profile :: _ => (inr (mkReply 200 true "" None (Some profile)), w)
       end.
Proof.
  intros Hu. unfold get_profile_handler, req_identity. run_monad. rewrite Hu.
  destruct (negb (String.eqb (id_id u) (req_param req))
            && negb (existsb (String.eqb (id_role u)) ["administrador"; "gerente"]));
    [reflexivity|].
  by destruct (select_profile (req_param req) (w_db w)).
Qed.

Lemma may_read_profile_test (u : Identity) (id : string) :
  negb (String.eqb (id_id u) id)
  && negb (existsb (String.eqb (id_role u)) ["administrador"; "gerente"]) = false
  <-> may_read_profile u id.
Proof.
  unfold may_read_profile, admin_or_manager. cbn [existsb]. rewrite orb_false_r.
  destruct (String.eqb_spec (id_id u) id) as [Hi|Hi];
    destruct (String.eqb_spec (id_role u) "administrador") as [Ha|Ha];
    destruct (String.eqb_spec (id_role u) "gerente") as [Hg|Hg];
    cbn; intuition congruence.
Qed.


Lemma in_select_profile (id : string) (d : Database) (p : ProfileRow) :
  In p (select_profile id d) <-> In p (profiles d) /\ p_id p = id.
Proof.
  unfold select_profile.
  rewrite <- list_elem_of_In, list_elem_of_filter, list_elem_of_In, Is_true_true, String.eqb_eq.
  tauto.
Qed.

(** X23.  GET /api/profiles/:id never writes.  The profile it answers with
    is a profile of the table with the id asked for, and the request was
    authenticated as its owner, an administrator or a manager.  For an
    authenticated requester and a valid id: anybody else is answered 403
    ACCESS_DENIED, whether a profile has the id or not; those who may read
    are answered 404 PROFILE_NOT_FOUND when no profile has the id, and 200
    with the first profile that has it otherwise. *)
Theorem get_profile_spec (env : Env) (req : Request) (w : World) :
  let id := req_param req in
  let got := answer (get_profile_guards env) get_profile_handler req w in
  w_db (snd got) = w_db w /\ w_fs (snd got) = w_fs w
  /\ (forall p, rp_data (fst got) = Some p ->
        In p (profiles (w_db w)) /\ p_id p = id
        /\ exists u, authenticated_as env req w u /\ may_read_profile u id)
  /\ (forall u, authenticated_as env req w u -> isUUID env id = true ->
        (~ may_read_profile u id -> refused_unchanged got w 403 "ACCESS_DENIED")
        /\ (may_read_profile u id ->
              (select_profile id (w_db w) = [] ->
                 refused_unchanged got w 404 "PROFILE_NOT_FOUND")
              /\ (forall p rest, select_profile id (w_db w) = p :: rest ->
                    fst got = mkReply 200 true "" None (Some p)))).
Proof.
  intros id got.
  destruct (verifyToken_cases env req w) as [[e He] | [u Hauth]].
  { subst got. unfold get_profile_guards. rewrite (answer_throw _ _ _ _ _ _ _ He).
    split; [reflexivity|]. split; [reflexivity|]. split; [intros p Hp; discriminate Hp|].
    intros u Hauth. unfold authenticated_as in Hauth. congruence. }
  assert (Huniq : forall u', authenticated_as env req w u' -> u' = u).
  { intros u' H'. unfold authenticated_as in *. rewrite Hauth in H'.
    by injection H' as H'. }
  assert (Hgot : got = answer [validateUUID env] get_profile_handler (set_user u req) w).
  { subst got. unfold get_profile_guards. by rewrite (answer_next _ _ _ _ _ _ _ Hauth). }
  destruct (validateUUID_cases env (set_user u req) w) as [[Hid Hv] | [Hid [e He]]];
    change (req_param (set_user u req)) with id in Hid.
  2: { rewrite Hgot, (answer_throw _ _ _ _ _ _ _ He).
       split; [reflexivity|]. split; [reflexivity|]. split; [intros p Hp; discriminate Hp|].
       intros u' _ Hid'. congruence. }
  assert (Hrun := get_profile_handler_run (set_user u req) w u eq_refl).
  change (req_param (set_user u req)) with id in Hrun.
  rewrite (answer_next _ _ _ _ _ _ _ Hv) in Hgot.
  destruct (negb (String.eqb (id_id u) id)
            && negb (existsb (String.eqb (id_role u)) ["administrador"; "gerente"]))
    eqn:Htest.
  - assert (Hno : ~ may_read_profile u id).
    { intros Hm. apply may_read_profile_test in Hm. congruence. }
    assert (Href : refused_unchanged got w 403 "ACCESS_DENIED").
    { rewrite Hgot. apply (answer_refused _ _ _ _ _ _ Hrun);
        [done | done | simpl; intuition discriminate]. }
    destruct Href as (H1 & H2 & H3 & H4 & H5 & H6).
    split; [exact H5|]. split; [exact H6|]. split.
    + intros p Hp. rewrite H4 in Hp. discriminate Hp.
    + intros u' Hu' _. rewrite (Huniq u' Hu'). split; [by intros _ | by intros Hm].
  - apply may_read_profile_test in Htest.
    destruct (select_profile id (w_db w)) as [|p rest] eqn:Hsel.
    + assert (Href : refused_unchanged got w 404 "PROFILE_NOT_FOUND").
      { rewrite Hgot. apply (answer_refused _ _ _ _ _ _ Hrun);
          [done | done | simpl; intuition discriminate]. }
      destruct Href as (H1 & H2 & H3 & H4 & H5 & H6).
      split; [exact H5|]. split; [exact H6|]. split.
      * intros p Hp. rewrite H4 in Hp. discriminate Hp.
      * intros u' Hu' _. rewrite (Huniq u' Hu'). split; [by intros Hm|].
        intros _. split; [by intros _ | intros p rest Hp; discriminate Hp].
    + rewrite (answer_handler_reply _ _ _ _ _ Hrun) in Hgot. rewrite Hgot. cbn [fst snd rp_data].
      split; [reflexivity|]. split; [reflexivity|]. split.
      * intros p' Hp'. injection Hp' as <-.
        assert (Hin : In p (select_profile id (w_db w))) by (rewrite Hsel; by left).
        apply in_select_profile in Hin as [Hin Hpid]. split; [exact Hin|].
        split; [exact Hpid|]. exists u. by split.
      * intros u' Hu' _. rewrite (Huniq u' Hu'). split; [by intros Hm|].
        intros _. split; [intros Hp; discriminate Hp|].
        intros p' rest' Hp'. by injection Hp' as <- _.
Qed.






(** ** The further properties on the sample installation *)

(** Three of the four filters are kept: three clauses, three parameters. *)
Lemma buildSearchQuery_balanced_witness :
  placeholders (query (buildSearchQuery "SELECT * FROM transactions WHERE 1=1"
                         sample_filters []))
  = 3%nat
  /\ balanced (buildSearchQuery "SELECT * FROM transactions WHERE 1=1" sample_filters []).
Proof.
  destruct (buildSearchQuery_balanced "SELECT * FROM transactions WHERE 1=1" sample_filters [])
    as (Hq & _ & Hb).
  - repeat constructor.
  - split; [exact Hq | apply Hb; reflexivity].
Defined.

(** Two of the three fields are defined: two assignments and the id. *)
Lemma buildUpdateQuery_balanced_witness :
  exists q, buildUpdateQuery "profiles" sample_updates "id = ?" [Js.Str admin_id] = inr q
            /\ placeholders (query q) = 3%nat /\ balanced q.
Proof.
  destruct (buildUpdateQuery "profiles" sample_updates "id = ?" [Js.Str admin_id])
    as [e|q] eqn:Hq; [vm_compute in Hq; discriminate Hq|].
  exists q. split; [reflexivity|].
  destruct (buildUpdateQuery_balanced "profiles" sample_updates "id = ?" [Js.Str admin_id] q)
    as (Hp & _ & Hb).
  - reflexivity.
  - repeat constructor.
  - exact Hq.
  - split; [exact Hp | apply Hb; reflexivity].
Defined.

(** 25 items in pages of 10: three pages, and page 2 has both neighbours. *)
Lemma calculatePagination_spec_witness :
  (totalPages (calculatePagination 2 10 25) - 1) * 10 < 25
   <= totalPages (calculatePagination 2 10 25) * 10
  /\ hasNextPage (calculatePagination 2 10 25) = true
  /\ hasPrevPage (calculatePagination 2 10 25) = true.
Proof.
  destruct (calculatePagination_spec 2 10 25) as (_ & _ & _ & Hpages & _ & Hnext & Hprev & _).
  - lia.
  - split; [exact Hpages|]. split; [apply Hnext; lia | apply Hprev; lia].
Defined.

(** The administrator logs in, the address written in upper case. *)
Lemma login_success_witness :
  exists obj,
    serve (login_route sample_env) (login_as "ADMIN@example.org" "secret-admin") sample_world
    = (ok_json "Login successful"
         (LoginData obj (generateAccessToken sample_env admin_id)
            (generateRefreshToken sample_env admin_id)),
       set_db (touch_last_login admin_id 1000 sample_db) sample_world)
    /\ dom obj = ({["id"; "email"; "name"; "role"]} : gset string).
Proof.
  destruct (login_success sample_env (login_as "ADMIN@example.org" "secret-admin") sample_world
              (mkUser admin_id "admin@example.org" "bcrypt:secret-admin",
               mkProfile admin_id "Ana" "admin@example.org" None "administrador" true None 100)
              [] "secret-admin" eq_refl eq_refl eq_refl eq_refl eq_refl)
    as (obj & Hserve & _ & _ & _ & _ & Hdom & _).
  exists obj. split; [exact Hserve | exact Hdom].
Defined.

(** The administrator deactivates the manager, whose token is refused from
    then on. *)
Lemma deactivation_takes_effect_witness :
  verifyToken sample_env (request_as "manager-token" "" ∅)
    (snd (serve (deactivate_user_route sample_env) (admin_on manager_id ∅) sample_world))
  = (inl USER_INACTIVE,
     snd (serve (deactivate_user_route sample_env) (admin_on manager_id ∅) sample_world)).
Proof.
  destruct (deactivation_takes_effect sample_env (admin_on manager_id ∅) sample_world
              (snd (serve (deactivate_user_route sample_env) (admin_on manager_id ∅)
                      sample_world))
              (fst (serve (deactivate_user_route sample_env) (admin_on manager_id ∅)
                      sample_world)))
    as (_ & _ & _ & Htoken & _).
  - apply surjective_pairing.
  - vm_compute. reflexivity.
  - apply Htoken. exists "manager-token", (mkJwt manager_id "access"). by repeat split.
Defined.


(** The administrator deletes the manager: the profile and the user row are
    gone. *)
Lemma delete_user_effect_witness :
  (forall p, In p (profiles (w_db (snd (serve (delete_user_route sample_env)
                                          (admin_on manager_id ∅) sample_world))))
             -> p_id p <> manager_id)
  /\ categories (w_db (snd (serve (delete_user_route sample_env) (admin_on manager_id ∅)
                              sample_world)))
     = categories sample_db.
Proof.
  destruct (delete_user_effect sample_env (admin_on manager_id ∅) sample_world
              (snd (serve (delete_user_route sample_env) (admin_on manager_id ∅) sample_world))
              (fst (serve (delete_user_route sample_env) (admin_on manager_id ∅) sample_world)))
    as (existing & _ & Hprofiles & _ & Hcat & _).
  - apply surjective_pairing.
  - vm_compute. reflexivity.
  - split; [|exact Hcat]. intros p Hp. by apply Hprofiles in Hp as [_ Hp].
Defined.

(** The manager deletes a receipt of the upload directory. *)
Lemma delete_file_spec_witness :
  fst (serve (delete_file_route sample_env) (request_as "manager-token" "a.pdf" ∅) upload_world)
  = ok_json "File deleted successfully" NoData
  /\ w_fs (snd (serve (delete_file_route sample_env) (request_as "manager-token" "a.pdf" ∅)
                  upload_world)) !! "uploads/a.pdf" = None
  /\ fst (serve (delete_file_route sample_env) (request_as "manager-token" "b.pdf" ∅)
            upload_world)
     = rejection 404 "FILE_NOT_FOUND" "File not found".
Proof.
  destruct (delete_file_spec sample_env (request_as "manager-token" "a.pdf" ∅) upload_world
              manager_identity (manager_authenticated "a.pdf" ∅ upload_world eq_refl)
              (or_intror eq_refl) eq_refl) as (_ & _ & Hdel & _).
  destruct (delete_file_spec sample_env (request_as "manager-token" "b.pdf" ∅) upload_world
              manager_identity (manager_authenticated "b.pdf" ∅ upload_world eq_refl)
              (or_intror eq_refl) eq_refl) as (_ & Hnone & _).
  destruct Hdel as (Hres & _ & Hgone & _).
  { exists (mkFile 10 true). split; reflexivity. }
  split; [exact Hres|]. split; [exact Hgone|].
  apply Hnone. reflexivity.
Defined.




Lemma sample_references_intact : references_intact sample_db.
Proof.
  split.
  - intros s [<-|[<-|[]]]; exists (mkCategory groceries_id "Groceries" admin_id);
      (split; [left; reflexivity | reflexivity]).
  - intros t [<-|[<-|[]]].
    + split; [right | left; reflexivity].
      exists (mkCategory travel_id "Travel" admin_id).
      split; [right; left; reflexivity | reflexivity].
    + split; [left; reflexivity | right].
      exists (mkSubcategory fruit_id "Fruit" groceries_id admin_id).
      split; [left; reflexivity | reflexivity].
Defined.

(** The manager asks for the deletion of Travel, which txn-007 names, then
    of Unused, then records an expense: no reference is left dangling. *)
Lemma references_stay_intact_witness :
  references_intact
    (w_db (snd (serve (create_transaction_route sample_env) plain_request
                  (snd (serve (delete_category_route sample_env)
                          (request_as "manager-token" unused_id ∅)
                          (snd (serve (delete_category_route sample_env)
                                  (request_as "manager-token" travel_id ∅)
                                  sample_world))))))).
Proof.
  apply (references_stay_intact sample_env case_blind sample_world).
  - exact sample_references_intact.
  - eapply run_more; [eapply run_more; [eapply run_more; [apply run_done|]|]|].
    + apply step_delete_category.
    + apply step_delete_category.
    + apply step_create_transaction.
Defined.

Lemma sample_categories_distinct : categories_distinct case_blind sample_db.
Proof.
  split; repeat (apply NoDup_cons_2; [rewrite list_elem_of_In; simpl; intuition discriminate|]);
    apply NoDup_nil_2.
Defined.

(** The manager tries to create a second Groceries, written in lower case,
    renames Travel to Trips and creates Health: the names stay distinct. *)
Lemma category_names_stay_distinct_witness :
  categories_distinct case_blind
    (w_db (snd (answer (create_category_guards sample_env)
                  (create_category_handler case_blind health_id)
                  (named_request "manager-token" "" "Health")
                  (snd (answer (update_category_guards sample_env)
                          (update_category_handler case_blind)
                          (named_request "manager-token" travel_id "Trips")
                          (snd (answer (create_category_guards sample_env)
                                  (create_category_handler case_blind health_id)
                                  (named_request "manager-token" "" "groceries")
                                  sample_world))))))).
Proof.
  apply (category_names_stay_distinct sample_env case_blind sample_world).
  - exact sample_categories_distinct.
  - eapply category_run_more; cycle 1.
    { apply category_created. vm_compute. intuition discriminate. }
    eapply category_run_more; cycle 1.
    { apply category_updated. }
    eapply category_run_more; cycle 1.
    { apply category_created. vm_compute. intuition discriminate. }
    apply category_run_done.
Defined.



(** ** The ids of the categories, on the two sides *)

Lemma uuid_shape_fourth (id : string) :
  uuid_shape id = true ->
  exists c0 c1 c2 c3 rest,
    id = String c0 (String c1 (String c2 (String c3 rest))) /\ c3 <> "-"%char.
Proof.
  unfold uuid_shape.
  destruct id as [|c0 [|c1 [|c2 [|c3 rest]]]];
    cbn [list_ascii_of_string uuid_chars Nat.eqb orb andb]; intros H.
  - discriminate H.
  - rewrite andb_false_r in H. discriminate H.
  - rewrite !andb_false_r in H. discriminate H.
  - rewrite !andb_false_r in H. discriminate H.
  - exists c0, c1, c2, c3, rest. split; [reflexivity|]. intros ->.
    cbn in H. rewrite !andb_false_r in H. discriminate H.
Qed.

Lemma uuid_shape_not_tagged (id : string) :
  uuid_shape id = true ->
  matches_tagged_id "cat" id = false /\ matches_tagged_id "sub" id = false.
Proof.
  intros H. destruct (uuid_shape_fourth id H) as (c0 & c1 & c2 & c3 & rest & -> & Hc).
  unfold matches_tagged_id, Js.startsWith.
  change ("cat" +:+ "-") with "cat-". change ("sub" +:+ "-") with "sub-".
  split; apply andb_false_intro1; cbn [String.prefix];
    repeat (destruct (ascii_dec _ _); try reflexivity); congruence.
Qed.

Lemma validateTransaction_refuses (env : Env) (req : Request) (w : World) (id : string) :
  uuid_shape id = true ->
  body_get req "category_id" = Js.Str id \/ body_get req "subcategory_id" = Js.Str id ->
  exists errors,
    validateTransaction env req w
    = (inl (AppErrorWithDetails "Validation failed" 400 "VALIDATION_ERROR" errors), w).
Proof.
  intros Hid Hbody. destruct (uuid_shape_not_tagged id Hid) as [Hcat Hsub].
  unfold validateTransaction, handleValidationErrors.
  match goal with |- context [(0 <? length ?errs)%nat] =>
    assert (Hpos : (0 <? length errs)%nat = true) end.
  { apply Nat.ltb_lt. rewrite !length_app.
    destruct Hbody as [Hb|Hb]; unfold body_defined; rewrite Hb;
      cbn [check_optional validator_string Js.to_template];
      rewrite ?Hcat, ?Hsub; cbn [check length]; lia. }
  rewrite Hpos. eexists. reflexivity.
Qed.

(** X25.  The transaction routes never take a category or a subcategory by
    an id of the shape of a UUID, 8-4-4-4-12 hexadecimal digits, which is
    the shape of the ids the creation routes of the categories and the
    subcategories hand out with [uuidv4()]: for an administrator or a
    manager, a creation or an update of a transaction whose [category_id] or
    [subcategory_id] is such an id is answered 400 VALIDATION_ERROR and
    writes nothing. *)
Theorem uuid_references_refused (env : Env) (req : Request) (w : World) (u : Identity)
    (id : string) :
  authenticated_as env req w u -> admin_or_manager u ->
  uuid_shape id = true ->
  body_get req "category_id" = Js.Str id \/ body_get req "subcategory_id" = Js.Str id ->
  matches_tagged_id "cat" id = false /\ matches_tagged_id "sub" id = false
  /\ rejected_unchanged (serve (create_transaction_route env) req w) w 400 "VALIDATION_ERROR"
  /\ rejected_unchanged (serve (update_transaction_route env) req w) w 400 "VALIDATION_ERROR".
Proof.
  intros Hauth Hrole Hid Hbody.
  destruct (uuid_shape_not_tagged id Hid) as [Hcat Hsub].
  split; [exact Hcat|]. split; [exact Hsub|].
  destruct (validateTransaction_refuses env (set_user u req) w id Hid Hbody) as [errors Hv].
  pose proof (requireAdminOrManager_pass (set_user u req) w u eq_refl Hrole) as Hgate.
  split.
  - eapply rejected_by_app_error.
    + unfold create_transaction_route.
      rewrite (serve_next _ _ _ _ _ _ Hauth), (serve_next _ _ _ _ _ _ Hgate).
      apply (serve_throw _ _ _ _ _ _ Hv).
    + reflexivity.
    + reflexivity.
    + done.
    + done.
    + simpl. intuition discriminate.
  - unfold update_transaction_route.
    rewrite (serve_next _ _ _ _ _ _ Hauth), (serve_next _ _ _ _ _ _ Hgate).
    destruct (matches_txn_id (req_param (set_user u req))) eqn:Hparam.
    + assert (Hpass : validateTransactionId (set_user u req) w
                      = (inr (Next (set_user u req)), w)).
      { unfold validateTransactionId, handleValidationErrors, check. by rewrite Hparam. }
      eapply rejected_by_app_error.
      * rewrite (serve_next _ _ _ _ _ _ Hpass). apply (serve_throw _ _ _ _ _ _ Hv).
      * reflexivity.
      * reflexivity.
      * done.
      * done.
      * simpl. intuition discriminate.
    + assert (Hfail : validateTransactionId (set_user u req) w
                      = (inl (AppErrorWithDetails "Validation failed" 400 "VALIDATION_ERROR"
                                [("id", "Invalid transaction id format")]), w)).
      { unfold validateTransactionId, handleValidationErrors, check. by rewrite Hparam. }
      eapply rejected_by_app_error.
      * apply (serve_throw _ _ _ _ _ _ Hfail).
      * reflexivity.
      * reflexivity.
      * done.
      * done.
      * simpl. intuition discriminate.
Qed.

(** Groceries was created with a UUID: no transaction can be filed under
    it. *)
Lemma uuid_references_refused_witness :
  rejected_unchanged (serve (create_transaction_route sample_env) groceries_request
                        sample_world) sample_world 400 "VALIDATION_ERROR"
  /\ rejected_unchanged (serve (update_transaction_route sample_env) groceries_request
                           sample_world) sample_world 400 "VALIDATION_ERROR".
Proof.
  destruct (uuid_references_refused sample_env groceries_request sample_world manager_identity
              groceries_id (manager_authenticated "txn-007" _ sample_world eq_refl)
              (or_intror eq_refl) eq_refl (or_introl eq_refl)) as (_ & _ & Hcreate & Hupdate).
  split; [exact Hcreate | exact Hupdate].
Defined.
